(** * Resume analysis: response normalisation, text extraction, orchestration

    A shallow embedding of the resume-analysis client:
    - [analyzeResumeWithGemini] and [extractTextFromFile] of the Gemini
      service (the version whose [AnalysisResult] carries a nested [scores]
      record, which is the shape [App] and [ResumeHistory] render);
    - the earlier version of the same service, in [Module Legacy];
    - [uploadResume] / [saveAnalysisResults] of the storage service;
    - the [analyzeResume] callback of [App];
    - the score preview computed by [ResumeHistory].

    Modelling conventions.
    - A JavaScript string is a [string]; each [ascii] stands for one UTF-16
      code unit below 256, so [String.length] is [.length].
    - A JavaScript number is a [num]: a rational, or one of the three IEEE
      specials.  What an addition, a division or the reading of a numeric
      string gives is the exact value rounded to the nearest double, a tie
      going to the even mantissa, with overflow to an infinity and
      gradual underflow ([to_double]).  [-0] is identified with [0] (both
      are falsy, and [Math.max(0, -0)] is [0], so no result of the code can
      tell them apart).  A number of a decoded payload may be any rational:
      what is proved of all of them holds of the doubles.
    - A thrown exception is the [Throw] branch of [res]; [console.error] is a
      list of [event]s threaded through the computation.
    - What the host provides and the code only calls ([JSON.parse], the
      number printer, the model endpoint, the storage backend, the PDF
      library) is an explicit argument. *)

From Stdlib Require Import ZArith QArith Qround Qabs List String Ascii Bool Lia.
From Stdlib Require DecimalString.
Import ListNotations.

Local Open Scope string_scope.

(* ================================================================== *)
(** ** Strings *)

Module Str.

Definition code (c : ascii) : N := N_of_ascii c.

(** [\s] of a regular expression, [String.prototype.trim] and the white
    space of a numeric string share one set: the code units of WhiteSpace
    and LineTerminator.  Below 256 these are TAB, LF, VT, FF, CR, SP and
    NBSP. *)
Definition is_ws (c : ascii) : bool :=
  match code c with
  | 9 | 10 | 11 | 12 | 13 | 32 | 160 => true
  | _ => false
  end%N.

Fixpoint trimStart (s : string) : string :=
  match s with
  | String c s' => if is_ws c then trimStart s' else s
  | EmptyString => EmptyString
  end.

(** [trimEnd s] drops the trailing white space: a character is kept when
    something that is kept follows it, or when it is not white space. *)
Fixpoint trimEnd (s : string) : string :=
  match s with
  | EmptyString => EmptyString
  | String c s' =>
      match trimEnd s' with
      | EmptyString => if is_ws c then EmptyString else String c EmptyString
      | t => String c t
      end
  end.

Definition trim (s : string) : string := trimEnd (trimStart s).

(** [s.startsWith(p)], with the rest of [s] after [p]. *)
Fixpoint strip_prefix (p s : string) : option string :=
  match p, s with
  | EmptyString, _ => Some s
  | String a p', String b s' =>
      if Ascii.eqb a b then strip_prefix p' s' else None
  | String _ _, EmptyString => None
  end.

(** [s.includes(sub)]. *)
Fixpoint includes (s sub : string) : bool :=
  match strip_prefix sub s with
  | Some _ => true
  | None =>
      match s with
      | EmptyString => false
      | String _ s' => includes s' sub
      end
  end.

(** [xs.join(sep)] on an array of strings. *)
Fixpoint join (sep : string) (xs : list string) : string :=
  match xs with
  | [] => EmptyString
  | [x] => x
  | x :: rest => x ++ sep ++ join sep rest
  end.

Definition nonempty (s : string) : bool :=
  match s with EmptyString => false | String _ _ => true end.

Definition mem (c : ascii) (s : string) : bool :=
  existsb (Ascii.eqb c) (list_ascii_of_string s).

End Str.

(* ================================================================== *)
(** ** Numbers *)

Inductive num : Type :=
| Fin (q : Q)
| PInf
| NInf
| NaN.

Module Num.

Definition zero : num := Fin 0.
Definition of_Z (z : Z) : num := Fin (inject_Z z).

(** *** Rounding to a double

    IEEE 754 binary64, roundTiesToEven.  A double other than zero is
    [m * 2^u] for an integer mantissa [m] below [2^53] in magnitude and
    an exponent [u] from -1074 to 971. *)

(** The binade of [p / d] for [p > 0]: the [e] with
    [2^e <= p / d < 2^(e+1)]. *)
Definition binade (p : Z) (d : positive) : Z :=
  let k := (Z.log2 p - Z.log2 (Zpos d))%Z in
  if (p * 2 ^ Z.max 0 (- k) <? Zpos d * 2 ^ Z.max 0 k)%Z
  then (k - 1)%Z else k.

(** The exponent of the unit in the last place at [p / d]: 52 below the
    binade, and -1074 throughout the subnormal range. *)
Definition ulp_exponent (p : Z) (d : positive) : Z :=
  (Z.max (binade p d) (-1022) - 52)%Z.

(** The integer nearest to [n / d], a tie going to the even one. *)
Definition nearest_even (n d : Z) : Z :=
  let f := (n / d)%Z in
  match (2 * (n mod d) ?= d)%Z with
  | Lt => f
  | Gt => (f + 1)%Z
  | Eq => if Z.even f then f else (f + 1)%Z
  end.

(** [p / d] in units of [2^u], rounded. *)
Definition mantissa (p : Z) (d : positive) (u : Z) : Z :=
  nearest_even (p * 2 ^ Z.max 0 (- u)) (Zpos d * 2 ^ Z.max 0 u).

Definition pow2 (u : Z) : Q :=
  if (0 <=? u)%Z then inject_Z (2 ^ u) else 1 # Z.to_pos (2 ^ (- u)).

(** The double nearest to [q].  A mantissa of 0 is zero or an underflow;
    a value that reaches [2^1024] after rounding is an overflow.  A [q]
    that is a double is returned as it is written. *)
Definition to_double (q : Q) : num :=
  let p := Z.abs (Qnum q) in
  let u := ulp_exponent p (Qden q) in
  let m := mantissa p (Qden q) u in
  let r := Qred (inject_Z (Z.sgn (Qnum q) * m) * pow2 u) in
  if (m =? 0)%Z then zero
  else if Qle_bool (inject_Z (2 ^ 1024)) (Qabs r) then
    (if (0 <? Qnum q)%Z then PInf else NInf)
  else if Qeq_bool r q then Fin q
  else Fin r.

(** ToBoolean on a number. *)
Definition truthy (n : num) : bool :=
  match n with
  | Fin q => negb (Qeq_bool q 0)
  | PInf | NInf => true
  | NaN => false
  end.

(** [n || 0] *)
Definition or_zero (n : num) : num := if truthy n then n else zero.

Definition add (a b : num) : num :=
  match a, b with
  | NaN, _ | _, NaN => NaN
  | PInf, NInf | NInf, PInf => NaN
  | PInf, _ | _, PInf => PInf
  | NInf, _ | _, NInf => NInf
  | Fin x, Fin y => to_double (x + y)
  end.

Definition sign_nonneg (n : num) : bool :=
  match n with
  | Fin q => Qle_bool 0 q
  | PInf => true
  | NInf => false
  | NaN => true
  end.

Definition div (a b : num) : num :=
  match a, b with
  | NaN, _ | _, NaN => NaN
  | (PInf | NInf), (PInf | NInf) => NaN
  | (PInf | NInf), Fin _ =>
      if Bool.eqb (sign_nonneg a) (sign_nonneg b) then PInf else NInf
  | Fin _, (PInf | NInf) => zero
  | Fin x, Fin y =>
      if Qeq_bool y 0 then
        (if Qeq_bool x 0 then NaN
         else if Qle_bool 0 x then PInf else NInf)
      else to_double (x / y)
  end.

(** [Math.round]: the nearest integer, a tie going towards +infinity. *)
Definition round (n : num) : num :=
  match n with
  | Fin q => of_Z (Qfloor (q + (1 # 2)))
  | _ => n
  end.

Definition leb (a b : num) : bool :=
  match a, b with
  | NaN, _ | _, NaN => false
  | NInf, _ => true
  | _, PInf => true
  | PInf, _ => false
  | _, NInf => false
  | Fin x, Fin y => Qle_bool x y
  end.

Definition is_nan (n : num) : bool :=
  match n with NaN => true | _ => false end.

(** [Math.min(a, b)] and [Math.max(a, b)]. *)
Definition min (a b : num) : num :=
  if is_nan a || is_nan b then NaN else if leb a b then a else b.
Definition max (a b : num) : num :=
  if is_nan a || is_nan b then NaN else if leb a b then b else a.

(** [10^e] for an integer exponent. *)
Definition pow10 (e : Z) : Q :=
  if (0 <=? e)%Z then inject_Z (10 ^ e) else 1 # (Z.to_pos (10 ^ (- e))).

End Num.

(* ================================================================== *)
(** ** StringToNumber: [Number(s)] on a string

    The mathematical value of the literal, rounded to the nearest double
    whatever the number of its digits. *)

Module StringToNumber.
Import Str Num.

Definition digit (base : Z) (c : ascii) : option Z :=
  let n := Z.of_N (code c) in
  let v :=
    if ((48 <=? n) && (n <=? 57))%Z then (n - 48)%Z
    else if ((97 <=? n) && (n <=? 102))%Z then (n - 87)%Z
    else if ((65 <=? n) && (n <=? 70))%Z then (n - 55)%Z
    else (-1)%Z in
  if ((0 <=? v) && (v <? base))%Z then Some v else None.

(** The longest prefix of digits, and what follows it. *)
Fixpoint span_digits (base : Z) (s : string) : list Z * string :=
  match s with
  | EmptyString => ([], EmptyString)
  | String c s' =>
      match digit base c with
      | Some d => let (ds, r) := span_digits base s' in (d :: ds, r)
      | None => ([], s)
      end
  end.

Definition digits_value (base : Z) (ds : list Z) : Z :=
  fold_left (fun acc d => acc * base + d)%Z ds 0%Z.

Definition sign (s : string) : bool * string :=
  match s with
  | String "+" r => (false, r)
  | String "-" r => (true, r)
  | _ => (false, s)
  end.

(** ExponentPart, optional: [None] when what is left is not one. *)
Definition exponent_part (s : string) : option Z :=
  match s with
  | EmptyString => Some 0%Z
  | String c r =>
      if (Ascii.eqb c "e" || Ascii.eqb c "E")%bool then
        let (neg, r1) := sign r in
        let (ds, r2) := span_digits 10 r1 in
        match ds, r2 with
        | _ :: _, EmptyString =>
            Some (if neg then - digits_value 10 ds else digits_value 10 ds)%Z
        | _, _ => None
        end
      else None
  end.

(** StrUnsignedDecimalLiteral *)
Definition unsigned_decimal (s : string) : option num :=
  if String.eqb s "Infinity" then Some PInf
  else
    let (ip, r1) := span_digits 10 s in
    match r1 with
    | String "." r2 =>
        let (fp, r3) := span_digits 10 r2 in
        match ip, fp with
        | [], [] => None
        | _, _ =>
            option_map
              (fun e =>
                 to_double (inject_Z (digits_value 10 (ip ++ fp))
                            * pow10 (e - Z.of_nat (List.length fp))))
              (exponent_part r3)
        end
    | _ =>
        match ip with
        | [] => None
        | _ =>
            option_map
              (fun e => to_double (inject_Z (digits_value 10 ip) * pow10 e))
              (exponent_part r1)
        end
    end.

(** NonDecimalIntegerLiteral: [0x], [0o], [0b]; no sign. *)
Definition non_decimal (s : string) : option num :=
  match s with
  | String "0" (String x r) =>
      let base :=
        if (Ascii.eqb x "x" || Ascii.eqb x "X")%bool then Some 16%Z
        else if (Ascii.eqb x "o" || Ascii.eqb x "O")%bool then Some 8%Z
        else if (Ascii.eqb x "b" || Ascii.eqb x "B")%bool then Some 2%Z
        else None in
      match base with
      | Some b =>
          let (ds, rest) := span_digits b r in
          match ds, rest with
          | _ :: _, EmptyString => Some (to_double (inject_Z (digits_value b ds)))
          | _, _ => None
          end
      | None => None
      end
  | _ => None
  end.

Definition negate (n : num) : num :=
  match n with
  | Fin q => Fin (- q)
  | PInf => NInf
  | NInf => PInf
  | NaN => NaN
  end.

Definition StringToNumber (s : string) : num :=
  let t := trim s in
  if nonempty t then
    match non_decimal t with
    | Some n => n
    | None =>
        let (neg, r) := sign t in
        match unsigned_decimal r with
        | Some n => if neg then negate n else n
        | None => NaN
        end
    end
  else zero.

End StringToNumber.

(* ================================================================== *)
(** ** Exceptions, effects *)

(** A thrown value.  [Error] and [TypeError] are instances of [Error] and
    carry a message; [Thrown] is any value that is not. *)
Inductive exn : Type :=
| Error (message : string)
| TypeError (message : string)
| Thrown (description : string).

Inductive res (A : Type) : Type :=
| Ok (a : A)
| Throw (e : exn).
Arguments Ok {A} a.
Arguments Throw {A} e.

(** What the code does that a caller can observe besides its result:
    writes to the console and calls into the host. *)
Inductive event : Type :=
| console_error (label : string) (text : string)
| console_error_exn (label : string) (e : exn)
| console_log (label : string) (text : string)
| host_call (api : string).

(** A computation: the events it emitted, in order, and how it ended. *)
Definition M (A : Type) : Type := list event * res A.

Module MNotation.

Definition ret {A} (a : A) : M A := ([], Ok a).
Definition throw {A} (e : exn) : M A := ([], Throw e).
Definition emit (ev : event) : M unit := ([ev], Ok tt).
Definition lift {A} (r : res A) : M A := ([], r).

Definition bind {A B} (m : M A) (k : A -> M B) : M B :=
  match m with
  | (l, Ok a) => let (l', r) := k a in ((l ++ l')%list, r)
  | (l, Throw e) => (l, Throw e)
  end.

(** [try { m } catch (e) { h e }] *)
Definition try_catch {A} (m : M A) (h : exn -> M A) : M A :=
  match m with
  | (l, Ok a) => (l, Ok a)
  | (l, Throw e) => let (l', r) := h e in ((l ++ l')%list, r)
  end.

Definition rbind {A B} (r : res A) (k : A -> res B) : res B :=
  match r with
  | Ok a => k a
  | Throw e => Throw e
  end.

Declare Scope js_scope.
Delimit Scope js_scope with js.
Notation "x <- m ;; k" := (bind m (fun x => k))
  (at level 61, m at next level, right associativity) : js_scope.
Notation "m ;;; k" := (bind m (fun _ => k))
  (at level 61, right associativity) : js_scope.
Notation "x <~ r ;; k" := (rbind r (fun x => k))
  (at level 61, r at next level, right associativity).

End MNotation.

(* ================================================================== *)
(** ** Decoded JSON and the conversions the code applies to it *)

#[warnings="-register-all"]
Inductive json : Type :=
| JNull
| JBool (b : bool)
| JNum (n : num)
| JStr (s : string)
| JArr (items : list json)
| JObj (fields : list (string * json)).

(** A JavaScript value read off a decoded payload: [None] is [undefined]. *)
Definition value : Type := option json.

Module Js.
Import Str Num MNotation.

Fixpoint assoc (k : string) (fields : list (string * json)) : value :=
  match fields with
  | [] => None
  | (k', v) :: rest => if String.eqb k k' then Some v else assoc k rest
  end.

Definition has_key (k : string) (fields : list (string * json)) : bool :=
  match assoc k fields with Some _ => true | None => false end.

(** [o.k] for a key [k] that no prototype defines (every key the code
    reads is one).  Reading a property of [null] throws. *)
Definition get (o : json) (k : string) : res value :=
  match o with
  | JNull =>
      Throw (TypeError ("Cannot read properties of null (reading '" ++ k ++ "')"))
  | JObj fields => Ok (assoc k fields)
  | _ => Ok None
  end.

(** [v?.k] *)
Definition get_opt (v : value) (k : string) : value :=
  match v with
  | Some (JObj fields) => assoc k fields
  | _ => None
  end.

(** [a ?? b] *)
Definition nullish (a b : value) : value :=
  match a with
  | None | Some JNull => b
  | _ => a
  end.

(** ToBoolean *)
Definition truthy (v : value) : bool :=
  match v with
  | None | Some JNull => false
  | Some (JBool b) => b
  | Some (JNum n) => Num.truthy n
  | Some (JStr s) => nonempty s
  | Some (JArr _) | Some (JObj _) => true
  end.

Definition isArray (v : value) : bool :=
  match v with Some (JArr _) => true | _ => false end.

(** [xs.filter(i => typeof i === "string")] *)
Fixpoint strings (xs : list json) : list string :=
  match xs with
  | [] => []
  | JStr s :: rest => s :: strings rest
  | _ :: rest => strings rest
  end.

Definition not_primitive : exn :=
  TypeError "Cannot convert object to primitive value".

Section Conversions.
(** Number::toString, which the host provides. *)
Variable Number_toString : num -> string.

(** ToString.  A decoded object has no callable own property, so one
    that has an own [toString] cannot be converted; any other object
    prints through [Object.prototype.toString], an array through
    [Array.prototype.join]. *)
Fixpoint ToString (v : json) : res string :=
  match v with
  | JNull => Ok "null"
  | JBool true => Ok "true"
  | JBool false => Ok "false"
  | JNum n => Ok (Number_toString n)
  | JStr s => Ok s
  | JObj fields =>
      if has_key "toString" fields then Throw not_primitive
      else Ok "[object Object]"
  | JArr items =>
      (fix joined (l : list json) : res string :=
         match l with
         | [] => Ok ""
         | x :: rest =>
             let first :=
               match x with JNull => Ok "" | _ => ToString x end in
             match rest with
             | [] => first
             | _ => s <~ first ;; r <~ joined rest ;; Ok (s ++ "," ++ r)
             end
         end) items
  end.

(** ToNumber, that is [Number(v)]. *)
Definition ToNumber (v : value) : res num :=
  match v with
  | None => Ok NaN
  | Some JNull => Ok zero
  | Some (JBool b) => Ok (if b then Fin 1 else zero)
  | Some (JNum n) => Ok n
  | Some (JStr s) => Ok (StringToNumber.StringToNumber s)
  | Some ((JArr _ | JObj _) as o) =>
      s <~ ToString o ;; Ok (StringToNumber.StringToNumber s)
  end.

(** [String(v)] *)
Definition String_ (v : value) : res string :=
  match v with
  | None => Ok "undefined"
  | Some j => ToString j
  end.

End Conversions.

End Js.

(* ================================================================== *)
(** ** The canonical result *)

Record Scores : Type := {
  overall : num;
  atsCompatibility : num;
  keywordOptimization : num;
  formatting : num;
  impact : num
}.

Record AnalysisResult : Type := {
  scores : Scores;
  summary : string;
  strengths : list string;
  improvements : list string;
  criticalIssues : list string;
  suggestions : list string
}.

(* ================================================================== *)
(** ** Locating the payload in the reply: the two regular expressions *)

Module Locate.
Import Str.

(** A successful [String.prototype.match]: the whole match and the first
    capture group ([None] when the expression has no group). *)
Record matched : Type := { whole : string; group1 : option string }.

(** Equality of code units under the [i] flag, against a letter given in
    lower case. *)
Definition eq_ci (c lower : ascii) : bool :=
  (Ascii.eqb c lower
   || N.eqb (code c + 32) (code lower))%bool.

(** The opening of the fence, [```json] in any case: the text matched and
    what follows it. *)
Definition fence_open (s : string) : option (string * string) :=
  match strip_prefix "```" s with
  | Some (String j (String s_ (String o (String n rest)))) =>
      if (eq_ci j "j" && eq_ci s_ "s" && eq_ci o "o" && eq_ci n "n")%bool
      then Some (String "`" (String "`" (String "`"
             (String j (String s_ (String o (String n EmptyString)))))), rest)
      else None
  | _ => None
  end.

(** [\s*```] anchored at the start of [s], greedy with backtracking:
    the text it matches. *)
Fixpoint fence_close (s : string) : option string :=
  let here :=
    match strip_prefix "```" s with
    | Some _ => Some "```"
    | None => None
    end in
  match s with
  | String c s' =>
      if is_ws c then
        match fence_close s' with
        | Some t => Some (String c t)
        | None => here
        end
      else here
  | EmptyString => here
  end.

(** [([\s\S]*?)\s*```]: the shortest capture after which the fence
    closes, with the text that closes it. *)
Fixpoint capture (s : string) : option (string * string) :=
  match fence_close s with
  | Some closing => Some (EmptyString, closing)
  | None =>
      match s with
      | EmptyString => None
      | String c s' =>
          match capture s' with
          | Some (cap, closing) => Some (String c cap, closing)
          | None => None
          end
      end
  end.

(** [\s*([\s\S]*?)\s*```] after the opening: the white space taken
    (as much as possible, less on backtracking), the capture, the
    closing. *)
Fixpoint after_open (s : string) : option (string * string * string) :=
  let here :=
    match capture s with
    | Some (cap, closing) => Some (EmptyString, cap, closing)
    | None => None
    end in
  match s with
  | String c s' =>
      if is_ws c then
        match after_open s' with
        | Some (ws, cap, closing) => Some (String c ws, cap, closing)
        | None => here
        end
      else here
  | EmptyString => here
  end.

Definition fenced_at (s : string) : option matched :=
  match fence_open s with
  | Some (opening, rest) =>
      match after_open rest with
      | Some (ws, cap, closing) =>
          Some {| whole := opening ++ ws ++ cap ++ closing;
                  group1 := Some cap |}
      | None => None
      end
  | None => None
  end.

(** [text.match(/```json\s*([\s\S]*?)\s*```/i)]: the leftmost match. *)
Fixpoint match_fenced (text : string) : option matched :=
  match fenced_at text with
  | Some m => Some m
  | None =>
      match text with
      | EmptyString => None
      | String _ text' => match_fenced text'
      end
  end.

(** [[\s\S]*\}] anchored at the start of [s], greedy: the longest prefix
    of [s] that ends in a closing brace. *)
Fixpoint to_last_brace (s : string) : option string :=
  match s with
  | EmptyString => None
  | String c s' =>
      match to_last_brace s' with
      | Some t => Some (String c t)
      | None => if Ascii.eqb c "}" then Some (String c EmptyString) else None
      end
  end.

(** [text.match(/\{[\s\S]*\}/)] *)
Fixpoint match_braces (text : string) : option matched :=
  match text with
  | EmptyString => None
  | String c text' =>
      let next := match_braces text' in
      if Ascii.eqb c "{" then
        match to_last_brace text' with
        | Some t => Some {| whole := String c t; group1 := None |}
        | None => next
        end
      else next
  end.

(** Lines 63-66: the fenced block first, the braces otherwise. *)
Definition jsonMatch (text : string) : option matched :=
  match match_fenced text with
  | Some m => Some m
  | None => match_braces text
  end.

(** [jsonMatch[1] || jsonMatch[0]] *)
Definition jsonText (m : matched) : string :=
  match group1 m with
  | Some g => if nonempty g then g else whole m
  | None => whole m
  end.

End Locate.

(* ================================================================== *)
(** ** What the host provides *)

(** A parsed PDF: its pages in order, each with the [str] of its text
    items, or [None] for a page whose [getPage] / [getTextContent]
    rejects. *)
Definition PDFDocument : Type := list (option (list string)).

(** An uploaded file: its name, its declared MIME type, and its bytes
    ([None] when the [FileReader] reports an error). *)
Record File : Type := {
  name : string;
  type : string;
  bytes : option string
}.

Class Host : Type := {
  (** Number::toString *)
  Number_toString : num -> string;
  (** [JSON.parse]; [None] when it throws. *)
  JSON_parse : string -> option json;
  (** [model.generateContent(prompt)] followed by [response.text()] *)
  generateContent : string -> res string;
  (** [FileReader.readAsText]: the bytes decoded as text *)
  decodeText : string -> string;
  (** [pdfjsLib.getDocument({data}).promise]; [None] when it rejects. *)
  getDocument : string -> option PDFDocument
}.

(* ================================================================== *)
(** ** The Gemini service: [analyzeResumeWithGemini] *)

Module Gemini.
Import Str Num Js MNotation.

Definition dq : string := String (ascii_of_nat 34) EmptyString.
Definition nl : string := String (ascii_of_nat 10) EmptyString.
Definition q (s : string) : string := dq ++ s ++ dq.
Definition lines (l : list string) : string := Str.join nl l.

Definition ATS_ANALYSIS_PROMPT : string :=
  lines [
    "";
    "You are an expert ATS (Applicant Tracking System) resume analyzer. Analyze the provided resume text and provide a comprehensive evaluation.";
    "";
    "IMPORTANT: You must ONLY respond with a valid JSON object. Do not include any explanatory text, markdown formatting, or additional content outside the JSON.";
    "";
    "Respond with a JSON object in this exact format:";
    "";
    "```json";
    "{";
    "  " ++ q "score" ++ ": 85,";
    "  " ++ q "breakdown" ++ ": {";
    "    " ++ q "keywords" ++ ": 80,";
    "    " ++ q "formatting" ++ ": 90,";
    "    " ++ q "experience" ++ ": 85,";
    "    " ++ q "skills" ++ ": 75,";
    "    " ++ q "education" ++ ": 95";
    "  },";
    "  " ++ q "improvements" ++ ": {";
    "    " ++ q "critical" ++ ": [" ++ q "Add more industry-specific keywords"
           ++ ", " ++ q "Include quantified achievements" ++ "],";
    "    " ++ q "important" ++ ": [" ++ q "Add professional summary"
           ++ ", " ++ q "Use consistent formatting" ++ "],";
    "    " ++ q "suggested" ++ ": [" ++ q "Include relevant certifications"
           ++ ", " ++ q "Add volunteer experience" ++ "]";
    "  },";
    "  " ++ q "strengths" ++ ": [" ++ q "Clear work history" ++ ", "
         ++ q "Good educational background" ++ ", "
         ++ q "Professional formatting" ++ "],";
    "  " ++ q "summary" ++ ": "
         ++ q "Short summary sentence describing overall impression.";
    "}";
    "```";
    "";
    "Resume text to analyze:";
    ""
  ].

Section WithHost.
Context `{host : Host}.

(** *** Reading the decoded payload (lines 90-122) *)

(** Lines 90-95, given [raw.score]. *)
Definition overall_of (score : value) : num :=
  match score with
  | Some (JNum n) => n
  | Some (JStr s) => or_zero (StringToNumber.StringToNumber s)
  | _ => zero
  end.

(** [raw.breakdown || {}] *)
Definition breakdown_of (b : value) : json :=
  match b with
  | Some j => if truthy b then j else JObj []
  | None => JObj []
  end.

(** [Number(v ?? 0) || 0] *)
Definition number_or_zero (v : value) : res num :=
  n <~ ToNumber Number_toString (nullish v (Some (JNum zero))) ;;
  Ok (or_zero n).

(** [Number(breakdown.k ?? 0) || 0] *)
Definition field (breakdown : json) (k : string) : res num :=
  v <~ get breakdown k ;; number_or_zero v.

(** Lines 97-98 *)
Definition keywords_of (breakdown : json) : res num :=
  a <~ get breakdown "keywords" ;;
  match a with
  | None | Some JNull =>
      b <~ get breakdown "keywordsScore" ;; number_or_zero b
  | _ => number_or_zero a
  end.

Definition improvement_keys : list string :=
  ["critical"; "important"; "suggested"; "recommended"].

(** The [for (const k of keys)] loop of lines 111-117. *)
Fixpoint collect (o : json) (keys : list string) : res (list string) :=
  match keys with
  | [] => Ok []
  | k :: rest =>
      v <~ get o k ;;
      r <~ collect o rest ;;
      Ok ((match v with Some (JArr xs) => strings xs | _ => [] end) ++ r)%list
  end.

(** Lines 104-118, given [raw.improvements]. *)
Definition improvementsFlat (imp : value) : res (list string) :=
  match imp with
  | Some (JArr xs) => Ok (strings xs)
  | Some (JObj fields) => collect (JObj fields) improvement_keys
  | _ => Ok []
  end.

(** [Array.isArray(v) ? v.filter(s => typeof s === "string") : []] *)
Definition string_array (v : value) : list string :=
  match v with
  | Some (JArr xs) => strings xs
  | _ => []
  end.

(** *** Building the result (lines 124-149) *)

(** [Math.round((a + b) / (a || b ? 2 : 1)) || 0] *)
Definition average (a b : num) : num :=
  or_zero
    (round (div (add a b)
                (if (Num.truthy a || Num.truthy b)%bool then Fin 2 else Fin 1))).

(** [(v && String(v))] as an operand of [||]: the empty string stands
    for any falsy outcome. *)
Definition and_String (v : value) : res string :=
  if truthy v then String_ Number_toString v else Ok "".

Definition summary_of (raw : json) : res string :=
  a <~ get raw "summary" ;;
  s1 <~ and_String a ;;
  if nonempty s1 then Ok s1
  else
    b <~ get raw "analysisSummary" ;;
    s2 <~ and_String b ;;
    Ok s2.

Definition mapped (raw : json) : res AnalysisResult :=
  score <~ get raw "score" ;;
  b <~ get raw "breakdown" ;;
  let breakdown := breakdown_of b in
  keywords <~ keywords_of breakdown ;;
  formatting_ <~ field breakdown "formatting" ;;
  experience <~ field breakdown "experience" ;;
  skills <~ field breakdown "skills" ;;
  education <~ field breakdown "education" ;;
  imp <~ get raw "improvements" ;;
  flat <~ improvementsFlat imp ;;
  str <~ get raw "strengths" ;;
  summ <~ summary_of raw ;;
  Ok {| scores :=
          {| overall := round (overall_of score);
             atsCompatibility := average experience education;
             keywordOptimization := or_zero (round keywords);
             formatting := or_zero (round formatting_);
             impact := average skills experience |};
        summary := summ;
        strengths := string_array str;
        improvements := flat;
        criticalIssues := string_array (get_opt imp "critical");
        suggestions := string_array (get_opt imp "suggested") |}.

(** *** The final pass over the scores (lines 151-157) *)

Definition clamp (v : num) : num :=
  let v :=
    match v with
    | NaN | PInf | NInf => zero
    | Fin _ => v
    end in
  Num.max (Fin 0) (Num.min (Fin 100) (round v)).

Definition clampScores (r : AnalysisResult) : AnalysisResult :=
  let s := scores r in
  {| scores :=
       {| overall := clamp (overall s);
          atsCompatibility := clamp (atsCompatibility s);
          keywordOptimization := clamp (keywordOptimization s);
          formatting := clamp (formatting s);
          impact := clamp (impact s) |};
     summary := summary r;
     strengths := strengths r;
     improvements := improvements r;
     criticalIssues := criticalIssues r;
     suggestions := suggestions r |}.

(** Lines 90-159: from the decoded payload to the value returned. *)
Definition fromRaw (raw : json) : res AnalysisResult :=
  r <~ mapped raw ;; Ok (clampScores r).

(** *** The whole function *)

(** [error.message] when [error instanceof Error] *)
Definition message_of (e : exn) : option string :=
  match e with
  | Error m | TypeError m => Some m
  | Thrown _ => None
  end.

(** The error thrown by the [catch] block (lines 162-180). *)
Definition rethrown (error : exn) : exn :=
  match message_of error with
  | Some m =>
      if (includes m "Unavailable" || includes m "503")%bool then
        Error "Gemini API is temporarily unavailable. Please try again later."
      else if (includes m "JSON" || includes m "parse")%bool then
        Error "Failed to parse analysis results from Gemini. Try again."
      else if includes m "API key" then
        Error "Invalid Gemini API key. Check configuration."
      else Error "Failed to analyze resume. Please try again."
  | None => Error "Failed to analyze resume. Please try again."
  end.

Local Open Scope js_scope.

(** Lines 63-159: from the reply text to the result, inside the [try]. *)
Definition normalize (text : string) : M AnalysisResult :=
  match Locate.jsonMatch text with
  | None =>
      emit (console_error
              "Gemini response did not contain JSON. Full response:" text) ;;;
      throw (Error "No valid JSON found in response from Gemini. Try again.")
  | Some m =>
      let jsonText := Locate.jsonText m in
      match JSON_parse jsonText with
      | None =>
          emit (console_error
                  "Failed to JSON.parse extracted text. Extracted text:"
                  jsonText) ;;;
          throw (Error "Failed to parse JSON from Gemini response")
      | Some raw => lift (fromRaw raw)
      end
  end.

Definition analyzeResumeWithGemini (resumeText : string) : M AnalysisResult :=
  try_catch
    (emit (host_call "generateContent") ;;;
     text <- lift (generateContent (ATS_ANALYSIS_PROMPT ++ resumeText)) ;;
     normalize text)
    (fun error =>
       emit (console_error_exn "Error analyzing resume with Gemini:" error) ;;;
       throw (rethrown error)).

End WithHost.

End Gemini.

(* ================================================================== *)
(** ** The Gemini service: [extractTextFromFile] *)

Module Extract.
Import Str MNotation.
Local Open Scope js_scope.

(** How the promise returned by [extractTextFromFile] settles.  A call of
    [reject] inside a [try] block is not an exception: the [catch] that
    follows does not see it. *)
Inductive settled : Type :=
| resolve (text : string)
| reject (e : exn).

Definition await (s : M settled) : M string :=
  s <- s ;;
  match s with
  | resolve text => ret text
  | reject e => throw e
  end.

Definition text_plain : string := "text/plain".
Definition application_pdf : string := "application/pdf".
Definition application_msword : string := "application/msword".
Definition application_docx : string :=
  "application/vnd.openxmlformats-officedocument.wordprocessingml.document".

Definition word_message : string :=
  "Word documents are not supported yet. Please convert your resume to PDF or text format.".
Definition pdf_unreadable_message : string :=
  "Could not extract readable text from PDF. Please try converting your PDF to a text file or copy-paste the content.".
Definition pdf_parse_message : string :=
  "Failed to parse PDF. Try a different PDF or convert to text.".
Definition file_unreadable_message : string :=
  "Could not extract readable text from file. Please provide a PDF or text file.".
Definition unsupported_message : string :=
  "Unsupported file type. Please use PDF or text files.".

(** The [for] loop over the pages, from the text gathered so far: each
    page adds its items joined by a space, and a line feed. *)
Fixpoint pages (pdf : PDFDocument) (text : string) : M string :=
  match pdf with
  | [] => ret text
  | page :: rest =>
      emit (host_call "getPage") ;;;
      match page with
      | Some items => pages rest (text ++ join " " items ++ Gemini.nl)
      | None => throw (Thrown "page rejected")
      end
  end.

Section WithHost.
Context `{host : Host}.

(** [getDocument] and the loop: what both PDF branches do first inside
    their [try]. *)
Definition documentText (data : string) : M string :=
  emit (host_call "getDocument") ;;;
  match getDocument data with
  | Some pdf => pages pdf ""
  | None => throw (Thrown "getDocument rejected")
  end.

(** The gate on the extracted text. *)
Definition gate (text : string) (message : string) : settled :=
  if (50 <? String.length (trim text))%nat then resolve (trim text)
  else reject (Error message).

Definition extractTextFromFile (file : File) : M string :=
  if String.eqb (type file) text_plain then
    emit (host_call "readAsText") ;;;
    match bytes file with
    | Some data => ret (decodeText data)
    | None => throw (Error "Failed to read text file")
    end
  else if String.eqb (type file) application_pdf then
    emit (host_call "readAsArrayBuffer") ;;;
    match bytes file with
    | Some data =>
        await
          (try_catch
             (text <- documentText data ;;
              ret (gate text pdf_unreadable_message))
             (fun err =>
                emit (console_error_exn "PDF parsing error:" err) ;;;
                ret (reject (Error pdf_parse_message))))
    | None => throw (Error "Failed to read PDF file")
    end
  else if (String.eqb (type file) application_msword
           || String.eqb (type file) application_docx)%bool then
    throw (Error word_message)
  else
    emit (host_call "readAsArrayBuffer") ;;;
    match bytes file with
    | Some data =>
        await
          (try_catch
             (text <- documentText data ;;
              ret (gate text file_unreadable_message))
             (fun _ => ret (reject (Error unsupported_message))))
    | None => throw (Error "Failed to read file")
    end.

End WithHost.

End Extract.

(* ================================================================== *)
(** ** The storage service *)

(** The hosted backend, as far as the storage service calls it.  A call
    answers with data or with an error, or throws. *)
Class Backend : Type := {
  (** [Date.now()] and [Math.random().toString(36).substring(7)], printed *)
  now : string;
  random : string;
  (** [storage.from(bucket).upload(path, file, options)]: the stored path *)
  storage_upload : string -> string -> File -> res (string + exn);
  (** [storage.from(bucket).getPublicUrl(path)] *)
  getPublicUrl : string -> string -> string;
  (** [from("resume_analyses").insert([row]).select().single()]: the new
      row's [id] *)
  insert_analysis :
    string -> string -> string -> AnalysisResult -> res (string + exn)
}.

Module Storage.
Import Str MNotation.
Local Open Scope js_scope.

Definition RESUME_BUCKET : string := "resumes".

Record UploadResult : Type := { url : option string; upload_error : option exn }.
Record SaveResult : Type := { id : option string; save_error : option exn }.

(** [s.split(".").pop()]: what follows the last dot, or all of [s]. *)
Fixpoint after_last_dot (s : string) : string :=
  match s with
  | EmptyString => EmptyString
  | String c s' =>
      if mem "." s' then after_last_dot s'
      else if Ascii.eqb c "." then s' else s
  end.

Section WithBackend.
Context `{backend : Backend}.

Definition uploadResume (userId : string) (file : File) : M UploadResult :=
  try_catch
    (let fileExt := after_last_dot (name file) in
     let fileName := userId ++ "/" ++ now ++ "-" ++ random ++ "." ++ fileExt in
     emit (host_call "storage.upload") ;;;
     r <- lift (storage_upload RESUME_BUCKET fileName file) ;;
     match r with
     | inr error => throw error
     | inl path =>
         ret {| url := Some (getPublicUrl RESUME_BUCKET path);
                upload_error := None |}
     end)
    (fun error =>
       emit (console_error_exn "Error uploading resume:" error) ;;;
       ret {| url := None; upload_error := Some error |}).

Definition saveAnalysisResults
    (userId fileName fileUrl : string) (analysisResults : AnalysisResult)
    : M SaveResult :=
  try_catch
    (emit (host_call "resume_analyses.insert") ;;;
     r <- lift (insert_analysis userId fileName fileUrl analysisResults) ;;
     match r with
     | inr error => throw error
     | inl i => ret {| id := Some i; save_error := None |}
     end)
    (fun error =>
       emit (console_error_exn "Error saving analysis results:" error) ;;;
       ret {| id := None; save_error := Some error |}).

End WithBackend.

End Storage.

(* ================================================================== *)
(** ** [App]: the [analyzeResume] callback *)

Module App.
Import Str MNotation.
Local Open Scope js_scope.

Record User : Type := { user_id : string }.

Record AppState : Type := {
  file : option File;
  analyzing : bool;
  results : option AnalysisResult;
  dragActive : bool;
  error : option string;
  uploadingToStorage : bool
}.

Definition setAnalyzing (b : bool) (st : AppState) : AppState :=
  {| file := file st; analyzing := b; results := results st;
     dragActive := dragActive st; error := error st;
     uploadingToStorage := uploadingToStorage st |}.
Definition setResults (r : option AnalysisResult) (st : AppState) : AppState :=
  {| file := file st; analyzing := analyzing st; results := r;
     dragActive := dragActive st; error := error st;
     uploadingToStorage := uploadingToStorage st |}.
Definition setError (e : option string) (st : AppState) : AppState :=
  {| file := file st; analyzing := analyzing st; results := results st;
     dragActive := dragActive st; error := e;
     uploadingToStorage := uploadingToStorage st |}.
Definition setUploadingToStorage (b : bool) (st : AppState) : AppState :=
  {| file := file st; analyzing := analyzing st; results := results st;
     dragActive := dragActive st; error := error st;
     uploadingToStorage := b |}.

Section WithServices.
Context `{host : Host} `{backend : Backend}.

(** The [try] block, lines 49-76, without the state it sets. *)
Definition attempt (user : User) (uploadedFile : File) : M AnalysisResult :=
  up <- Storage.uploadResume (user_id user) uploadedFile ;;
  match Storage.upload_error up, Storage.url up with
  | None, Some fileUrl =>
      if nonempty fileUrl then
        resumeText <- Extract.extractTextFromFile uploadedFile ;;
        emit (console_log "Extracted resume text:" resumeText) ;;;
        analysisResult <- Gemini.analyzeResumeWithGemini resumeText ;;
        saved <- Storage.saveAnalysisResults
                   (user_id user) (name uploadedFile) fileUrl analysisResult ;;
        match Storage.save_error saved with
        | Some saveError =>
            emit (console_error_exn "Failed to save analysis results:" saveError)
        | None => ret tt
        end ;;;
        ret analysisResult
      else throw (Error "Failed to upload resume to storage")
  | _, _ => throw (Error "Failed to upload resume to storage")
  end.

(** [analyzeResume]: the events, and the state once the callback is
    done.  [setUploadingToStorage(false)] in the middle of the [try] is
    folded into the one of [finally]. *)
Definition analyzeResume
    (user : option User) (uploadedFile : File) (st : AppState)
    : list event * AppState :=
  match user with
  | None => ([], setError (Some "Please sign in to analyze your resume") st)
  | Some u =>
      let st := setUploadingToStorage true (setError None (setAnalyzing true st)) in
      let (evs, outcome) := attempt u uploadedFile in
      let st :=
        match outcome with
        | Ok analysisResult => setResults (Some analysisResult) st
        | Throw err =>
            setError
              (Some (match Gemini.message_of err with
                     | Some m => m
                     | None => "An unexpected error occurred"
                     end)) st
        end in
      (evs, setUploadingToStorage false (setAnalyzing false st))
  end.

End WithServices.

End App.

(* ================================================================== *)
(** ** [ResumeHistory]: the two figures shown for a stored analysis *)

Module ResumeHistory.
Import Str Num Js MNotation.

Section WithHost.
Context `{host : Host}.

(** [analysis.analysis_results ?? {}] *)
Definition ar_of (analysis_results : value) : json :=
  match analysis_results with
  | None | Some JNull => JObj []
  | Some j => j
  end.

(** [Number(v) || null], [null] being [None] here. *)
Definition number_or_null (v : value) : res (option num) :=
  n <~ ToNumber Number_toString v ;;
  Ok (if Num.truthy n then Some n else None).

(** Lines 108-112.  [inl] is a stored [scores.overall], whatever it
    is; [inr] is what the flat [score] gives. *)
Definition overallRaw (ar : json) : res (json + option num) :=
  match nullish (get_opt (get_opt (Some ar) "scores") "overall") None with
  | Some v => Ok (inl v)
  | None =>
      score <~ get ar "score" ;;
      match score with
      | Some (JNum n) => Ok (inr (Some n))
      | _ => n <~ number_or_null score ;; Ok (inr n)
      end
  end.

(** [Number(v ?? 0) || 0] *)
Definition number_or_zero (v : value) : res num :=
  n <~ ToNumber Number_toString (nullish v (Some (JNum zero))) ;;
  Ok (or_zero n).

(** Lines 116-122: the immediately invoked function. *)
Definition derived (breakdown : json) : res (option num) :=
  e <~ get breakdown "experience" ;;
  exp <~ number_or_zero e ;;
  d <~ get breakdown "education" ;;
  edu <~ number_or_zero d ;;
  if (Num.truthy exp || Num.truthy edu)%bool then
    Ok (Some (round (div (add exp edu)
                         (if (Num.truthy exp && Num.truthy edu)%bool
                          then Fin 2 else Fin 1))))
  else Ok None.

(** Lines 113-124 *)
Definition atsRaw (ar : json) : res (json + option num) :=
  match nullish (get_opt (get_opt (Some ar) "scores") "atsCompatibility") None with
  | Some v => Ok (inl v)
  | None =>
      b <~ get ar "breakdown" ;;
      match b with
      | Some breakdown =>
          if truthy b then r <~ derived breakdown ;; Ok (inr r)
          else Ok (inr None)
      | None => Ok (inr None)
      end
  end.

(** Lines 126-133: [None] is the dash shown for [null]. *)
Definition display (raw : json + option num) : res (option num) :=
  match raw with
  | inl v =>
      n <~ ToNumber Number_toString (Some v) ;;
      Ok (Some (Num.max (Fin 0) (Num.min (Fin 100) (round n))))
  | inr (Some n) => Ok (Some (Num.max (Fin 0) (Num.min (Fin 100) (round n))))
  | inr None => Ok None
  end.

End WithHost.

End ResumeHistory.

(* ================================================================== *)
(** ** The earlier version of the Gemini service *)

Module Legacy.
Import Str Js MNotation.
Local Open Scope js_scope.

Section WithHost.
Context `{host : Host}.

(** The structure check of the earlier [analyzeResumeWithGemini]: the
    decoded payload is returned as it is, provided its four top-level
    fields are truthy. *)
Definition validated (analysisResult : json) : res json :=
  score <~ get analysisResult "score" ;;
  breakdown <~ get analysisResult "breakdown" ;;
  improvements_ <~ get analysisResult "improvements" ;;
  strengths_ <~ get analysisResult "strengths" ;;
  if (negb (truthy score) || negb (truthy breakdown)
      || negb (truthy improvements_) || negb (truthy strengths_))%bool
  then Throw (Error "Invalid response structure from Gemini API")
  else Ok analysisResult.

(** The earlier [extractTextFromFile]: the same first three branches
    (with its own wording for a PDF that does not parse), and a plain
    refusal of any other type. *)
Definition extractTextFromFile (file : File) : M string :=
  if String.eqb (type file) Extract.text_plain then
    emit (host_call "readAsText") ;;;
    match bytes file with
    | Some data => ret (decodeText data)
    | None => throw (Error "Failed to read text file")
    end
  else if String.eqb (type file) Extract.application_pdf then
    emit (host_call "readAsArrayBuffer") ;;;
    match bytes file with
    | Some data =>
        Extract.await
          (try_catch
             (text <- Extract.documentText data ;;
              ret (Extract.gate text Extract.pdf_unreadable_message))
             (fun err =>
                emit (console_error_exn "PDF parsing error:" err) ;;;
                ret (Extract.reject
                       (Error "Failed to parse PDF. Please try a different PDF or convert to text format."))))
    | None => throw (Error "Failed to read PDF file")
    end
  else if (String.eqb (type file) Extract.application_msword
           || String.eqb (type file) Extract.application_docx)%bool then
    throw (Error Extract.word_message)
  else throw (Error Extract.unsupported_message).

End WithHost.

End Legacy.

(* ================================================================== *)
(** * Properties *)

(** ** Arithmetic of the final pass *)

Module NumFacts.
Import Num.

(** *** The rounding is to the nearest double

    The mantissa is the nearest integer, a tie going to the even one; the
    binade is the one the value lies in; the mantissa has at most 53
    bits, [2^53] being the carry into the next binade. *)

Lemma nearest_even_spec (n d : Z) :
  (0 < d)%Z ->
  let r := nearest_even n d in
  (Z.abs (2 * n - 2 * d * r) <= d)%Z /\
  (Z.abs (2 * n - 2 * d * r) = d -> Z.even r = true)%Z.
Proof.
  intros Hd r. subst r. unfold nearest_even.
  pose proof (Z.div_mod n d ltac:(lia)) as E.
  pose proof (Z.mod_pos_bound n d Hd) as B.
  set (f := (n / d)%Z) in *. set (m := (n mod d)%Z) in *.
  destruct (Z.compare_spec (2 * m) d) as [H|H|H].
  - destruct (Z.even f) eqn:Ev.
    + split; [nia | trivial].
    + split; [nia|]. intros _. rewrite Z.even_add, Ev. reflexivity.
  - split; nia.
  - split; nia.
Qed.

(** [2^e <= p / d], for an exponent of either sign. *)
Definition reaches (p : Z) (d : positive) (e : Z) : Prop :=
  (Zpos d * 2 ^ Z.max 0 e <= p * 2 ^ Z.max 0 (- e))%Z.

Lemma reaches_iff (p : Z) (d : positive) (e c : Z) :
  (0 <= c)%Z -> (0 <= c + e)%Z ->
  reaches p d e <-> (Zpos d * 2 ^ (c + e) <= p * 2 ^ c)%Z.
Proof.
  intros Hc Hce. unfold reaches.
  destruct (Z.le_ge_cases 0 e) as [He|He].
  - replace (Z.max 0 e) with e by lia. replace (Z.max 0 (- e)) with 0%Z by lia.
    rewrite Z.pow_add_r by lia. change (2 ^ 0)%Z with 1%Z.
    assert (0 < 2 ^ c)%Z by (apply Z.pow_pos_nonneg; lia).
    split; nia.
  - replace (Z.max 0 e) with 0%Z by lia. replace (Z.max 0 (- e)) with (- e)%Z by lia.
    replace c with ((c + e) + - e)%Z at 2 by lia.
    rewrite (Z.pow_add_r 2 (c + e) (- e)) by lia. change (2 ^ 0)%Z with 1%Z.
    assert (0 < 2 ^ (c + e))%Z by (apply Z.pow_pos_nonneg; lia).
    split; nia.
Qed.

Lemma binade_spec (p : Z) (d : positive) :
  (0 < p)%Z ->
  reaches p d (binade p d) /\ ~ reaches p d (binade p d + 1).
Proof.
  intros Hp.
  destruct (Z.log2_spec p Hp) as [Ha1 Ha2].
  destruct (Z.log2_spec (Zpos d) ltac:(lia)) as [Hb1 Hb2].
  pose proof (Z.log2_nonneg p) as Ha0. pose proof (Z.log2_nonneg (Zpos d)) as Hb0.
  set (a := Z.log2 p) in *. set (b := Z.log2 (Zpos d)) in *.
  rewrite Z.pow_succ_r in Ha2, Hb2 by lia.
  assert (HA : (0 < 2 ^ a)%Z) by (apply Z.pow_pos_nonneg; lia).
  assert (HB : (0 < 2 ^ b)%Z) by (apply Z.pow_pos_nonneg; lia).
  unfold binade. fold a b.
  fold (reaches p d (a - b)).
  assert (Hk : forall e, (a - b - 1 <= e <= a - b + 1)%Z ->
            reaches p d e <-> (Zpos d * 2 ^ (b + 1 + e) <= p * 2 ^ (b + 1))%Z).
  { intros e He. apply reaches_iff; lia. }
  destruct (Z.ltb_spec (p * 2 ^ Z.max 0 (- (a - b)))
                       (Zpos d * 2 ^ Z.max 0 (a - b))) as [Hlt|Hge].
  - assert (Hn : ~ reaches p d (a - b)) by (unfold reaches; lia).
    replace (a - b - 1 + 1)%Z with (a - b)%Z by lia.
    split; [|exact Hn].
    apply (Hk (a - b - 1)%Z); [lia|].
    replace (b + 1 + (a - b - 1))%Z with a by lia.
    rewrite Z.pow_add_r by lia. change (2 ^ 1)%Z with 2%Z. nia.
  - split; [exact Hge|].
    intros H. apply (Hk (a - b + 1)%Z) in H; [|lia].
    replace (b + 1 + (a - b + 1))%Z with (Z.succ (Z.succ a)) in H by lia.
    rewrite !Z.pow_succ_r in H by lia.
    rewrite Z.pow_add_r in H by lia. change (2 ^ 1)%Z with 2%Z in H. nia.
Qed.

Lemma reaches_below (p : Z) (d : positive) (e e' : Z) :
  (e' <= e)%Z -> reaches p d e -> reaches p d e'.
Proof.
  intros Hle H.
  set (c := Z.max 0 (- e')).
  apply (reaches_iff p d e c) in H; [|lia|lia].
  apply (reaches_iff p d e' c); [lia|lia|].
  assert (2 ^ (c + e') <= 2 ^ (c + e))%Z by (apply Z.pow_le_mono_r; lia).
  nia.
Qed.

(** The mantissa fits: it is at most [2^53], the value at which the
    rounding carries into the next binade. *)
Lemma mantissa_bound (p : Z) (d : positive) :
  (0 < p)%Z ->
  (0 <= mantissa p d (ulp_exponent p d) <= 2 ^ 53)%Z.
Proof.
  intros Hp. destruct (binade_spec p d Hp) as [_ Hn].
  set (u := ulp_exponent p d).
  assert (Hu : (binade p d + 1 <= u + 53)%Z) by (unfold u, ulp_exponent; lia).
  assert (Hn' : ~ reaches p d (u + 53)).
  { intros H. apply Hn. revert H. now apply reaches_below. }
  set (c := Z.max 0 (- u)).
  rewrite (reaches_iff p d (u + 53) c) in Hn' by lia.
  unfold mantissa. fold c.
  replace (c + (u + 53))%Z with (Z.max 0 u + 53)%Z in Hn' by lia.
  rewrite Z.pow_add_r in Hn' by lia.
  assert (HD : (0 < Zpos d * 2 ^ Z.max 0 u)%Z).
  { assert (0 < 2 ^ Z.max 0 u)%Z by (apply Z.pow_pos_nonneg; lia). lia. }
  assert (HN : (0 <= p * 2 ^ c)%Z).
  { assert (0 < 2 ^ c)%Z by (apply Z.pow_pos_nonneg; lia). lia. }
  set (N := (p * 2 ^ c)%Z) in *. set (D := (Zpos d * 2 ^ Z.max 0 u)%Z) in *.
  assert (Hf : (0 <= N / D < 2 ^ 53)%Z).
  { split; [apply Z.div_pos; lia|]. apply Z.div_lt_upper_bound; lia. }
  unfold nearest_even.
  destruct (_ ?= _)%Z; [destruct (Z.even _)| |]; lia.
Qed.

(** *** Values the rounding leaves alone *)

Lemma binade_le (p : Z) (d : positive) : (binade p d <= Z.log2 p)%Z.
Proof.
  unfold binade. pose proof (Z.log2_nonneg (Zpos d)).
  destruct (_ <? _)%Z; lia.
Qed.

Lemma nearest_even_exact (n d : Z) :
  (0 < d)%Z -> (n mod d = 0)%Z -> nearest_even n d = (n / d)%Z.
Proof.
  intros Hd Hm. unfold nearest_even. rewrite Hm.
  change (2 * 0)%Z with 0%Z.
  destruct (Z.compare_spec 0 d); [lia | reflexivity | lia].
Qed.

(** An integer or a half-integer of moderate size is a double: rounding
    leaves it as it is. *)
Lemma to_double_mid (q : Q) :
  (1 <= Z.abs (Qnum q))%Z ->
  (Z.abs (Qnum q) <= 1000 * Zpos (Qden q))%Z ->
  (Zpos (Qden q) <= 2)%Z ->
  to_double q = Fin q.
Proof.
  destruct q as [n d]. cbn [Qnum Qden]. intros H1 H2 H3.
  unfold to_double. cbn [Qnum Qden].
  set (p := Z.abs n) in *.
  set (u := ulp_exponent p d).
  assert (Hu : (-1074 <= u <= -42)%Z).
  { unfold u, ulp_exponent. pose proof (binade_le p d) as Hb.
    assert (Z.log2 p <= Z.log2 2000)%Z by (apply Z.log2_le_mono; lia).
    change (Z.log2 2000) with 10%Z in *. lia. }
  unfold mantissa.
  replace (Z.max 0 (- u)) with (- u)%Z by lia.
  replace (Z.max 0 u) with 0%Z by lia.
  change (2 ^ 0)%Z with 1%Z. rewrite Z.mul_1_r.
  assert (Hpow : (2 ^ (- u) = 2 * 2 ^ (- u - 1))%Z).
  { rewrite <- Z.pow_succ_r by lia. f_equal. lia. }
  assert (Hpos : (0 < 2 ^ (- u - 1))%Z) by (apply Z.pow_pos_nonneg; lia).
  set (w := (2 ^ (- u - 1))%Z) in *.
  assert (Hdiv : exists m, (p * 2 ^ (- u) = m * Zpos d)%Z /\ (1 <= m)%Z).
  { rewrite Hpow. assert (Hd : (Zpos d = 1 \/ Zpos d = 2)%Z) by lia.
    destruct Hd as [-> | ->].
    - exists (p * (2 * w))%Z. split; nia.
    - exists (p * w)%Z. split; nia. }
  destruct Hdiv as (m & Hm & Hm1).
  rewrite nearest_even_exact; [|lia|rewrite Hm; apply Z.mod_mul; lia].
  rewrite Hm, Z.div_mul by lia.
  replace (m =? 0)%Z with false by (symmetry; apply Z.eqb_neq; lia).
  unfold pow2. replace (0 <=? u)%Z with false by (symmetry; apply Z.leb_gt; lia).
  set (r := Qred _).
  assert (Hr : r == n # d).
  { unfold r. rewrite Qred_correct. unfold Qeq, Qmult, inject_Z. cbn [Qnum Qden].
    rewrite Pos.mul_1_l, Z2Pos.id by (apply Z.pow_pos_nonneg; lia).
    rewrite Z.mul_1_r.
    transitivity (Z.sgn n * (m * Zpos d))%Z; [ring|].
    rewrite <- Hm. unfold p.
    transitivity ((Z.sgn n * Z.abs n) * 2 ^ (- u))%Z; [ring|].
    now rewrite (Z.mul_comm (Z.sgn n)), Z.abs_sgn. }
  rewrite Hr.
  replace (Qle_bool (inject_Z (2 ^ 1024)) (Qabs (n # d))) with false.
  - replace (Qeq_bool r (n # d)) with true; [reflexivity|].
    symmetry. now apply Qeq_eq_bool.
  - symmetry. unfold Qle_bool, Qabs, inject_Z. cbn [Qnum Qden].
    apply Z.leb_gt. fold p.
    assert (HB : (2000 < 2 ^ 1024)%Z) by (vm_compute; reflexivity).
    set (B := (2 ^ 1024)%Z) in *. clearbody B. nia.
Qed.

Lemma Qfloor_half (z : Z) : Qfloor (inject_Z z + (1 # 2)) = z.
Proof.
  unfold Qfloor, Qplus, inject_Z; simpl.
  symmetry; apply (Z.div_unique _ 2 z 1); lia.
Qed.

Lemma round_of_Z (z : Z) : round (of_Z z) = of_Z z.
Proof. unfold round, of_Z. now rewrite Qfloor_half. Qed.

Lemma round_round (n : num) : round (round n) = round n.
Proof. destruct n; simpl; trivial. apply round_of_Z. Qed.

Lemma leb_of_Z (a b : Z) : leb (of_Z a) (of_Z b) = (a <=? b)%Z.
Proof.
  unfold leb, of_Z, Qle_bool, inject_Z; simpl. now rewrite !Z.mul_1_r.
Qed.

(** The integer a finite candidate is clamped to. *)
Definition clampZ (q : Q) : Z := Z.max 0 (Z.min 100 (Qfloor (q + (1 # 2)))).

Lemma clampZ_range (q : Q) : (0 <= clampZ q <= 100)%Z.
Proof. unfold clampZ; lia. Qed.

Lemma max_min_of_Z (z : Z) :
  max (Fin 0) (min (Fin 100) (of_Z z)) = of_Z (Z.max 0 (Z.min 100 z)).
Proof.
  change (Fin 0) with (of_Z 0). change (Fin 100) with (of_Z 100).
  unfold max, min. cbn [is_nan of_Z orb].
  fold (of_Z 100). fold (of_Z z). fold (of_Z 0).
  rewrite leb_of_Z.
  destruct (100 <=? z)%Z eqn:E.
  - rewrite leb_of_Z. cbn. apply Z.leb_le in E. do 2 f_equal. lia.
  - cbn [is_nan of_Z orb]. fold (of_Z z). fold (of_Z 0).
    rewrite leb_of_Z. apply Z.leb_gt in E.
    destruct (0 <=? z)%Z eqn:E0.
    + apply Z.leb_le in E0. do 2 f_equal. lia.
    + apply Z.leb_gt in E0. do 2 f_equal. lia.
Qed.

Lemma Qfloor_half_zero (q : Q) : Qeq_bool q 0 = true -> Qfloor (q + (1 # 2)) = 0%Z.
Proof.
  intros H. apply Qeq_bool_eq in H.
  assert (E : q + (1 # 2) == inject_Z 0 + (1 # 2)) by (rewrite H; reflexivity).
  rewrite (Qfloor_comp _ _ E). apply Qfloor_half.
Qed.

Lemma truthy_of_Z (z : Z) : truthy (of_Z z) = negb (z =? 0)%Z.
Proof.
  unfold truthy, of_Z, Qeq_bool, inject_Z; simpl. now rewrite Z.mul_1_r.
Qed.

Lemma or_zero_of_Z (z : Z) : or_zero (of_Z z) = of_Z z.
Proof.
  unfold or_zero. rewrite truthy_of_Z.
  destruct (z =? 0)%Z eqn:E; simpl; trivial.
  apply Z.eqb_eq in E. now subst.
Qed.

End NumFacts.

(** ** The final pass *)

Module ClampFacts.
Import Num NumFacts Gemini.

Lemma clamp_Fin (q : Q) : clamp (Fin q) = of_Z (clampZ q).
Proof. unfold clamp. cbn [round]. apply max_min_of_Z. Qed.

Lemma clamp_of_Z (z : Z) : clamp (of_Z z) = of_Z (Z.max 0 (Z.min 100 z)).
Proof.
  unfold of_Z at 1. rewrite clamp_Fin. unfold clampZ. now rewrite Qfloor_half.
Qed.

Lemma clamp_NaN : clamp NaN = of_Z 0.
Proof. reflexivity. Qed.
Lemma clamp_PInf : clamp PInf = of_Z 0.
Proof. reflexivity. Qed.
Lemma clamp_NInf : clamp NInf = of_Z 0.
Proof. reflexivity. Qed.
Lemma clamp_zero : clamp zero = of_Z 0.
Proof. reflexivity. Qed.

Lemma clamp_round (n : num) : clamp (round n) = clamp n.
Proof.
  destruct n as [q| | |]; trivial.
  cbn [round]. rewrite clamp_of_Z, clamp_Fin. reflexivity.
Qed.

Lemma clamp_or_zero (n : num) : clamp (or_zero n) = clamp n.
Proof.
  destruct n as [q| | |]; trivial.
  unfold or_zero; cbn [truthy].
  destruct (Qeq_bool q 0) eqn:E; cbn [negb]; trivial.
  rewrite clamp_zero, clamp_Fin. unfold clampZ.
  now rewrite (Qfloor_half_zero _ E).
Qed.

(** A score as the result promises it: an integer from 0 to 100. *)
Definition is_score (n : num) : Prop :=
  exists z : Z, n = of_Z z /\ (0 <= z <= 100)%Z.

Lemma clamp_is_score (n : num) : is_score (clamp n).
Proof.
  destruct n as [q| | |].
  - exists (clampZ q). split; [apply clamp_Fin | apply clampZ_range].
  - exists 0%Z. split; [reflexivity | lia].
  - exists 0%Z. split; [reflexivity | lia].
  - exists 0%Z. split; [reflexivity | lia].
Qed.

End ClampFacts.

(** ** Reading the payload *)

Module MapFacts.
Import Str Num Js MNotation NumFacts ClampFacts Gemini.

Lemma rbind_Ok {A B} (r : res A) (k : A -> res B) (b : B) :
  rbind r k = Ok b -> exists a, r = Ok a /\ k a = Ok b.
Proof. destruct r as [a|e]; simpl; [eauto | discriminate]. Qed.

(** Splits a hypothesis [x <~ r ;; k = Ok b] into its two steps. *)
Tactic Notation "step" hyp(H) "as" ident(a) ident(Ha) :=
  apply rbind_Ok in H; destruct H as (a & Ha & H).

(** [raw?.k], which is what [raw.k] gives on anything but [null]. *)
Definition at1 (raw : json) (k : string) : value := get_opt (Some raw) k.
(** [raw.k1?.k2] *)
Definition at2 (raw : json) (k1 k2 : string) : value :=
  get_opt (get_opt (Some raw) k1) k2.

Lemma get_Ok (raw : json) (k : string) (v : value) :
  get raw k = Ok v -> raw <> JNull /\ v = at1 raw k.
Proof.
  destruct raw; simpl; intros H; inversion H; subst; split;
    try discriminate; reflexivity.
Qed.

Lemma get_nonnull (raw : json) (k : string) :
  raw <> JNull -> get raw k = Ok (at1 raw k).
Proof. destruct raw; simpl; intros H; trivial. now elim H. Qed.

Lemma get_breakdown (b : value) (k : string) :
  get (breakdown_of b) k = Ok (get_opt b k).
Proof.
  destruct b as [j|]; [|reflexivity].
  destruct j as [|[|]|n|s|l|f]; simpl; trivial.
  - destruct (Num.truthy n); reflexivity.
  - destruct s; reflexivity.
Qed.

Section WithHost.
Context `{host : Host}.

Lemma field_breakdown (b : value) (k : string) :
  field (breakdown_of b) k = number_or_zero (get_opt b k).
Proof. unfold field. now rewrite get_breakdown. Qed.

Lemma keywords_breakdown (b : value) :
  keywords_of (breakdown_of b) =
  number_or_zero (nullish (get_opt b "keywords") (get_opt b "keywordsScore")).
Proof.
  unfold keywords_of. rewrite !get_breakdown. cbn [rbind].
  destruct (get_opt b "keywords") as [[| | | | |]|]; reflexivity.
Qed.

(** What a successful run of lines 90-159 has computed. *)
Lemma fromRaw_Ok (raw : json) (r : AnalysisResult) :
  fromRaw raw = Ok r ->
  raw <> JNull /\
  exists keywords formatting_ experience skills education,
    number_or_zero (nullish (at2 raw "breakdown" "keywords")
                            (at2 raw "breakdown" "keywordsScore")) = Ok keywords /\
    number_or_zero (at2 raw "breakdown" "formatting") = Ok formatting_ /\
    number_or_zero (at2 raw "breakdown" "experience") = Ok experience /\
    number_or_zero (at2 raw "breakdown" "skills") = Ok skills /\
    number_or_zero (at2 raw "breakdown" "education") = Ok education /\
    scores r =
      {| overall := clamp (overall_of (at1 raw "score"));
         atsCompatibility := clamp (average experience education);
         keywordOptimization := clamp keywords;
         formatting := clamp formatting_;
         impact := clamp (average skills experience) |} /\
    improvementsFlat (at1 raw "improvements") = Ok (improvements r) /\
    strengths r = string_array (at1 raw "strengths") /\
    criticalIssues r = string_array (at2 raw "improvements" "critical") /\
    suggestions r = string_array (at2 raw "improvements" "suggested").
Proof.
  unfold fromRaw. intros H.
  step H as m Hm. inversion H; subst r; clear H.
  unfold mapped in Hm.
  step Hm as score Hscore. step Hm as b Hb.
  step Hm as keywords Hk. step Hm as formatting_ Hf.
  step Hm as experience Hx. step Hm as skills Hs.
  step Hm as education He. step Hm as imp Himp.
  step Hm as flat Hflat. step Hm as str Hstr. step Hm as summ Hsumm.
  inversion Hm; subst m; clear Hm.
  apply get_Ok in Hscore; destruct Hscore as [Hnn ->].
  apply get_Ok in Hb; destruct Hb as [_ ->].
  apply get_Ok in Himp; destruct Himp as [_ ->].
  apply get_Ok in Hstr; destruct Hstr as [_ ->].
  rewrite keywords_breakdown in Hk.
  rewrite field_breakdown in Hf, Hx, Hs, He.
  split; [exact Hnn|].
  exists keywords, formatting_, experience, skills, education.
  repeat split; try assumption.
  cbn [clampScores scores overall atsCompatibility keywordOptimization
       formatting impact].
  rewrite !clamp_or_zero, !clamp_round. reflexivity.
Qed.

(** The whole function, once the model has replied: the outcome of
    [normalize], passed through the [catch] block when it throws. *)
Lemma analyze_reply (resumeText text : string) :
  generateContent (ATS_ANALYSIS_PROMPT ++ resumeText) = Ok text ->
  analyzeResumeWithGemini resumeText =
  match normalize text with
  | (l, Ok a) => (host_call "generateContent" :: l, Ok a)
  | (l, Throw e) =>
      (host_call "generateContent" :: l
         ++ [console_error_exn "Error analyzing resume with Gemini:" e],
       Throw (rethrown e))
  end.
Proof.
  intros H. unfold analyzeResumeWithGemini. rewrite H.
  unfold try_catch, bind, emit, lift, throw.
  destruct (normalize text) as [l [a|e]]; reflexivity.
Qed.

End WithHost.

End MapFacts.

(* ================================================================== *)
(** ** Hosts that answer from a script *)

Module Scripted.

(** Prints an integer in decimal and the three specials by name; the
    scripts below print no other number. *)
Definition print (n : num) : string :=
  match n with
  | Fin q => DecimalString.NilZero.string_of_int (Z.to_int (Qfloor q))
  | PInf => "Infinity"
  | NInf => "-Infinity"
  | NaN => "NaN"
  end.

Fixpoint lookup {A} (script : list (string * A)) (s : string) : option A :=
  match script with
  | [] => None
  | (k, v) :: rest => if String.eqb s k then Some v else lookup rest s
  end.

(** The model answers [reply] to any prompt; [JSON.parse] and
    [getDocument] know the inputs listed, and fail on any other. *)
Definition host (reply : res string)
    (decodes : list (string * json)) (documents : list (string * PDFDocument))
    : Host :=
  {| Number_toString := print;
     JSON_parse := lookup decodes;
     generateContent := fun _ => reply;
     decodeText := fun data => data;
     getDocument := lookup documents |}.

(** A host for what needs none of the above. *)
Definition idle : Host := host (Throw (Thrown "offline")) [] [].

(** The backend answers [uploaded] to an upload and [inserted] to an
    insertion. *)
Definition backend (uploaded inserted : res (string + exn)) : Backend :=
  {| now := "1700000000000";
     random := "k3x9a";
     storage_upload := fun _ _ _ => uploaded;
     getPublicUrl := fun bucket path => "https://storage.example/" ++ bucket ++ "/" ++ path;
     insert_analysis := fun _ _ _ _ => inserted |}.

End Scripted.

(* ================================================================== *)
(** ** The scores of a normalised result *)

Module ScoreSpec.
Import Str Num Js MNotation NumFacts ClampFacts MapFacts Gemini.

(** A payload value that is no number: neither a JSON number nor a
    string that reads as one. *)
Definition non_numeric (v : json) : Prop :=
  match v with
  | JNum _ => False
  | JStr s => StringToNumber.StringToNumber s = NaN
  | _ => True
  end.

Section WithHost.
Context `{host : Host}.

Lemma number_or_zero_absent : number_or_zero None = Ok zero.
Proof. reflexivity. Qed.

Lemma number_or_zero_Ok (v : json) (n m : num) :
  ToNumber Number_toString (Some v) = Ok n ->
  number_or_zero (Some v) = Ok m ->
  clamp m = clamp n.
Proof.
  unfold number_or_zero. intros Hn Hm.
  destruct v; cbn [nullish] in Hm;
    try (rewrite Hn in Hm; cbn [rbind] in Hm; inversion Hm;
         now rewrite clamp_or_zero).
  cbn in Hn, Hm. inversion Hn; inversion Hm; reflexivity.
Qed.

(** C1, as amended.  Whenever lines 90-159 return, each of the five
    scores is an integer from 0 to 100.  A field that is absent gives 0.
    A flat [score] that is a number is rounded and clamped, one that is
    a string is read as a number first, and any other gives 0.  A
    [breakdown] field is converted with [Number] first, whatever it is,
    and the number it converts to is rounded and clamped.  Rounding and
    clamping send NaN and the infinities to 0, and a finite number to
    the nearest integer (a tie upwards) brought into 0..100. *)
Theorem scores_in_range_and_clamped (raw : json) (r : AnalysisResult) :
  fromRaw raw = Ok r ->
  let s := scores r in
  (is_score (overall s) /\ is_score (atsCompatibility s) /\
   is_score (keywordOptimization s) /\ is_score (formatting s) /\
   is_score (impact s))
  /\ (at1 raw "score" = None -> overall s = of_Z 0)
  /\ (at2 raw "breakdown" "keywords" = None ->
      at2 raw "breakdown" "keywordsScore" = None ->
      keywordOptimization s = of_Z 0)
  /\ (at2 raw "breakdown" "formatting" = None -> formatting s = of_Z 0)
  /\ (at2 raw "breakdown" "experience" = None ->
      at2 raw "breakdown" "education" = None ->
      atsCompatibility s = of_Z 0)
  /\ (at2 raw "breakdown" "skills" = None ->
      at2 raw "breakdown" "experience" = None ->
      impact s = of_Z 0)
  /\ (forall n, at1 raw "score" = Some (JNum n) -> overall s = clamp n)
  /\ (forall t, at1 raw "score" = Some (JStr t) ->
      overall s = clamp (StringToNumber.StringToNumber t))
  /\ (forall v, at1 raw "score" = Some v ->
      (forall n, v <> JNum n) -> (forall t, v <> JStr t) ->
      overall s = of_Z 0)
  /\ (forall v n,
      nullish (at2 raw "breakdown" "keywords")
              (at2 raw "breakdown" "keywordsScore") = Some v ->
      ToNumber Number_toString (Some v) = Ok n ->
      keywordOptimization s = clamp n)
  /\ (forall v n, at2 raw "breakdown" "formatting" = Some v ->
      ToNumber Number_toString (Some v) = Ok n ->
      formatting s = clamp n)
  /\ (forall q, clamp (Fin q) = of_Z (Z.max 0 (Z.min 100 (Qfloor (q + (1 # 2))))))
  /\ clamp NaN = of_Z 0 /\ clamp PInf = of_Z 0 /\ clamp NInf = of_Z 0.
Proof.
  intros H s. subst s.
  apply fromRaw_Ok in H.
  destruct H as (_ & kw & fm & ex & sk & ed & Hkw & Hfm & Hex & Hsk & Hed
                 & Hs & _).
  rewrite Hs; cbn [overall atsCompatibility keywordOptimization formatting impact].
  split; [repeat split; apply clamp_is_score|].
  split; [intros E; rewrite E; reflexivity|].
  split.
  { intros E1 E2. rewrite E1, E2 in Hkw. cbn in Hkw. inversion Hkw. reflexivity. }
  split.
  { intros E. rewrite E in Hfm. cbn in Hfm. inversion Hfm. reflexivity. }
  split.
  { intros E1 E2. rewrite E1 in Hex. rewrite E2 in Hed.
    cbn in Hex, Hed. inversion Hex; inversion Hed. reflexivity. }
  split.
  { intros E1 E2. rewrite E1 in Hsk. rewrite E2 in Hex.
    cbn in Hex, Hsk. inversion Hex; inversion Hsk. reflexivity. }
  split; [intros n E; rewrite E; reflexivity|].
  split; [intros t E; rewrite E; cbn [overall_of]; apply clamp_or_zero|].
  split.
  { intros v E Hn Ht. rewrite E.
    destruct v; try reflexivity; [now elim (Hn n) | now elim (Ht s)]. }
  split.
  { intros v n E Hn. rewrite E in Hkw.
    eapply number_or_zero_Ok; eassumption. }
  split.
  { intros v n E Hn. rewrite E in Hfm.
    eapply number_or_zero_Ok; eassumption. }
  split; [intros q; apply clamp_Fin|].
  repeat split.
Qed.

End WithHost.

Definition demo_payload : json :=
  JObj [("score", JStr "130");
        ("breakdown", JObj [("keywords", JNum (Fin (-10)));
                            ("experience", JStr "n/a")])].

(** The theorem at a payload with a numeric string, a negative number
    and a string that is no number. *)
Lemma scores_in_range_and_clamped_witness :
  exists r, @fromRaw Scripted.idle demo_payload = Ok r /\
    overall (scores r) = of_Z 100 /\
    keywordOptimization (scores r) = of_Z 0 /\
    is_score (atsCompatibility (scores r)).
Proof.
  eexists. split; [vm_compute; reflexivity|].
  pose proof (@scores_in_range_and_clamped Scripted.idle demo_payload _
                ltac:(vm_compute; reflexivity)) as H.
  cbv zeta in H. destruct H as ((_ & Hats & _) & _).
  split; [reflexivity|]. split; [reflexivity|]. exact Hats.
Defined.

(** The sentence of C1 about values that are no numbers, read on
    [breakdown.keywords]. *)
Definition non_numeric_gives_zero : Prop :=
  forall (host : Host) (raw : json) (r : AnalysisResult) (v : json),
    fromRaw raw = Ok r ->
    at2 raw "breakdown" "keywords" = Some v ->
    non_numeric v ->
    keywordOptimization (scores r) = of_Z 0.

(** C1 as stated fails: [true] is no number, and [Number(true)] is 1, so
    the payload [{"breakdown": {"keywords": true}}] has a keyword score
    of 1. *)
Lemma non_numeric_gives_zero_fails : ~ non_numeric_gives_zero.
Proof.
  intros claim.
  specialize (claim Scripted.idle
                (JObj [("breakdown", JObj [("keywords", JBool true)])])
                _ (JBool true) ltac:(vm_compute; reflexivity)
                eq_refl I).
  vm_compute in claim. discriminate claim.
Qed.

End ScoreSpec.

(* ================================================================== *)
(** ** Where the overall score comes from *)

Module OverallSpec.
Import Str Num Js MNotation NumFacts ClampFacts MapFacts Gemini.

(** What the flat [score] field stands for: itself when a number, what
    it reads as when a string, and nothing otherwise. *)
Definition flat_score (score : value) : num :=
  match score with
  | Some (JNum n) => n
  | Some (JStr t) => StringToNumber.StringToNumber t
  | _ => zero
  end.

Section WithHost.
Context `{host : Host}.

(** C3, as amended.  The overall score of a normalised payload is its
    flat [score] field, a number or a string that reads as one, rounded
    and clamped, and 0 when that field is absent or anything else.  No
    other part of the payload has a say: two payloads with the same
    flat [score] get the same overall score, and a payload with no flat
    [score] gets 0 whatever its nested [scores] holds. *)
Theorem overall_from_flat_score (raw : json) (r : AnalysisResult) :
  fromRaw raw = Ok r ->
  overall (scores r) = clamp (flat_score (at1 raw "score"))
  /\ (forall raw' r', fromRaw raw' = Ok r' ->
      at1 raw' "score" = at1 raw "score" ->
      overall (scores r') = overall (scores r))
  /\ (at1 raw "score" = None -> overall (scores r) = of_Z 0).
Proof.
  intros H.
  assert (E : forall raw r, fromRaw raw = Ok r ->
              overall (scores r) = clamp (flat_score (at1 raw "score"))).
  { clear. intros raw r H. apply fromRaw_Ok in H.
    destruct H as (_ & kw & fm & ex & sk & ed & _ & _ & _ & _ & _ & Hs & _).
    rewrite Hs; cbn [overall].
    destruct (at1 raw "score") as [[| | |t| |]|]; cbn [overall_of flat_score];
      trivial.
    apply clamp_or_zero. }
  split; [now apply E|]. split.
  - intros raw' r' H' Heq. rewrite (E _ _ H), (E _ _ H'). now rewrite Heq.
  - intros Hnone. rewrite (E _ _ H), Hnone. reflexivity.
Qed.

End WithHost.

Definition nested_only : json :=
  JObj [("scores", JObj [("overall", JNum (Fin 85))])].

Lemma overall_from_flat_score_witness :
  exists r, @fromRaw Scripted.idle nested_only = Ok r /\
            overall (scores r) = of_Z 0.
Proof.
  eexists. split; [vm_compute; reflexivity|].
  destruct (@overall_from_flat_score Scripted.idle nested_only _
              ltac:(vm_compute; reflexivity)) as (_ & _ & H).
  apply H. reflexivity.
Defined.

(** The first link of the chain of C3: a nested [scores.overall] that is
    present is the overall score. *)
Definition nested_overall_is_used : Prop :=
  forall (host : Host) (raw : json) (r : AnalysisResult) (n : num),
    fromRaw raw = Ok r ->
    at2 raw "scores" "overall" = Some (JNum n) ->
    overall (scores r) = clamp n.

(** C3 as stated fails: the payload [{"scores": {"overall": 85}}] is
    given the overall score 0. *)
Lemma nested_overall_is_used_fails : ~ nested_overall_is_used.
Proof.
  intros claim.
  specialize (claim Scripted.idle nested_only _ (Fin 85)
                ltac:(vm_compute; reflexivity) eq_refl).
  vm_compute in claim. discriminate claim.
Qed.

(** The chain exists where a stored analysis is shown: [ResumeHistory]
    takes a nested [scores.overall] first. *)
Lemma history_prefers_nested `{host : Host} (ar v : json) :
  at2 ar "scores" "overall" = Some v -> v <> JNull ->
  ResumeHistory.overallRaw ar = Ok (inl v).
Proof.
  unfold at2, ResumeHistory.overallRaw. intros -> Hv.
  destruct v; cbn [nullish]; trivial. now elim Hv.
Qed.

End OverallSpec.


(* ================================================================== *)
(** ** The three lists of improvements *)

Module ImprovementsSpec.
Import Str Num Js MNotation MapFacts Gemini.

Section WithHost.
Context `{host : Host}.

Lemma collect_object (fields : list (string * json)) :
  collect (JObj fields) improvement_keys =
  Ok (string_array (assoc "critical" fields)
      ++ string_array (assoc "important" fields)
      ++ string_array (assoc "suggested" fields)
      ++ string_array (assoc "recommended" fields))%list.
Proof.
  unfold improvement_keys, collect, get, rbind, string_array.
  now rewrite app_nil_r.
Qed.

(** C10.  In a normalised result every critical issue and every
    suggestion is one of the improvements.  The two lists are the
    strings of [improvements.critical] and of [improvements.suggested];
    when [improvements] is an object, the flat list is those of
    [critical], [important], [suggested] and [recommended], in this
    order; when it is an array, or absent, both lists are empty. *)
Theorem categorized_within_flat (raw : json) (r : AnalysisResult) :
  fromRaw raw = Ok r ->
  (forall s, In s (criticalIssues r) -> In s (improvements r))
  /\ (forall s, In s (suggestions r) -> In s (improvements r))
  /\ criticalIssues r = string_array (at2 raw "improvements" "critical")
  /\ suggestions r = string_array (at2 raw "improvements" "suggested")
  /\ (forall fields, at1 raw "improvements" = Some (JObj fields) ->
      improvements r =
        (string_array (assoc "critical" fields)
         ++ string_array (assoc "important" fields)
         ++ string_array (assoc "suggested" fields)
         ++ string_array (assoc "recommended" fields))%list)
  /\ (isArray (at1 raw "improvements") = true \/ at1 raw "improvements" = None ->
      criticalIssues r = [] /\ suggestions r = []).
Proof.
  intros H. apply fromRaw_Ok in H.
  destruct H as (_ & kw & fm & ex & sk & ed & _ & _ & _ & _ & _ & _
                 & Hflat & _ & Hcrit & Hsugg).
  rewrite Hcrit, Hsugg. unfold at2. fold (at1 raw "improvements").
  destruct (at1 raw "improvements") as [imp|] eqn:Himp.
  - destruct imp as [| | | | xs |fields];
      try (cbn [get_opt string_array];
           repeat split; try contradiction; try discriminate; fail).
    cbn [get_opt]. rewrite <- Himp in Hflat. rewrite Himp in Hflat.
    cbn [improvementsFlat] in Hflat. rewrite collect_object in Hflat.
    inversion Hflat as [Hi]; clear Hflat.
    repeat split.
    + intros s Hs. apply in_or_app. now left.
    + intros s Hs. apply in_or_app; right.
      apply in_or_app; right. apply in_or_app. now left.
    + intros fields' E. now inversion E.
    + destruct H as [H|H]; discriminate H.
    + destruct H as [H|H]; discriminate H.
  - cbn [get_opt string_array].
    repeat split; try contradiction; discriminate.
Qed.

End WithHost.

Definition categorized : json :=
  JObj [("improvements",
         JObj [("critical", JArr [JStr "Add metrics"; JNum (Fin 3)]);
               ("important", JArr [JStr "Add a summary"]);
               ("suggested", JArr [JStr "List certifications"])])].

Lemma categorized_within_flat_witness :
  exists r, @fromRaw Scripted.idle categorized = Ok r /\
    criticalIssues r = ["Add metrics"] /\
    improvements r = ["Add metrics"; "Add a summary"; "List certifications"] /\
    (forall s, In s (suggestions r) -> In s (improvements r)).
Proof.
  eexists. split; [vm_compute; reflexivity|].
  destruct (@categorized_within_flat Scripted.idle categorized _
              ltac:(vm_compute; reflexivity)) as (_ & H & _).
  split; [reflexivity|]. split; [reflexivity|]. exact H.
Defined.

End ImprovementsSpec.

(* ================================================================== *)
(** ** When the mapping returns *)

Module TotalitySpec.
Import Str Num Js MNotation MapFacts Gemini.

(** A value that [ToString] converts: no object met on the way has an
    own [toString]. *)
Fixpoint printable (v : json) : bool :=
  match v with
  | JObj fields => negb (has_key "toString" fields)
  | JArr items => forallb printable items
  | _ => true
  end.

Definition printable_value (v : value) : Prop :=
  forall j, v = Some j -> printable j = true.

Section Induction.
Variable P : json -> Prop.
Hypothesis Pnull : P JNull.
Hypothesis Pbool : forall b, P (JBool b).
Hypothesis Pnum : forall n, P (JNum n).
Hypothesis Pstr : forall s, P (JStr s).
Hypothesis Parr : forall items, Forall P items -> P (JArr items).
Hypothesis Pobj : forall fields, P (JObj fields).

Fixpoint json_items_ind (v : json) : P v :=
  match v with
  | JNull => Pnull
  | JBool b => Pbool b
  | JNum n => Pnum n
  | JStr s => Pstr s
  | JArr items =>
      Parr items
        ((fix all (l : list json) : Forall P l :=
            match l with
            | [] => Forall_nil P
            | x :: rest => Forall_cons x (json_items_ind x) (all rest)
            end) items)
  | JObj fields => Pobj fields
  end.
End Induction.

Section WithHost.
Context `{host : Host}.

Lemma ToString_printable (v : json) :
  printable v = true -> exists s, ToString Number_toString v = Ok s.
Proof.
  induction v as [|b|n|s|items IH|fields] using json_items_ind; intros Hp.
  - now exists "null".
  - destruct b; simpl; eauto.
  - simpl; eauto.
  - simpl; eauto.
  - cbn [printable] in Hp. cbn [ToString].
    induction IH as [|x rest Hx _ IHrest]; [now exists ""|].
    cbn [forallb] in Hp. apply andb_prop in Hp. destruct Hp as [Hpx Hprest].
    destruct (IHrest Hprest) as [r Hr].
    assert (Hfirst : exists s,
              match x with JNull => Ok "" | _ => ToString Number_toString x end
              = Ok s).
    { destruct (Hx Hpx) as [s Hs]. destruct x; eauto. }
    destruct Hfirst as [s Hs].
    destruct rest as [|y rest'].
    + exists s. exact Hs.
    + rewrite Hs. cbn [rbind].
      change ((fix joined (l : list json) : res string :=
                 match l with
                 | [] => Ok ""
                 | x :: rest =>
                     let first :=
                       match x with
                       | JNull => Ok ""
                       | _ => ToString Number_toString x
                       end in
                     match rest with
                     | [] => first
                     | _ :: _ => s <~ first ;; r <~ joined rest ;; Ok (s ++ "," ++ r)
                     end
                 end) (y :: rest'))
        with (ToString Number_toString (JArr (y :: rest'))).
      cbn [ToString] in Hr. cbn [ToString]. rewrite Hr. cbn [rbind]. eauto.
  - cbn [printable] in Hp. cbn [ToString].
    destruct (has_key "toString" fields); [discriminate|eauto].
Qed.

Lemma ToNumber_returns (v : value) :
  printable_value v -> exists n, ToNumber Number_toString v = Ok n.
Proof.
  intros Hp. destruct v as [j|]; [|now exists NaN].
  specialize (Hp j eq_refl).
  destruct j; cbn [ToNumber]; eauto;
    destruct (ToString_printable _ Hp) as [s ->]; cbn [rbind]; eauto.
Qed.

Lemma number_or_zero_returns (v : value) :
  printable_value v -> exists n, number_or_zero v = Ok n.
Proof.
  intros Hp. unfold number_or_zero.
  destruct (ToNumber_returns (nullish v (Some (JNum zero)))) as [n ->].
  - intros j E. destruct v as [[| | | | |]|]; cbn [nullish] in E;
      inversion E; subst; trivial; now apply Hp.
  - cbn [rbind]. eauto.
Qed.

Lemma and_String_returns (v : value) :
  printable_value v -> exists s, and_String v = Ok s.
Proof.
  intros Hp. unfold and_String. destruct (truthy v); [|eauto].
  destruct v as [j|]; cbn [String_]; [|eauto].
  apply ToString_printable. now apply Hp.
Qed.

Lemma improvementsFlat_returns (imp : value) :
  exists l, improvementsFlat imp = Ok l.
Proof.
  destruct imp as [[| | | | xs|fields]|]; cbn [improvementsFlat]; eauto.
  rewrite ImprovementsSpec.collect_object. eauto.
Qed.

(** The part of C4 that the code keeps: a decoded payload other than
    [null], with nothing that cannot be converted where the code
    converts, is mapped to a result. *)
Lemma fromRaw_returns (raw : json) :
  raw <> JNull ->
  (forall k, In k ["keywords"; "keywordsScore"; "formatting";
                   "experience"; "skills"; "education"] ->
             printable_value (at2 raw "breakdown" k)) ->
  (forall k, In k ["summary"; "analysisSummary"] ->
             printable_value (at1 raw k)) ->
  exists r, fromRaw raw = Ok r.
Proof.
  intros Hnn Hb Hs. unfold fromRaw, mapped.
  rewrite !(get_nonnull raw) by assumption. cbn [rbind].
  rewrite keywords_breakdown, !field_breakdown.
  unfold at1 in *. unfold at2 in Hb.
  set (b := get_opt (Some raw) "breakdown") in *.
  destruct (number_or_zero_returns
              (nullish (get_opt b "keywords") (get_opt b "keywordsScore")))
    as [kw ->].
  { intros j E.
    destruct (get_opt b "keywords") as [[| | | | |]|] eqn:K;
      cbn [nullish] in E;
      try (inversion E; subst; apply (Hb "keywords"); simpl; tauto);
      apply (Hb "keywordsScore"); simpl; tauto. }
  destruct (number_or_zero_returns (get_opt b "formatting"))
    as [fm ->]; [apply Hb; simpl; tauto|].
  destruct (number_or_zero_returns (get_opt b "experience"))
    as [ex ->]; [apply Hb; simpl; tauto|].
  destruct (number_or_zero_returns (get_opt b "skills"))
    as [sk ->]; [apply Hb; simpl; tauto|].
  destruct (number_or_zero_returns (get_opt b "education"))
    as [ed ->]; [apply Hb; simpl; tauto|].
  destruct (improvementsFlat_returns (get_opt (Some raw) "improvements"))
    as [fl ->].
  cbn [rbind]. unfold summary_of.
  rewrite !(get_nonnull raw) by assumption. cbn [rbind]. unfold at1.
  destruct (and_String_returns (get_opt (Some raw) "summary")) as [s1 ->];
    [apply Hs; simpl; tauto|].
  destruct (and_String_returns (get_opt (Some raw) "analysisSummary"))
    as [s2 ->]; [apply Hs; simpl; tauto|].
  cbn [rbind]. destruct (nonempty s1); cbn [rbind]; eauto.
Qed.

Definition fenced_null : string := "```json" ++ nl ++ "null" ++ nl ++ "```".

(** C4 at the reply whose fenced block holds [null].  The payload is
    located and decoded; reading [raw.score] then throws, and the
    caller gets the general failure. *)
Theorem null_payload_is_not_mapped (resumeText : string) :
  generateContent (ATS_ANALYSIS_PROMPT ++ resumeText) = Ok fenced_null ->
  JSON_parse "null" = Some JNull ->
  option_map Locate.jsonText (Locate.jsonMatch fenced_null) = Some "null"
  /\ fromRaw JNull =
       Throw (TypeError "Cannot read properties of null (reading 'score')")
  /\ analyzeResumeWithGemini resumeText =
       ([host_call "generateContent";
         console_error_exn "Error analyzing resume with Gemini:"
           (TypeError "Cannot read properties of null (reading 'score')")],
        Throw (Error "Failed to analyze resume. Please try again.")).
Proof.
  intros Hreply Hparse.
  assert (Hm : Locate.jsonMatch fenced_null =
               Some {| Locate.whole := fenced_null;
                       Locate.group1 := Some "null" |})
    by (vm_compute; reflexivity).
  split; [rewrite Hm; reflexivity|]. split; [reflexivity|].
  rewrite (analyze_reply _ _ Hreply).
  unfold normalize. rewrite Hm.
  cbn [Locate.jsonText Locate.group1 nonempty].
  rewrite Hparse. reflexivity.
Qed.

End WithHost.

Lemma null_payload_is_not_mapped_witness :
  snd (@analyzeResumeWithGemini
         (Scripted.host (Ok fenced_null) [("null", JNull)] []) "resume")
  = Throw (Error "Failed to analyze resume. Please try again.").
Proof.
  destruct (@null_payload_is_not_mapped
              (Scripted.host (Ok fenced_null) [("null", JNull)] [])
              "resume" eq_refl eq_refl) as (_ & _ & H).
  rewrite H. reflexivity.
Defined.

End TotalitySpec.

(* ================================================================== *)
(** ** The derived scores *)

Module DerivedSpec.
Import Str Num Js MNotation NumFacts ClampFacts MapFacts Gemini.

(** [Math.round((x + 0) / 2) || 0] for an integer score [x]: half of it,
    a half rounded up. *)
Lemma average_lone (x : Z) :
  (1 <= x <= 100)%Z ->
  average (of_Z x) zero = of_Z ((x + 1) / 2) /\
  average zero (of_Z x) = of_Z ((x + 1) / 2).
Proof.
  intros Hx.
  assert (Ht : Num.truthy (of_Z x) = true).
  { rewrite truthy_of_Z. destruct (Z.eqb_spec x 0); [lia|reflexivity]. }
  assert (Hr : forall q, Qnum q = x -> Qden q = 1%positive ->
             or_zero (round (div (to_double q) (Fin 2))) = of_Z ((x + 1) / 2)).
  { intros [n d] Hn Hd. cbn [Qnum Qden] in Hn, Hd. subst n d.
    rewrite to_double_mid by (cbn [Qnum Qden]; lia).
    cbn [div]. change (Qeq_bool 2 0) with false. cbv iota.
    rewrite to_double_mid by (cbn; lia).
    cbn [round]. rewrite or_zero_of_Z. f_equal.
    unfold Qfloor, Qplus, Qdiv, Qmult, Qinv; cbn.
    replace (x * 1 * 2 + 2)%Z with ((x + 1) * 2)%Z by lia.
    change 4%Z with (2 * 2)%Z. apply Z.div_mul_cancel_r; lia. }
  unfold average. rewrite Ht. change (Num.truthy zero) with false. cbn [orb].
  split; cbn [add zero of_Z]; apply Hr; cbn; lia.
Qed.

(** What [ResumeHistory] makes of the same pair: the value itself. *)
Lemma history_lone (x : Z) :
  (1 <= x <= 100)%Z ->
  round (div (add (of_Z x) zero) (Fin 1)) = of_Z x.
Proof.
  intros Hx. cbn [add zero of_Z].
  rewrite to_double_mid by (cbn; lia).
  cbn [div]. change (Qeq_bool 1 0) with false. cbv iota.
  rewrite to_double_mid by (cbn; lia).
  cbn [round]. f_equal.
  unfold Qfloor, Qplus, Qdiv, Qmult, Qinv; cbn.
  replace (x * 1 * 1 * 2 + 1)%Z with (x * 2 + 1)%Z by lia.
  symmetry. apply (Z.div_unique _ 2 x 1); lia.
Qed.

(** A payload whose breakdown has an experience of [x] and nothing else. *)
Definition experience_only (x : Z) : json :=
  JObj [("score", JNum (Fin 85));
        ("breakdown", JObj [("experience", JNum (of_Z x))])].

Section WithHost.
Context `{host : Host}.

(** C2 at the payloads whose breakdown has an experience from 1 to 100
    and neither education nor skills.  The one value present is halved,
    in both derived scores (40 for 80), where the claim has it used
    alone; [ResumeHistory], on the same breakdown, keeps it whole. *)
Theorem lone_value_is_halved (x : Z) :
  (1 <= x <= 100)%Z ->
  exists r, fromRaw (experience_only x) = Ok r /\
    atsCompatibility (scores r) = of_Z ((x + 1) / 2) /\
    impact (scores r) = of_Z ((x + 1) / 2) /\
    ResumeHistory.derived (JObj [("experience", JNum (of_Z x))])
      = Ok (Some (of_Z x)).
Proof.
  intros Hx.
  assert (Hex : number_or_zero (Some (JNum (of_Z x))) = Ok (of_Z x)).
  { unfold number_or_zero. cbn [nullish ToNumber rbind].
    now rewrite or_zero_of_Z. }
  destruct (TotalitySpec.fromRaw_returns (experience_only x)) as [r Hr].
  { discriminate. }
  { intros k _ j Hj. unfold at2, experience_only in Hj. cbn in Hj.
    destruct (String.eqb k "experience"); [|discriminate].
    now inversion Hj. }
  { intros k [<-|[<-|[]]] j Hj; discriminate Hj. }
  exists r. split; [exact Hr|].
  apply fromRaw_Ok in Hr.
  destruct Hr as (_ & kw & fm & ex & sk & ed & _ & _ & Hx' & Hsk & Hed & Hs & _).
  change (at2 (experience_only x) "breakdown" "experience")
    with (Some (JNum (of_Z x))) in Hx'.
  change (at2 (experience_only x) "breakdown" "skills") with (@None json) in Hsk.
  change (at2 (experience_only x) "breakdown" "education") with (@None json) in Hed.
  rewrite Hex in Hx'. inversion Hx'; subst ex.
  rewrite ScoreSpec.number_or_zero_absent in Hsk, Hed.
  inversion Hsk; subst sk. inversion Hed; subst ed.
  rewrite Hs; cbn [atsCompatibility impact].
  destruct (average_lone x Hx) as [-> ->].
  assert (Hc : clamp (of_Z ((x + 1) / 2)) = of_Z ((x + 1) / 2)).
  { rewrite clamp_of_Z.
    assert (0 <= (x + 1) / 2 <= 100)%Z.
    { split; [apply Z.div_pos; lia|]. apply Z.div_le_upper_bound; lia. }
    f_equal. lia. }
  rewrite Hc. repeat split.
  unfold ResumeHistory.derived, ResumeHistory.number_or_zero.
  cbn [get assoc String.eqb Ascii.eqb Bool.eqb rbind nullish ToNumber].
  rewrite or_zero_of_Z.
  change (or_zero zero) with zero.
  rewrite truthy_of_Z. destruct (Z.eqb_spec x 0) as [E|_]; [lia|].
  cbn [negb orb andb Num.truthy]. change (Num.truthy zero) with false.
  cbv iota. now rewrite (history_lone x Hx).
Qed.

End WithHost.

(** At 80: the claim says 80, the code gives 40. *)
Lemma lone_value_is_halved_witness :
  exists r, @fromRaw Scripted.idle (experience_only 80) = Ok r /\
    atsCompatibility (scores r) = of_Z 40 /\
    impact (scores r) = of_Z 40.
Proof.
  destruct (@lone_value_is_halved Scripted.idle 80 ltac:(lia))
    as (r & Hr & Ha & Hi & _).
  exists r. split; [exact Hr|]. split; [exact Ha | exact Hi].
Defined.

End DerivedSpec.

(* ================================================================== *)
(** ** Locating the payload *)

Module LocateSpec.
Import Str Js MNotation MapFacts Gemini Locate.
Local Open Scope nat_scope.

(** [s.indexOf(c)] and [s.lastIndexOf(c)] for a single character;
    [None] is -1. *)
Fixpoint indexOf (c : ascii) (s : string) : option nat :=
  match s with
  | EmptyString => None
  | String a s' =>
      if Ascii.eqb a c then Some 0 else option_map S (indexOf c s')
  end.

Fixpoint lastIndexOf (c : ascii) (s : string) : option nat :=
  match s with
  | EmptyString => None
  | String a s' =>
      match lastIndexOf c s' with
      | Some j => Some (S j)
      | None => if Ascii.eqb a c then Some 0 else None
      end
  end.

(** What the claim says of the second expression: the text from the
    first opening brace to the last closing brace, when the one comes
    before the other. *)
Definition first_to_last_brace (text : string) : option matched :=
  match indexOf "{" text, lastIndexOf "}" text with
  | Some i, Some j =>
      if i <? j
      then Some {| whole := substring i (S (j - i)) text; group1 := None |}
      else None
  | _, _ => None
  end.

(** What the claim says of the first expression, with the operations of
    a string: the first [```json] of the text, in any letter case; the
    first [```] after it; the text between the two, trimmed. *)

(** A capital of the basic Latin alphabet in lower case, any other code
    unit as it is. *)
Definition lower (c : ascii) : ascii :=
  let n := code c in
  if ((65 <=? n) && (n <=? 90))%N then ascii_of_N (n + 32) else c.

Fixpoint lowercase (s : string) : string :=
  match s with
  | EmptyString => EmptyString
  | String c s' => String (lower c) (lowercase s')
  end.

(** [s.indexOf(sub)]; [None] is -1. *)
Fixpoint find (sub s : string) : option nat :=
  if prefix sub s then Some 0
  else
    match s with
    | EmptyString => None
    | String _ s' => option_map S (find sub s')
    end.

(** [s.slice(n)] *)
Definition from (n : nat) (s : string) : string :=
  substring n (length s - n) s.

(** The first fenced block of a text, from its opening to its closing
    fence, and its content. *)
Definition fenced_block (text : string) : option (string * string) :=
  match find "```json" (lowercase text) with
  | None => None
  | Some i =>
      let rest := from (i + 7) text in
      match find "```" rest with
      | None => None
      | Some j =>
          Some (substring i (7 + j + 3) text, trim (substring 0 j rest))
      end
  end.

(** The payload of a reply: the content of its first fenced block, or
    the block as it stands when it has no content; without a fenced
    block, the text from the first opening brace to the last closing
    one. *)
Definition payload (text : string) : option string :=
  match fenced_block text with
  | Some (block, content) =>
      Some (match content with EmptyString => block | _ => content end)
  | None => option_map whole (first_to_last_brace text)
  end.

Lemma substring_0_0 (s : string) : substring 0 0 s = EmptyString.
Proof. destruct s; reflexivity. Qed.

Lemma to_last_brace_spec (s : string) :
  to_last_brace s =
  option_map (fun j => substring 0 (S j) s) (lastIndexOf "}" s).
Proof.
  induction s as [|c s IH]; [reflexivity|].
  cbn [to_last_brace lastIndexOf]. rewrite IH.
  destruct (lastIndexOf "}" s) as [j|]; cbn [option_map].
  - reflexivity.
  - destruct (Ascii.eqb c "}"); cbn [option_map]; trivial.
    cbn [substring]. now rewrite substring_0_0.
Qed.

Lemma match_braces_spec (text : string) :
  match_braces text = first_to_last_brace text.
Proof.
  unfold first_to_last_brace.
  induction text as [|c s IH]; [reflexivity|].
  cbn [match_braces indexOf lastIndexOf].
  rewrite IH, to_last_brace_spec. clear IH.
  destruct (Ascii.eqb c "{") eqn:Ec.
  - apply Ascii.eqb_eq in Ec; subst c.
    destruct (lastIndexOf "}" s) as [j|]; cbn [option_map].
    + cbn [Nat.ltb Nat.leb]. rewrite Nat.sub_0_r. reflexivity.
    + cbn. destruct (indexOf "{" s); reflexivity.
  - destruct (indexOf "{" s) as [i|]; cbn [option_map].
    + destruct (lastIndexOf "}" s) as [j|].
      * change (S i <? S j) with (i <? j).
        destruct (i <? j); trivial.
      * destruct (Ascii.eqb c "}"); reflexivity.
    + destruct (lastIndexOf "}" s) as [j|]; trivial.
Qed.

(** *** The fenced block *)

Lemma append_assoc (a b c : string) : (a ++ b) ++ c = a ++ (b ++ c).
Proof. induction a as [|x a IH]; simpl; [reflexivity | now rewrite IH]. Qed.

Definition all_ws (s : string) : bool :=
  forallb is_ws (list_ascii_of_string s).

(** The seven characters that open a fenced block of JSON, in any case. *)
Definition is_fence_open (o : string) : bool :=
  String.eqb (lowercase o) "```json".

(** A reply that holds a fenced block: an opening, and a closing fence
    somewhere after it. *)
Definition has_fenced_block (text : string) : Prop :=
  exists pre o mid post,
    is_fence_open o = true /\ text = pre ++ o ++ mid ++ "```" ++ post.

Lemma strip_prefix_Some (p s r : string) :
  strip_prefix p s = Some r -> s = p ++ r.
Proof.
  revert s; induction p as [|a p IH]; intros s H; simpl in H.
  - now inversion H.
  - destruct s as [|b s]; [discriminate|].
    destruct (Ascii.eqb a b) eqn:E; [|discriminate].
    apply Ascii.eqb_eq in E; subst b. simpl. f_equal. now apply IH.
Qed.

Lemma strip_prefix_app (p s : string) : strip_prefix p (p ++ s) = Some s.
Proof.
  induction p as [|a p IH]; simpl; [reflexivity|].
  now rewrite Ascii.eqb_refl.
Qed.

Lemma prefix_cons (a b : ascii) (p s : string) :
  prefix (String a p) (String b s) = (Ascii.eqb a b && prefix p s)%bool.
Proof.
  cbn [prefix]. destruct (ascii_dec a b) as [->|N].
  - now rewrite Ascii.eqb_refl.
  - apply Ascii.eqb_neq in N. now rewrite N.
Qed.

Lemma prefix_strip (p s : string) :
  prefix p s = match strip_prefix p s with Some _ => true | None => false end.
Proof.
  revert s; induction p as [|a p IH]; intros s.
  - destruct s; reflexivity.
  - destruct s as [|b s]; [reflexivity|].
    rewrite prefix_cons. cbn [strip_prefix].
    destruct (Ascii.eqb a b); [apply IH | reflexivity].
Qed.

Lemma lower_tick (c : ascii) : Ascii.eqb "`" (lower c) = Ascii.eqb "`" c.
Proof. destruct c as [[] [] [] [] [] [] [] []]; reflexivity. Qed.

Lemma lower_j (c : ascii) : Ascii.eqb "j" (lower c) = eq_ci c "j".
Proof. destruct c as [[] [] [] [] [] [] [] []]; reflexivity. Qed.
Lemma lower_s (c : ascii) : Ascii.eqb "s" (lower c) = eq_ci c "s".
Proof. destruct c as [[] [] [] [] [] [] [] []]; reflexivity. Qed.
Lemma lower_o (c : ascii) : Ascii.eqb "o" (lower c) = eq_ci c "o".
Proof. destruct c as [[] [] [] [] [] [] [] []]; reflexivity. Qed.
Lemma lower_n (c : ascii) : Ascii.eqb "n" (lower c) = eq_ci c "n".
Proof. destruct c as [[] [] [] [] [] [] [] []]; reflexivity. Qed.

Lemma fence_open_Some (s o rest : string) :
  fence_open s = Some (o, rest) -> s = o ++ rest /\ is_fence_open o = true.
Proof.
  unfold fence_open. intros H.
  destruct (strip_prefix "```" s) as [r|] eqn:E; [|discriminate].
  apply strip_prefix_Some in E; subst s.
  destruct r as [|j [|s_ [|o' [|n r]]]]; try discriminate.
  destruct (eq_ci j "j" && eq_ci s_ "s" && eq_ci o' "o" && eq_ci n "n")%bool
    eqn:C; [|discriminate].
  inversion H; subst o rest; clear H.
  split; [reflexivity|].
  rewrite <- lower_j, <- lower_s, <- lower_o, <- lower_n in C.
  apply andb_true_iff in C; destruct C as [C Cn].
  apply andb_true_iff in C; destruct C as [C Co].
  apply andb_true_iff in C; destruct C as [Cj Cs].
  apply Ascii.eqb_eq in Cj, Cs, Co, Cn.
  unfold is_fence_open. cbn [lowercase]. rewrite <- Cj, <- Cs, <- Co, <- Cn.
  reflexivity.
Qed.

Lemma fence_open_app (o rest : string) :
  is_fence_open o = true -> fence_open (o ++ rest) = Some (o, rest).
Proof.
  unfold is_fence_open. intros H. apply String.eqb_eq in H.
  destruct o as [|a1 [|a2 [|a3 [|a4 [|a5 [|a6 [|a7 [|a8 o]]]]]]]];
    cbn [lowercase] in H; try discriminate H.
  injection H as H1 H2 H3 H4 H5 H6 H7.
  assert (T : forall a, lower a = "`"%char -> a = "`"%char).
  { intros a Ha. symmetry. apply Ascii.eqb_eq.
    rewrite <- lower_tick, Ha. reflexivity. }
  apply T in H1, H2, H3. subst a1 a2 a3.
  unfold fence_open. cbn [append strip_prefix Ascii.eqb Bool.eqb].
  rewrite <- lower_j, <- lower_s, <- lower_o, <- lower_n, H4, H5, H6, H7.
  reflexivity.
Qed.

Lemma fence_close_Some (s t : string) :
  fence_close s = Some t ->
  exists ws rest, t = ws ++ "```" /\ all_ws ws = true /\ s = t ++ rest.
Proof.
  revert t; induction s as [|c s IH]; intros t H.
  - discriminate H.
  - cbn [fence_close] in H.
    assert (Hhere : match strip_prefix "```" (String c s) with
                    | Some _ => Some "```"
                    | None => None
                    end = Some t ->
                    exists ws rest,
                      t = ws ++ "```" /\ all_ws ws = true /\ String c s = t ++ rest).
    { destruct (strip_prefix "```" (String c s)) as [r|] eqn:E; [|discriminate].
      intros Ht; inversion Ht; subst t. apply strip_prefix_Some in E.
      now exists "", r. }
    destruct (is_ws c) eqn:W; [|now apply Hhere].
    destruct (fence_close s) as [t'|]; [|now apply Hhere].
    inversion H; subst t; clear H.
    destruct (IH t' eq_refl) as (ws & rest & -> & Hws & ->).
    exists (String c ws), rest. repeat split.
    unfold all_ws; cbn [list_ascii_of_string forallb]. now rewrite W.
Qed.

Lemma fence_close_here (s r : string) :
  strip_prefix "```" s = Some r -> exists t, fence_close s = Some t.
Proof.
  intros H. destruct s as [|c s]; [discriminate|].
  cbn [fence_close]. rewrite H.
  destruct (is_ws c); [|eauto]. destruct (fence_close s); eauto.
Qed.

Lemma capture_Some (s cap cl : string) :
  capture s = Some (cap, cl) ->
  exists ws rest, cl = ws ++ "```" /\ all_ws ws = true /\ s = cap ++ cl ++ rest.
Proof.
  revert cap cl; induction s as [|c s IH]; intros cap cl H; cbn [capture] in H.
  - discriminate H.
  - destruct (fence_close (String c s)) as [t|] eqn:E.
    + inversion H; subst cap cl; clear H.
      destruct (fence_close_Some _ _ E) as (ws & rest & -> & Hws & Hs).
      exists ws, rest. now repeat split.
    + destruct (capture s) as [[cap' cl']|]; [|discriminate].
      inversion H; subst cap cl; clear H.
      destruct (IH _ _ eq_refl) as (ws & rest & -> & Hws & ->).
      exists ws, rest. now repeat split.
Qed.

Lemma capture_closed (mid post : string) :
  exists r, capture (mid ++ "```" ++ post) = Some r.
Proof.
  pose proof (fence_close_here ("```" ++ post) post (strip_prefix_app _ _))
    as [t Ht].
  set (tail := "```" ++ post) in *.
  induction mid as [|c mid IH].
  - cbn [append]. destruct tail; cbn [capture]; rewrite Ht; eauto.
  - cbn [append capture].
    destruct (fence_close (String c (mid ++ tail))); [eauto|].
    destruct IH as [[cap cl] ->]. eauto.
Qed.

Lemma after_open_Some (s ws cap cl : string) :
  after_open s = Some (ws, cap, cl) ->
  all_ws ws = true /\
  exists ws' rest,
    cl = ws' ++ "```" /\ all_ws ws' = true /\ s = ws ++ cap ++ cl ++ rest.
Proof.
  assert (Hhere : forall s ws cap cl,
            match capture s with
            | Some (cap, closing) => Some (EmptyString, cap, closing)
            | None => None
            end = Some (ws, cap, cl) ->
            all_ws ws = true /\
            exists ws' rest,
              cl = ws' ++ "```" /\ all_ws ws' = true /\ s = ws ++ cap ++ cl ++ rest).
  { clear. intros s ws cap cl H.
    destruct (capture s) as [[cap' cl']|] eqn:E; [|discriminate].
    inversion H; subst ws cap cl; clear H. split; [reflexivity|].
    destruct (capture_Some _ _ _ E) as (ws' & rest & -> & Hws & ->).
    now exists ws', rest. }
  revert ws cap cl; induction s as [|c s IH]; intros ws cap cl H.
  - now apply Hhere.
  - cbn [after_open] in H.
    destruct (is_ws c) eqn:W; [|now apply Hhere].
    destruct (after_open s) as [[[ws0 cap0] cl0]|]; [|now apply Hhere].
    inversion H; subst ws cap cl; clear H.
    destruct (IH _ _ _ eq_refl) as (Hws0 & ws' & rest & -> & Hws' & ->).
    split.
    + unfold all_ws; cbn [list_ascii_of_string forallb]. now rewrite W.
    + now exists ws', rest.
Qed.

Lemma after_open_closed (s : string) :
  (exists r, capture s = Some r) -> exists r, after_open s = Some r.
Proof.
  intros [[cap cl] H]. destruct s as [|c s]; cbn [after_open]; rewrite H.
  - eauto.
  - destruct (is_ws c); [|eauto].
    destruct (after_open s) as [[[ws0 cap0] cl0]|]; eauto.
Qed.

Lemma match_fenced_Some (text : string) (m : matched) :
  match_fenced text = Some m ->
  exists pre o ws cap ws' post,
    is_fence_open o = true /\ all_ws ws = true /\ all_ws ws' = true /\
    whole m = o ++ ws ++ cap ++ ws' ++ "```" /\ group1 m = Some cap /\
    text = pre ++ whole m ++ post.
Proof.
  assert (Hat : forall s, fenced_at s = Some m ->
            exists o ws cap ws' post,
              is_fence_open o = true /\ all_ws ws = true /\ all_ws ws' = true /\
              whole m = o ++ ws ++ cap ++ ws' ++ "```" /\ group1 m = Some cap /\
              s = whole m ++ post).
  { intros s H. unfold fenced_at in H.
    destruct (fence_open s) as [[o rest]|] eqn:Eo; [|discriminate].
    destruct (after_open rest) as [[[ws cap] cl]|] eqn:Ea; [|discriminate].
    inversion H; subst m; clear H. cbn [whole group1].
    destruct (fence_open_Some _ _ _ Eo) as [-> Ho].
    destruct (after_open_Some _ _ _ _ Ea) as (Hws & ws' & post & -> & Hws' & ->).
    exists o, ws, cap, ws', post. repeat split; trivial.
    now rewrite !append_assoc. }
  induction text as [|c text IH]; intros H; cbn [match_fenced] in H.
  - destruct (fenced_at "") eqn:E; [|discriminate]. inversion H; subst m0.
    destruct (Hat _ E) as (o & ws & cap & ws' & post & H1 & H2 & H3 & H4 & H5 & H6).
    exists "", o, ws, cap, ws', post. now repeat split.
  - destruct (fenced_at (String c text)) eqn:E.
    + inversion H; subst m0.
      destruct (Hat _ E) as (o & ws & cap & ws' & post & H1 & H2 & H3 & H4 & H5 & H6).
      exists "", o, ws, cap, ws', post. now repeat split.
    + destruct (IH H) as (pre & o & ws & cap & ws' & post
                          & H1 & H2 & H3 & H4 & H5 & ->).
      exists (String c pre), o, ws, cap, ws', post. now repeat split.
Qed.

Lemma match_fenced_closed (pre o mid post : string) :
  is_fence_open o = true ->
  exists m, match_fenced (pre ++ o ++ mid ++ "```" ++ post) = Some m.
Proof.
  intros Ho.
  assert (Hat : exists m, fenced_at (o ++ mid ++ "```" ++ post) = Some m).
  { unfold fenced_at. rewrite (fence_open_app _ _ Ho).
    destruct (after_open_closed _ (capture_closed mid post))
      as [[[ws cap] cl] ->]. eauto. }
  set (block := o ++ mid ++ "```" ++ post) in *.
  induction pre as [|c pre IH].
  - destruct Hat as [m Hm]. exists m. cbn [append].
    destruct block; cbn [match_fenced]; now rewrite Hm.
  - cbn [append match_fenced].
    destruct (fenced_at (String c (pre ++ block))); eauto.
Qed.

(** The first expression matches exactly the replies that hold a fenced
    block. *)
Lemma match_fenced_iff (text : string) :
  (exists m, match_fenced text = Some m) <-> has_fenced_block text.
Proof.
  split.
  - intros [m H].
    destruct (match_fenced_Some _ _ H)
      as (pre & o & ws & cap & ws' & post & Ho & _ & _ & Hw & _ & ->).
    exists pre, o, (ws ++ cap ++ ws'), post. split; [exact Ho|].
    rewrite Hw. now rewrite !append_assoc.
  - intros (pre & o & mid & post & Ho & ->). now apply match_fenced_closed.
Qed.

End LocateSpec.

(* ================================================================== *)
(** ** Text extraction *)

Module ExtractSpec.
Import Str MNotation Extract.
Local Open Scope nat_scope.

(** How the gate settles, as the outcome of the promise. *)
Definition gated (text message : string) : res string :=
  if 50 <? String.length (trim text) then Ok (trim text)
  else Throw (Error message).

(** The same file, declared a PDF. *)
Definition as_pdf (file : File) : File :=
  {| name := name file; type := application_pdf; bytes := bytes file |}.

Section WithHost.
Context `{host : Host}.

Lemma pdf_branch (file : File) (data : string) :
  type file = application_pdf -> bytes file = Some data ->
  extractTextFromFile file =
  match documentText data with
  | (l, Ok text) =>
      (host_call "readAsArrayBuffer" :: l, gated text pdf_unreadable_message)
  | (l, Throw err) =>
      (host_call "readAsArrayBuffer" :: l
         ++ [console_error_exn "PDF parsing error:" err],
       Throw (Error pdf_parse_message))
  end.
Proof.
  intros Ht Hb. unfold extractTextFromFile. rewrite Ht, Hb.
  change (String.eqb application_pdf text_plain) with false.
  change (String.eqb application_pdf application_pdf) with true.
  cbv iota.
  unfold await, try_catch, bind, emit, ret, throw, gated, gate.
  destruct (documentText data) as [l [text|err]].
  - destruct (50 <? String.length (trim text)); cbn;
      now rewrite !app_nil_r.
  - cbn. now rewrite !app_nil_r.
Qed.

Lemma fallback_branch (file : File) (data : string) :
  type file <> text_plain -> type file <> application_pdf ->
  type file <> application_msword -> type file <> application_docx ->
  bytes file = Some data ->
  extractTextFromFile file =
  match documentText data with
  | (l, Ok text) =>
      (host_call "readAsArrayBuffer" :: l, gated text file_unreadable_message)
  | (l, Throw err) =>
      (host_call "readAsArrayBuffer" :: l, Throw (Error unsupported_message))
  end.
Proof.
  intros H1 H2 H3 H4 Hb. unfold extractTextFromFile.
  apply String.eqb_neq in H1, H2, H3, H4.
  rewrite H1, H2, H3, H4, Hb. cbv iota. cbn [orb].
  unfold await, try_catch, bind, emit, ret, throw, gated, gate.
  destruct (documentText data) as [l [text|err]].
  - destruct (50 <? String.length (trim text)); cbn;
      now rewrite !app_nil_r.
  - cbn. now rewrite !app_nil_r.
Qed.

Lemma fallback_unreadable (file : File) :
  type file <> text_plain -> type file <> application_pdf ->
  type file <> application_msword -> type file <> application_docx ->
  bytes file = None ->
  extractTextFromFile file =
    ([host_call "readAsArrayBuffer"], Throw (Error "Failed to read file")).
Proof.
  intros H1 H2 H3 H4 Hb. unfold extractTextFromFile.
  apply String.eqb_neq in H1, H2, H3, H4.
  rewrite H1, H2, H3, H4, Hb. reflexivity.
Qed.

Lemma gated_Ok (text message t : string) :
  gated text message = Ok t -> t = trim text /\ 50 < String.length t.
Proof.
  unfold gated. destruct (50 <? String.length (trim text)) eqn:E;
    intros H; inversion H; subst.
  split; [reflexivity | now apply Nat.ltb_lt].
Qed.

(** C6, as amended.  A PDF is extracted with success exactly when the
    text of its pages, trimmed, is longer than 50 characters: what is
    returned is that trimmed text, so never one of 50 characters or
    fewer, and a PDF that parses to a text of 50 characters or fewer
    is refused with the message that no readable text was found. *)
Theorem pdf_succeeds_iff_longer_than_50 (file : File) :
  type file = application_pdf ->
  (forall t, snd (extractTextFromFile file) = Ok t ->
     50 < String.length t /\
     exists data l text,
       bytes file = Some data /\ documentText data = (l, Ok text) /\
       t = trim text)
  /\ (forall data l text,
      bytes file = Some data -> documentText data = (l, Ok text) ->
      snd (extractTextFromFile file) =
        if 50 <? String.length (trim text) then Ok (trim text)
        else Throw (Error pdf_unreadable_message)).
Proof.
  intros Ht. split.
  - intros t H. destruct (bytes file) as [data|] eqn:Hb.
    + rewrite (pdf_branch _ _ Ht Hb) in H.
      destruct (documentText data) as [l [text|err]] eqn:Hd;
        cbn [snd] in H; [|discriminate].
      apply gated_Ok in H. destruct H as [-> Hlen].
      split; [exact Hlen|]. now exists data, l, text.
    + unfold extractTextFromFile in H. rewrite Ht, Hb in H.
      discriminate H.
  - intros data l text Hb Hd. rewrite (pdf_branch _ _ Ht Hb), Hd.
    reflexivity.
Qed.

(** C8.  A file declared as either Word type is refused at once with
    the fixed message, whatever its bytes: nothing is read and nothing
    is parsed. *)
Theorem word_is_refused_at_once (file : File) :
  type file = application_msword \/ type file = application_docx ->
  extractTextFromFile file = ([], Throw (Error word_message)).
Proof.
  intros [Ht|Ht]; unfold extractTextFromFile; rewrite Ht; reflexivity.
Qed.

(** C7.  A file of any other declared type goes down the PDF path:
    its bytes are read and handed to the PDF parser, with the calls a
    PDF gets.  The text that comes out passes the same gate, more than
    50 characters once trimmed, so the file is extracted exactly when
    it would be if declared a PDF.  The error is the unsupported-type
    one exactly when the bytes were read and the parse failed. *)
Theorem other_types_take_the_pdf_path (file : File) :
  type file <> text_plain -> type file <> application_pdf ->
  type file <> application_msword -> type file <> application_docx ->
  (forall data, bytes file = Some data ->
     fst (extractTextFromFile file) =
       host_call "readAsArrayBuffer" :: fst (documentText data)
     /\ exists l, fst (documentText data) = host_call "getDocument" :: l)
  /\ (forall data l text,
      bytes file = Some data -> documentText data = (l, Ok text) ->
      snd (extractTextFromFile file) =
        if 50 <? String.length (trim text) then Ok (trim text)
        else Throw (Error file_unreadable_message))
  /\ (forall t, snd (extractTextFromFile file) = Ok t <->
                snd (extractTextFromFile (as_pdf file)) = Ok t)
  /\ (snd (extractTextFromFile file) = Throw (Error unsupported_message) <->
      exists data l e,
        bytes file = Some data /\ documentText data = (l, Throw e)).
Proof.
  intros H1 H2 H3 H4.
  split; [|split; [|split]].
  - intros data Hb. rewrite (fallback_branch _ _ H1 H2 H3 H4 Hb). split.
    + destruct (documentText data) as [l [text|err]]; reflexivity.
    + unfold documentText, bind, emit.
      destruct (match getDocument data with
                | Some pdf => pages pdf ""
                | None => throw (Thrown "getDocument rejected")
                end) as [l r].
      now exists l.
  - intros data l text Hb Hd.
    rewrite (fallback_branch _ _ H1 H2 H3 H4 Hb), Hd. reflexivity.
  - intros t. destruct (bytes file) as [data|] eqn:Hb.
    + rewrite (fallback_branch _ _ H1 H2 H3 H4 Hb).
      rewrite (pdf_branch (as_pdf file) data eq_refl Hb).
      destruct (documentText data) as [l [text|err]]; cbn [snd].
      * unfold gated. destruct (50 <? String.length (trim text));
          split; intros H; inversion H; reflexivity.
      * split; discriminate.
    + rewrite (fallback_unreadable _ H1 H2 H3 H4 Hb).
      unfold extractTextFromFile, as_pdf; cbn [type bytes]. rewrite Hb.
      split; discriminate.
  - destruct (bytes file) as [data|] eqn:Hb.
    + rewrite (fallback_branch _ _ H1 H2 H3 H4 Hb).
      destruct (documentText data) as [l [text|err]] eqn:Hd; cbn [snd].
      * split.
        -- unfold gated. destruct (50 <? String.length (trim text));
             discriminate.
        -- intros (d & l' & e & Hd' & He). inversion Hd'; subst d.
           rewrite Hd in He. discriminate He.
      * split; [|reflexivity]. intros _. now exists data, l, err.
    + rewrite (fallback_unreadable _ H1 H2 H3 H4 Hb). cbn [snd].
      split; [discriminate|]. intros (d & _ & _ & Hd & _). discriminate Hd.
Qed.

End WithHost.

End ExtractSpec.

Module ExtractExamples.
Import Str MNotation Extract ExtractSpec.
Local Open Scope nat_scope.

Definition fifty_one : string :=
  "Jane Doe - Software Engineer - Lisbon - jane@doe.pt".
Definition fifty : string :=
  "Jane Doe - Software Engineer - Porto - jane@doe.pt".

(** A host whose PDF parser knows two documents of one page each. *)
Definition reader : Host :=
  Scripted.host (Throw (Thrown "offline")) []
    [("%PDF-long", [Some ["Jane Doe"; "- Software Engineer - Lisbon -"; "jane@doe.pt"]]);
     ("%PDF-short", [Some [fifty]])].

Definition pdf (data : string) : File :=
  {| name := "resume.pdf"; type := application_pdf; bytes := Some data |}.

Lemma pdf_succeeds_iff_longer_than_50_witness :
  snd (@extractTextFromFile reader (pdf "%PDF-long")) = Ok fifty_one
  /\ String.length fifty_one = 51.
Proof.
  split; [|reflexivity].
  destruct (@pdf_succeeds_iff_longer_than_50 reader (pdf "%PDF-long") eq_refl)
    as [_ H].
  rewrite (H "%PDF-long" _ _ eq_refl ltac:(vm_compute; reflexivity)).
  vm_compute. reflexivity.
Defined.

(** C6 as stated: a PDF is extracted whenever its trimmed text is not
    shorter than 50 characters. *)
Definition extracted_unless_shorter_than_50 : Prop :=
  forall (host : Host) (file : File) (data : string) l text,
    type file = application_pdf ->
    bytes file = Some data ->
    documentText data = (l, Ok text) ->
    (String.length (trim text) <? 50) = false ->
    exists t, snd (extractTextFromFile file) = Ok t.

(** It fails on a PDF whose text has exactly 50 characters: not fewer
    than 50, and refused all the same. *)
Lemma extracted_unless_shorter_than_50_fails :
  ~ extracted_unless_shorter_than_50.
Proof.
  intros claim.
  destruct (claim reader (pdf "%PDF-short") "%PDF-short" _ _
              eq_refl eq_refl ltac:(vm_compute; reflexivity)
              ltac:(vm_compute; reflexivity)) as [t Ht].
  vm_compute in Ht. discriminate Ht.
Qed.

Definition doc : File :=
  {| name := "resume.doc"; type := application_msword;
     bytes := Some "%PDF-long" |}.

Lemma word_is_refused_at_once_witness :
  @extractTextFromFile reader doc = ([], Throw (Error word_message)).
Proof.
  apply (@word_is_refused_at_once reader doc). left. reflexivity.
Defined.

Definition untyped : File :=
  {| name := "resume"; type := ""; bytes := Some "%PDF-long" |}.

Lemma other_types_take_the_pdf_path_witness :
  snd (@extractTextFromFile reader untyped) = Ok fifty_one.
Proof.
  destruct (@other_types_take_the_pdf_path reader untyped
              ltac:(discriminate) ltac:(discriminate)
              ltac:(discriminate) ltac:(discriminate)) as (_ & H & _).
  rewrite (H "%PDF-long" _ _ eq_refl ltac:(vm_compute; reflexivity)).
  vm_compute. reflexivity.
Defined.

End ExtractExamples.

(* ================================================================== *)
(** ** The orchestration *)

Module AppSpec.
Import Str MNotation Storage App.

Section WithServices.
Context `{host : Host} `{backend : Backend}.



End WithServices.







End AppSpec.

(* ================================================================== *)
(** ** How the earlier version differs *)

Module LegacySpec.
Import Str Js MNotation Extract.

Section WithHost.
Context `{host : Host}.

(** The earlier service takes a payload for invalid as soon as its score
    is absent or zero. *)
Lemma zero_score_is_invalid (raw : json) :
  raw <> JNull ->
  get_opt (Some raw) "score" = None \/
  get_opt (Some raw) "score" = Some (JNum Num.zero) ->
  Legacy.validated raw =
    Throw (Error "Invalid response structure from Gemini API").
Proof.
  intros Hnn Hs. unfold Legacy.validated.
  rewrite !(MapFacts.get_nonnull raw) by assumption. unfold MapFacts.at1.
  cbn [rbind]. destruct Hs as [-> | ->]; reflexivity.
Qed.

(** And it refuses a file of any other declared type without reading it. *)
Lemma other_types_are_refused (file : File) :
  type file <> text_plain -> type file <> application_pdf ->
  type file <> application_msword -> type file <> application_docx ->
  Legacy.extractTextFromFile file = ([], Throw (Error unsupported_message)).
Proof.
  intros H1 H2 H3 H4. unfold Legacy.extractTextFromFile.
  apply String.eqb_neq in H1, H2, H3, H4.
  now rewrite H1, H2, H3, H4.
Qed.

(** On the Word types the two versions agree. *)
Lemma word_is_refused_alike (file : File) :
  type file = application_msword \/ type file = application_docx ->
  Legacy.extractTextFromFile file = extractTextFromFile file.
Proof.
  intros [Ht|Ht]; unfold Legacy.extractTextFromFile, extractTextFromFile;
    rewrite Ht; reflexivity.
Qed.

End WithHost.

End LegacySpec.

(* ================================================================== *)
(** ** The payload the prompt asks for *)

Module Examples.
Import Num Gemini.

(** The payload of the prompt's own example, as decoded. *)
Definition prompted : json :=
  JObj [("score", JNum (Fin 85));
        ("breakdown",
         JObj [("keywords", JNum (Fin 80)); ("formatting", JNum (Fin 90));
               ("experience", JNum (Fin 85)); ("skills", JNum (Fin 75));
               ("education", JNum (Fin 95))]);
        ("improvements",
         JObj [("critical", JArr [JStr "Add metrics"]);
               ("important", JArr []);
               ("suggested", JArr [])]);
        ("strengths", JArr [JStr "Clear history"])].

Example prompted_is_mapped :
  @fromRaw Scripted.idle prompted =
  Ok {| scores := {| overall := of_Z 85;
                     atsCompatibility := of_Z 90;
                     keywordOptimization := of_Z 80;
                     formatting := of_Z 90;
                     impact := of_Z 80 |};
        summary := "";
        strengths := ["Clear history"];
        improvements := ["Add metrics"];
        criticalIssues := ["Add metrics"];
        suggestions := [] |}.
Proof. vm_compute. reflexivity. Qed.

(** A score of 130 is brought down to 100, and one given as text is read. *)
Example overshoot_is_clamped :
  option_map (fun r => overall (scores r))
    (match @fromRaw Scripted.idle (JObj [("score", JNum (Fin 130))]) with
     | Ok r => Some r
     | Throw _ => None
     end) = Some (of_Z 100)
  /\ clamp (StringToNumber.StringToNumber " 72.5 ") = of_Z 73.
Proof. split; vm_compute; reflexivity. Qed.

(** A numeric string is read to the nearest double before it is rounded
    to an integer: these two decimals are below a half only as written. *)
Example long_decimals_are_read_as_doubles :
  StringToNumber.StringToNumber "0.49999999999999999" = Fin (1 # 2)
  /\ clamp (StringToNumber.StringToNumber "0.49999999999999999") = of_Z 1
  /\ clamp (StringToNumber.StringToNumber "72.49999999999999999") = of_Z 73
  /\ StringToNumber.StringToNumber "9007199254740993" = Fin 9007199254740992
  /\ StringToNumber.StringToNumber "1e400" = PInf.
Proof. repeat split; vm_compute; reflexivity. Qed.

(** [0.1 + 0.2] is [0.30000000000000004]. *)
Example sum_is_rounded :
  add (StringToNumber.StringToNumber "0.1") (StringToNumber.StringToNumber "0.2")
  = StringToNumber.StringToNumber "0.30000000000000004"
  /\ add (StringToNumber.StringToNumber "0.1") (StringToNumber.StringToNumber "0.2")
     <> StringToNumber.StringToNumber "0.3".
Proof. split; [vm_compute; reflexivity | vm_compute; discriminate]. Qed.

End Examples.

(* ================================================================== *)
(** * Further properties of the Gemini service *)

Module ServiceSpec.
Import Str Num Js MNotation NumFacts ClampFacts MapFacts Gemini Locate.

(** The four errors [analyzeResumeWithGemini] can end with. *)
Definition unavailable : exn :=
  Error "Gemini API is temporarily unavailable. Please try again later.".
Definition unparsed : exn :=
  Error "Failed to parse analysis results from Gemini. Try again.".
Definition invalid_key : exn :=
  Error "Invalid Gemini API key. Check configuration.".
Definition failed : exn :=
  Error "Failed to analyze resume. Please try again.".

Lemma rethrown_cases (e : exn) :
  rethrown e = unavailable \/ rethrown e = unparsed \/
  rethrown e = invalid_key \/ rethrown e = failed.
Proof.
  unfold rethrown. destruct (message_of e) as [m|]; [|tauto].
  destruct (includes m "Unavailable" || includes m "503")%bool; [tauto|].
  destruct (includes m "JSON" || includes m "parse")%bool; [tauto|].
  destruct (includes m "API key"); tauto.
Qed.

Section WithHost.
Context `{host : Host}.

Lemma normalize_Ok (text : string) (l : list event) (r : AnalysisResult) :
  normalize text = (l, Ok r) ->
  l = [] /\ exists m raw,
    jsonMatch text = Some m /\ JSON_parse (jsonText m) = Some raw /\
    fromRaw raw = Ok r.
Proof.
  unfold normalize. destruct (jsonMatch text) as [m|]; [|discriminate].
  destruct (JSON_parse (jsonText m)) as [raw|] eqn:Hp; [|discriminate].
  unfold lift. intros H. inversion H; subst l. split; [reflexivity|].
  now exists m, raw.
Qed.

(** However the call ends, it ends in one of five ways: with a result
    whose five scores are integers from 0 to 100, or with one of four
    fixed errors.  No other error, and no message of the model service or
    of the runtime, reaches the caller. *)
Theorem analyze_ends_in_five_ways (resumeText : string) :
  match snd (analyzeResumeWithGemini resumeText) with
  | Ok r =>
      is_score (overall (scores r)) /\ is_score (atsCompatibility (scores r)) /\
      is_score (keywordOptimization (scores r)) /\
      is_score (formatting (scores r)) /\ is_score (impact (scores r))
  | Throw e => e = unavailable \/ e = unparsed \/ e = invalid_key \/ e = failed
  end.
Proof.
  destruct (generateContent (ATS_ANALYSIS_PROMPT ++ resumeText)) as [text|e] eqn:Hg.
  - rewrite (analyze_reply _ _ Hg).
    destruct (normalize text) as [l [r|e]] eqn:Hn; cbn [snd].
    + apply normalize_Ok in Hn. destruct Hn as (_ & m & raw & _ & _ & Hr).
      apply fromRaw_Ok in Hr.
      destruct Hr as (_ & kw & fm & ex & sk & ed & _ & _ & _ & _ & _ & Hs & _).
      rewrite Hs; cbn [overall atsCompatibility keywordOptimization formatting impact].
      repeat split; apply clamp_is_score.
    + apply rethrown_cases.
  - unfold analyzeResumeWithGemini. rewrite Hg. cbn. apply rethrown_cases.
Qed.

(** When the model service fails, the code goes no further than the
    [catch] block: the error is written to the console once and
    classified by its message, a mention of unavailability or of 503
    winning over a mention of JSON, of parsing or of the API key, and a
    thrown value that is no [Error] getting the general message. *)
Theorem service_failure_is_classified (resumeText : string) (e : exn) :
  generateContent (ATS_ANALYSIS_PROMPT ++ resumeText) = Throw e ->
  analyzeResumeWithGemini resumeText =
    ([host_call "generateContent";
      console_error_exn "Error analyzing resume with Gemini:" e],
     Throw (rethrown e))
  /\ (forall m, message_of e = Some m ->
      includes m "503" = true \/ includes m "Unavailable" = true ->
      rethrown e = unavailable)
  /\ (forall m, message_of e = Some m ->
      includes m "503" = false -> includes m "Unavailable" = false ->
      includes m "JSON" = true \/ includes m "parse" = true ->
      rethrown e = unparsed)
  /\ (message_of e = None -> rethrown e = failed).
Proof.
  intros Hg. split; [|split; [|split]].
  - unfold analyzeResumeWithGemini. rewrite Hg. reflexivity.
  - intros m Hm H. unfold rethrown. rewrite Hm.
    destruct H as [-> | ->]; [now rewrite orb_true_r | reflexivity].
  - intros m Hm H1 H2 H. unfold rethrown. rewrite Hm, H1, H2. cbn [orb].
    destruct H as [-> | ->]; [reflexivity | now rewrite orb_true_r].
  - intros Hm. unfold rethrown. now rewrite Hm.
Qed.

(** A payload that is located and does not decode: the text that was
    handed to [JSON.parse] is written to the console, nothing is mapped,
    and the caller gets the parse error. *)
Theorem malformed_payload_is_reported (resumeText text : string) (m : matched) :
  generateContent (ATS_ANALYSIS_PROMPT ++ resumeText) = Ok text ->
  jsonMatch text = Some m ->
  JSON_parse (jsonText m) = None ->
  analyzeResumeWithGemini resumeText =
    ([host_call "generateContent";
      console_error "Failed to JSON.parse extracted text. Extracted text:"
        (jsonText m);
      console_error_exn "Error analyzing resume with Gemini:"
        (Error "Failed to parse JSON from Gemini response")],
     Throw unparsed).
Proof.
  intros Hg Hm Hp. rewrite (analyze_reply _ _ Hg).
  unfold normalize. rewrite Hm, Hp. reflexivity.
Qed.

(** A result is returned exactly when the model replied, a payload was
    located in the reply, it decoded, and lines 90-159 returned on the
    decoded value; nothing is then written to the console. *)
Theorem result_iff_payload_mapped (resumeText : string) (r : AnalysisResult) :
  (snd (analyzeResumeWithGemini resumeText) = Ok r <->
   exists text m raw,
     generateContent (ATS_ANALYSIS_PROMPT ++ resumeText) = Ok text /\
     jsonMatch text = Some m /\
     JSON_parse (jsonText m) = Some raw /\
     fromRaw raw = Ok r)
  /\ (snd (analyzeResumeWithGemini resumeText) = Ok r ->
      fst (analyzeResumeWithGemini resumeText) = [host_call "generateContent"]).
Proof.
  destruct (generateContent (ATS_ANALYSIS_PROMPT ++ resumeText)) as [text|e] eqn:Hg.
  - rewrite (analyze_reply _ _ Hg).
    destruct (normalize text) as [l [a|e]] eqn:Hn; cbn [snd fst].
    + destruct (normalize_Ok _ _ _ Hn) as (-> & m & raw & Hm & Hp & Hr).
      split; [split|reflexivity].
      * intros H; inversion H; subst a. now exists text, m, raw.
      * intros (text' & m' & raw' & Ht & Hm' & Hp' & Hr').
        inversion Ht; subst text'. rewrite Hm in Hm'. inversion Hm'; subst m'.
        rewrite Hp in Hp'. inversion Hp'; subst raw'.
        rewrite Hr in Hr'. exact Hr'.
    + split; [split|discriminate]; [discriminate|].
      intros (text' & m' & raw' & Ht & Hm' & Hp' & Hr').
      inversion Ht; subst text'. unfold normalize in Hn.
      rewrite Hm', Hp', Hr' in Hn. discriminate Hn.
  - unfold analyzeResumeWithGemini. rewrite Hg. cbn [snd fst].
    split; [split|]; try discriminate.
    intros (text' & _ & _ & Ht & _). discriminate Ht.
Qed.

End WithHost.

Definition outage : Host :=
  Scripted.host (Throw (Error "[503 Service Unavailable] invalid JSON body")) [] [].

Lemma service_failure_is_classified_witness :
  snd (@analyzeResumeWithGemini outage "resume") = Throw unavailable.
Proof.
  destruct (@service_failure_is_classified outage "resume" _ eq_refl)
    as (H & Hu & _).
  rewrite H. cbn [snd].
  rewrite (Hu _ eq_refl); [reflexivity | left; vm_compute; reflexivity].
Defined.

Definition prose_in_fence : string :=
  "```json" ++ nl ++ "Sorry, no analysis." ++ nl ++ "```".

Definition chatty : Host := Scripted.host (Ok prose_in_fence) [] [].

Lemma malformed_payload_is_reported_witness :
  snd (@analyzeResumeWithGemini chatty "resume") = Throw unparsed.
Proof.
  rewrite (@malformed_payload_is_reported chatty "resume" prose_in_fence
             {| whole := prose_in_fence; group1 := Some "Sorry, no analysis." |}
             eq_refl ltac:(vm_compute; reflexivity) eq_refl).
  reflexivity.
Defined.

Definition empty_object : string := "Here you go: {} - enjoy".

Definition terse : Host := Scripted.host (Ok empty_object) [("{}", JObj [])] [].

(** The result with nothing in it. *)
Definition blank : AnalysisResult :=
  {| scores := {| overall := of_Z 0; atsCompatibility := of_Z 0;
                  keywordOptimization := of_Z 0; formatting := of_Z 0;
                  impact := of_Z 0 |};
     summary := ""; strengths := []; improvements := [];
     criticalIssues := []; suggestions := [] |}.

Lemma result_iff_payload_mapped_witness :
  snd (@analyzeResumeWithGemini terse "resume") = Ok blank /\
  fst (@analyzeResumeWithGemini terse "resume") = [host_call "generateContent"].
Proof.
  pose proof (@result_iff_payload_mapped terse "resume" blank) as [[_ H] Hq].
  assert (Hr : snd (@analyzeResumeWithGemini terse "resume") = Ok blank).
  { apply H. exists empty_object, {| whole := "{}"; group1 := None |}, (JObj []).
    repeat split; vm_compute; reflexivity. }
  split; [exact Hr | exact (Hq Hr)].
Defined.

End ServiceSpec.

(* ================================================================== *)
(** ** Trimming *)

Module TrimFacts.
Import Str.

Lemma trimEnd_idem (s : string) : trimEnd (trimEnd s) = trimEnd s.
Proof.
  induction s as [|c s IH]; [reflexivity|].
  cbn [trimEnd]. destruct (trimEnd s) as [|d t] eqn:E.
  - destruct (is_ws c) eqn:W; [reflexivity|].
    cbn [trimEnd]. now rewrite W.
  - cbn [trimEnd]. cbn [trimEnd] in IH.
    destruct (trimEnd t) as [|d' t'] eqn:Et.
    + destruct (is_ws d) eqn:Wd; [discriminate IH|].
      inversion IH; subst t; reflexivity.
    + now rewrite IH.
Qed.

(** A text that does not start with white space: empty, or with a first
    character that is none. *)
Definition starts_clean (s : string) : bool :=
  match s with
  | EmptyString => true
  | String c _ => negb (is_ws c)
  end.

Lemma trimStart_clean (s : string) : starts_clean (trimStart s) = true.
Proof.
  induction s as [|c s IH]; [reflexivity|].
  cbn [trimStart]. destruct (is_ws c) eqn:W; [exact IH|].
  cbn [starts_clean]. now rewrite W.
Qed.

Lemma trimStart_of_clean (s : string) :
  starts_clean s = true -> trimStart s = s.
Proof.
  destruct s as [|c s]; [reflexivity|]. cbn [starts_clean trimStart].
  destruct (is_ws c); [discriminate | reflexivity].
Qed.

Lemma trimEnd_keeps_clean (s : string) :
  starts_clean s = true -> starts_clean (trimEnd s) = true.
Proof.
  destruct s as [|c s]; [reflexivity|]. cbn [starts_clean trimEnd].
  intros W. destruct (trimEnd s); [|exact W].
  destruct (is_ws c) eqn:Wc; [discriminate W|].
  cbn [starts_clean]. now rewrite Wc.
Qed.

(** [s.trim().trim()] is [s.trim()]. *)
Lemma trim_idem (s : string) : trim (trim s) = trim s.
Proof.
  unfold trim.
  rewrite (trimStart_of_clean (trimEnd (trimStart s))).
  - apply trimEnd_idem.
  - apply trimEnd_keeps_clean, trimStart_clean.
Qed.

Lemma trim_of_clean (s : string) :
  starts_clean s = true -> trimEnd s = s -> trim s = s.
Proof. intros H1 H2. unfold trim. now rewrite (trimStart_of_clean _ H1). Qed.

End TrimFacts.

(* ================================================================== *)
(** ** What a fenced block hands to the decoder *)

Module FenceSpec.
Import Str Locate LocateSpec TrimFacts.

Lemma capture_empty (s cl : string) :
  capture s = Some (EmptyString, cl) -> fence_close s = Some cl.
Proof.
  destruct s as [|c s]; cbn [capture].
  - destruct (fence_close ""); intros H; now inversion H.
  - destruct (fence_close (String c s)); [intros H; now inversion H|].
    destruct (capture s) as [[cap' cl']|]; intros H; inversion H.
Qed.

Lemma capture_trimEnd (s cap cl : string) :
  capture s = Some (cap, cl) -> trimEnd cap = cap.
Proof.
  revert cap cl; induction s as [|c s IH]; intros cap cl H; cbn [capture] in H.
  - destruct (fence_close ""); inversion H; reflexivity.
  - destruct (fence_close (String c s)) as [t|] eqn:E;
      [inversion H; reflexivity|].
    destruct (capture s) as [[cap' cl']|] eqn:Ec; [|discriminate].
    inversion H; subst cap cl; clear H.
    cbn [trimEnd]. rewrite (IH _ _ eq_refl).
    destruct cap' as [|d cap']; [|reflexivity].
    apply capture_empty in Ec.
    cbn [fence_close] in E. rewrite Ec in E.
    destruct (is_ws c); [discriminate E | reflexivity].
Qed.

Lemma capture_clean_head (c : ascii) (s cap cl : string) :
  capture (String c s) = Some (cap, cl) ->
  is_ws c = false \/ capture s = None ->
  starts_clean cap = true.
Proof.
  cbn [capture]. intros H Hc.
  destruct (fence_close (String c s)); [inversion H; reflexivity|].
  destruct (capture s) as [[cap' cl']|]; [|discriminate].
  inversion H; subst cap cl. cbn [starts_clean].
  destruct Hc as [-> | Hc]; [reflexivity | discriminate Hc].
Qed.

Lemma after_open_clean (s ws cap cl : string) :
  after_open s = Some (ws, cap, cl) -> starts_clean cap = true.
Proof.
  revert ws cap cl; induction s as [|c s IH]; intros ws cap cl H.
  - cbn in H. discriminate H.
  - cbn [after_open] in H.
    destruct (is_ws c) eqn:W.
    + destruct (after_open s) as [[[ws0 cap0] cl0]|] eqn:Ea.
      * inversion H; subst. now apply (IH _ _ _ eq_refl).
      * destruct (capture (String c s)) as [[cap' cl']|] eqn:Ec; [|discriminate].
        inversion H; subst. apply (capture_clean_head _ _ _ _ Ec). right.
        destruct (capture s) as [r|] eqn:Es; [|reflexivity].
        destruct (after_open_closed s) as [r' Hr']; [now exists r|].
        rewrite Hr' in Ea. discriminate Ea.
    + destruct (capture (String c s)) as [[cap' cl']|] eqn:Ec; [|discriminate].
      inversion H; subst. apply (capture_clean_head _ _ _ _ Ec). now left.
Qed.

Lemma after_open_trimEnd (s ws cap cl : string) :
  after_open s = Some (ws, cap, cl) -> trimEnd cap = cap.
Proof.
  revert ws cap cl; induction s as [|c s IH]; intros ws cap cl H.
  - cbn in H. discriminate H.
  - cbn [after_open] in H.
    assert (Hhere : match capture (String c s) with
                    | Some (cap, closing) => Some (EmptyString, cap, closing)
                    | None => None
                    end = Some (ws, cap, cl) -> trimEnd cap = cap).
    { destruct (capture (String c s)) as [[cap' cl']|] eqn:Ec; [|discriminate].
      intros H'; inversion H'; subst. now apply (capture_trimEnd _ _ _ Ec). }
    destruct (is_ws c); [|now apply Hhere].
    destruct (after_open s) as [[[ws0 cap0] cl0]|] eqn:Ea; [|now apply Hhere].
    inversion H; subst. now apply (IH _ _ _ eq_refl).
Qed.

Lemma fenced_at_trimmed (s : string) (m : matched) :
  fenced_at s = Some m -> exists cap, group1 m = Some cap /\ trim cap = cap.
Proof.
  unfold fenced_at. destruct (fence_open s) as [[o rest]|]; [|discriminate].
  destruct (after_open rest) as [[[ws cap] cl]|] eqn:Ea; [|discriminate].
  intros H; inversion H; subst m; clear H. exists cap. split; [reflexivity|].
  apply trim_of_clean.
  - now apply (after_open_clean _ _ _ _ Ea).
  - now apply (after_open_trimEnd _ _ _ _ Ea).
Qed.

(** The text a fenced block gives is already trimmed: the expression
    leaves the white space around it outside the group.  So what is handed
    to [JSON.parse] is the trimmed content of the block, or, when the
    block is empty, the whole block with its fences. *)
Theorem fenced_payload_is_trimmed (text : string) (m : matched) :
  match_fenced text = Some m ->
  exists cap,
    group1 m = Some cap /\ trim cap = cap /\
    (cap <> EmptyString -> jsonText m = cap) /\
    (cap = EmptyString -> jsonText m = whole m /\
                          exists rest, whole m = "```" ++ rest).
Proof.
  intros H.
  assert (Hat : exists s, fenced_at s = Some m).
  { revert H. induction text as [|c text IH]; cbn [match_fenced].
    - destruct (fenced_at "") eqn:E; [|discriminate].
      intros H; inversion H; subst. eauto.
    - destruct (fenced_at (String c text)) eqn:E.
      + intros H; inversion H; subst. eauto.
      + exact IH. }
  destruct Hat as [s Hs].
  destruct (fenced_at_trimmed _ _ Hs) as (cap & Hg & Ht).
  exists cap. split; [exact Hg|]. split; [exact Ht|]. split.
  - intros Hne. unfold jsonText. rewrite Hg.
    destruct cap; [now elim Hne | reflexivity].
  - intros ->. unfold jsonText. rewrite Hg. split; [reflexivity|].
    unfold fenced_at in Hs.
    destruct (fence_open s) as [[o rest]|] eqn:Eo; [|discriminate].
    destruct (after_open rest) as [[[ws cap] cl]|]; [|discriminate].
    inversion Hs; subst m; cbn [whole].
    unfold fence_open in Eo.
    destruct (strip_prefix "```" s) as [r|]; [|discriminate].
    destruct r as [|j [|s_ [|o' [|n r]]]]; try discriminate.
    destruct (eq_ci j "j" && eq_ci s_ "s" && eq_ci o' "o" && eq_ci n "n")%bool;
      [|discriminate].
    inversion Eo; subst o. cbn [append]. eauto.
Qed.

Definition padded : string :=
  "Result:  ```JSON   " ++ Gemini.nl ++ "  [1, 2]  " ++ Gemini.nl ++ " ``` done".

Lemma fenced_payload_is_trimmed_witness :
  option_map jsonText (match_fenced padded) = Some "[1, 2]".
Proof.
  destruct (match_fenced padded) as [m|] eqn:E; [|vm_compute in E; discriminate E].
  destruct (fenced_payload_is_trimmed padded m E) as (cap & Hg & _ & Hne & _).
  vm_compute in E. inversion E; subst m. cbn [group1] in Hg.
  inversion Hg; subst cap. cbn [option_map].
  rewrite Hne by discriminate. reflexivity.
Defined.

End FenceSpec.

(* ================================================================== *)
(** ** Which text is located *)

Module PayloadSpec.
Import Str Js MNotation MapFacts Gemini Locate LocateSpec TrimFacts FenceSpec.
Local Open Scope nat_scope.

Lemma substring_all (s : string) : substring 0 (length s) s = s.
Proof. induction s as [|c s IH]; [reflexivity|]. cbn. now rewrite IH. Qed.

Lemma from_0 (s : string) : from 0 s = s.
Proof. unfold from. rewrite Nat.sub_0_r. apply substring_all. Qed.

Lemma from_S (n : nat) (c : ascii) (s : string) :
  from (S n) (String c s) = from n s.
Proof. reflexivity. Qed.

Lemma from_nil (n : nat) : from n "" = "".
Proof. destruct n; reflexivity. Qed.

Lemma fence_open_spec (s : string) :
  fence_open s =
  if prefix "```json" (lowercase s)
  then Some (substring 0 7 s, from 7 s) else None.
Proof.
  unfold fence_open.
  destruct s as [|a1 [|a2 [|a3 [|a4 [|a5 [|a6 [|a7 r]]]]]]];
    cbn [lowercase]; rewrite ?prefix_cons, ?lower_tick, ?lower_j, ?lower_s,
      ?lower_o, ?lower_n;
    cbn [strip_prefix prefix];
    repeat match goal with
           | |- context [Ascii.eqb "`" ?a] =>
               destruct (Ascii.eqb_spec "`" a); [subst a|]; cbn [andb]
           end;
    rewrite ?andb_false_r; try reflexivity.
  rewrite !from_S, from_0. cbn [substring]. rewrite substring_0_0.
  replace (prefix "" (lowercase r)) with true
    by (destruct (lowercase r); reflexivity).
  destruct (eq_ci a4 "j"), (eq_ci a5 "s"), (eq_ci a6 "o"), (eq_ci a7 "n");
    reflexivity.
Qed.

Lemma length_app (a b : string) : length (a ++ b) = length a + length b.
Proof. induction a as [|c a IH]; cbn; [reflexivity | now rewrite IH]. Qed.

Lemma substring_app (a b : string) : substring 0 (length a) (a ++ b) = a.
Proof.
  induction a as [|c a IH]; cbn; [apply substring_0_0 | now rewrite IH].
Qed.

Lemma prefix_app (p s : string) : prefix p (p ++ s) = true.
Proof. rewrite prefix_strip. now rewrite strip_prefix_app. Qed.

Lemma prefix_true (p s : string) :
  prefix p s = true -> exists r, s = p ++ r.
Proof.
  rewrite prefix_strip. destruct (strip_prefix p s) as [r|] eqn:E; [|discriminate].
  intros _. exists r. now apply strip_prefix_Some.
Qed.

Lemma find_here (sub s : string) : prefix sub s = true -> find sub s = Some 0.
Proof. intros H. destruct s; cbn [find]; now rewrite H. Qed.

Lemma find_app (sub a b : string) : find sub (a ++ sub ++ b) <> None.
Proof.
  induction a as [|c a IH].
  - cbn [append]. rewrite find_here by exact (prefix_app sub b). discriminate.
  - cbn [append find]. destruct (prefix sub _); [discriminate|].
    destruct (find sub (a ++ sub ++ b)); [discriminate | now elim IH].
Qed.

Lemma find_Some (sub s : string) (j : nat) :
  find sub s = Some j -> exists a b, s = a ++ sub ++ b /\ length a = j.
Proof.
  revert j; induction s as [|c s IH]; intros j H; cbn [find] in H.
  - destruct (prefix sub "") eqn:E; [|discriminate].
    inversion H; subst j. destruct (prefix_true _ _ E) as [r ->]. now exists "", r.
  - destruct (prefix sub (String c s)) eqn:E.
    + inversion H; subst j. destruct (prefix_true _ _ E) as [r ->]. now exists "", r.
    + destruct (find sub s) as [j'|]; [|discriminate].
      inversion H; subst j. destruct (IH _ eq_refl) as (a & b & -> & <-).
      now exists (String c a), b.
Qed.

Lemma find_tail (sub : string) (c : ascii) (s : string) :
  find sub (String c s) = None -> find sub s = None.
Proof.
  cbn [find]. destruct (prefix sub (String c s)); [discriminate|].
  destruct (find sub s); [discriminate | reflexivity].
Qed.

Lemma find_from_S (sub s : string) (n : nat) :
  find sub (from n s) = None -> find sub (from (S n) s) = None.
Proof.
  revert n; induction s as [|c s IH]; intros n H.
  - now rewrite from_nil in *.
  - rewrite from_S. destruct n as [|n].
    + rewrite from_0 in *. now apply find_tail in H.
    + rewrite from_S in H. now apply IH.
Qed.

Lemma find_from_le (sub s : string) (n m : nat) :
  n <= m -> find sub (from n s) = None -> find sub (from m s) = None.
Proof.
  induction 1 as [|m Hle IH]; [trivial|].
  intros H. now apply find_from_S, IH.
Qed.

Lemma ws_not_tick (c : ascii) : is_ws c = true -> Ascii.eqb "`" c = false.
Proof.
  intros H. destruct (Ascii.eqb_spec "`" c) as [<-|]; [discriminate H | reflexivity].
Qed.

Lemma find_ws (ws r : string) :
  all_ws ws = true -> find "```" (ws ++ "```" ++ r) = Some (length ws).
Proof.
  set (tail := "```" ++ r).
  induction ws as [|c ws IH]; intros H.
  - apply find_here. exact (prefix_app "```" r).
  - unfold all_ws in H. cbn [list_ascii_of_string forallb] in H.
    apply andb_true_iff in H. destruct H as [Hc Hws].
    cbn [append find]. rewrite prefix_cons, (ws_not_tick _ Hc). cbn [andb].
    rewrite (IH Hws). reflexivity.
Qed.

Lemma all_ws_app (a b : string) :
  all_ws a = true -> all_ws b = true -> all_ws (a ++ b) = true.
Proof.
  unfold all_ws. induction a as [|c a IH]; cbn [append list_ascii_of_string forallb];
    [trivial|].
  intros H Hb. apply andb_true_iff in H. destruct H as [-> Ha]. now apply IH.
Qed.

(** The capture ends where the first closing fence, with the white space
    before it, begins. *)
Lemma capture_find (s cap cl : string) :
  capture s = Some (cap, cl) ->
  exists ws' r,
    cl = ws' ++ "```" /\ all_ws ws' = true /\
    s = cap ++ ws' ++ "```" ++ r /\
    find "```" s = Some (length (cap ++ ws')).
Proof.
  revert cap cl; induction s as [|c s IH]; intros cap cl H; cbn [capture] in H.
  - discriminate H.
  - destruct (fence_close (String c s)) as [t|] eqn:E.
    + inversion H; subst cap cl; clear H.
      destruct (fence_close_Some _ _ E) as (ws & rest & -> & Hws & Hs).
      exists ws, rest. rewrite Hs, append_assoc. cbn [append].
      repeat split; trivial. now apply find_ws.
    + destruct (capture s) as [[cap' cl']|]; [|discriminate].
      inversion H; subst cap cl; clear H.
      destruct (IH _ _ eq_refl) as (ws' & r & -> & Hws & Hs & Hf).
      exists ws', r. repeat split; trivial.
      * rewrite Hs at 1. reflexivity.
      * cbn [find]. rewrite prefix_strip.
        destruct (strip_prefix "```" (String c s)) as [x|] eqn:Ex.
        -- destruct (fence_close_here _ _ Ex) as [t Ht]. rewrite Ht in E.
           discriminate E.
        -- rewrite Hf. reflexivity.
Qed.

Lemma after_open_find (s ws cap cl : string) :
  after_open s = Some (ws, cap, cl) ->
  exists ws' r,
    cl = ws' ++ "```" /\ all_ws ws = true /\ all_ws ws' = true /\
    s = ws ++ cap ++ ws' ++ "```" ++ r /\
    find "```" s = Some (length (ws ++ cap ++ ws')).
Proof.
  assert (Hhere : forall s ws cap cl,
            match capture s with
            | Some (cap, closing) => Some (EmptyString, cap, closing)
            | None => None
            end = Some (ws, cap, cl) ->
            exists ws' r,
              cl = ws' ++ "```" /\ all_ws ws = true /\ all_ws ws' = true /\
              s = ws ++ cap ++ ws' ++ "```" ++ r /\
              find "```" s = Some (length (ws ++ cap ++ ws'))).
  { clear. intros s ws cap cl H.
    destruct (capture s) as [[cap' cl']|] eqn:E; [|discriminate].
    inversion H; subst ws cap cl; clear H.
    destruct (capture_find _ _ _ E) as (ws' & r & -> & Hws & Hs & Hf).
    exists ws', r. now repeat split. }
  revert ws cap cl; induction s as [|c s IH]; intros ws cap cl H.
  - now apply Hhere.
  - cbn [after_open] in H.
    destruct (is_ws c) eqn:W; [|now apply Hhere].
    destruct (after_open s) as [[[ws0 cap0] cl0]|]; [|now apply Hhere].
    inversion H; subst ws cap cl; clear H.
    destruct (IH _ _ _ eq_refl) as (ws' & r & -> & Hws0 & Hws' & Hs & Hf).
    exists ws', r. repeat split; trivial.
    + unfold all_ws; cbn [list_ascii_of_string forallb]. now rewrite W.
    + rewrite Hs at 1. reflexivity.
    + cbn [find]. rewrite prefix_cons, (ws_not_tick _ W). cbn [andb].
      rewrite Hf. reflexivity.
Qed.

Lemma after_open_None (s : string) :
  after_open s = None <-> find "```" s = None.
Proof.
  split; intros H.
  - destruct (find "```" s) as [j|] eqn:E; [|reflexivity].
    destruct (find_Some _ _ _ E) as (a & b & -> & _).
    destruct (after_open_closed _ (capture_closed a b)) as [r Hr].
    rewrite Hr in H. discriminate H.
  - destruct (after_open s) as [[[ws cap] cl]|] eqn:E; [|reflexivity].
    destruct (after_open_find _ _ _ _ E) as (ws' & r & _ & _ & _ & _ & Hf).
    rewrite Hf in H. discriminate H.
Qed.

(** *** Trimming a text with white space around it *)

Lemma trimStart_ws (ws s : string) :
  all_ws ws = true -> trimStart (ws ++ s) = trimStart s.
Proof.
  unfold all_ws. induction ws as [|c ws IH];
    cbn [append list_ascii_of_string forallb trimStart]; [trivial|].
  intros H. apply andb_true_iff in H. destruct H as [-> Hws]. now apply IH.
Qed.

Lemma trimStart_all_ws (ws : string) : all_ws ws = true -> trimStart ws = "".
Proof.
  unfold all_ws. induction ws as [|c ws IH];
    cbn [list_ascii_of_string forallb trimStart]; [trivial|].
  intros H. apply andb_true_iff in H. destruct H as [-> Hws]. now apply IH.
Qed.

Lemma trimEnd_all_ws (ws : string) : all_ws ws = true -> trimEnd ws = "".
Proof.
  unfold all_ws. induction ws as [|c ws IH];
    cbn [list_ascii_of_string forallb trimEnd]; [trivial|].
  intros H. apply andb_true_iff in H. destruct H as [-> Hws].
  now rewrite (IH Hws).
Qed.

Lemma trimEnd_ws (s ws : string) :
  all_ws ws = true -> trimEnd (s ++ ws) = trimEnd s.
Proof.
  intros H. induction s as [|c s IH]; cbn [append trimEnd].
  - now apply trimEnd_all_ws.
  - now rewrite IH.
Qed.

Lemma trim_padded (ws cap ws' : string) :
  all_ws ws = true -> all_ws ws' = true ->
  starts_clean cap = true -> trimEnd cap = cap ->
  trim (ws ++ cap ++ ws') = cap.
Proof.
  intros Hws Hws' Hc He. unfold trim. rewrite (trimStart_ws _ _ Hws).
  destruct cap as [|c cap].
  - cbn [append]. now rewrite (trimStart_all_ws _ Hws').
  - cbn [starts_clean] in Hc. cbn [append trimStart].
    destruct (is_ws c); [discriminate Hc|].
    change (String c (cap ++ ws')) with (String c cap ++ ws').
    now rewrite (trimEnd_ws _ _ Hws').
Qed.

(** *** The first expression, at one position and over the text *)

Lemma fence_open_parts (s o rest : string) :
  fence_open s = Some (o, rest) ->
  s = o ++ rest /\ length o = 7 /\ from 7 s = rest /\
  prefix "```json" (lowercase s) = true.
Proof.
  intros H.
  assert (Hlen : length o = 7).
  { unfold fence_open in H.
    destruct (strip_prefix "```" s) as [[|j [|s_ [|o' [|n r]]]]|];
      try discriminate.
    destruct (_ && _)%bool; [|discriminate].
    now inversion H. }
  destruct (fence_open_Some _ _ _ H) as [Hs _].
  rewrite fence_open_spec in H.
  destruct (prefix "```json" (lowercase s)); [|discriminate].
  injection H as Ho Hrest. repeat split; assumption.
Qed.

Lemma fenced_at_spec (s : string) :
  fenced_at s =
  if prefix "```json" (lowercase s) then
    match find "```" (from 7 s) with
    | Some j =>
        Some {| whole := substring 0 (7 + j + 3) s;
                group1 := Some (trim (substring 0 j (from 7 s))) |}
    | None => None
    end
  else None.
Proof.
  unfold fenced_at.
  destruct (fence_open s) as [[o rest]|] eqn:Eo.
  - destruct (fence_open_parts _ _ _ Eo) as (Hs & Hlen & Hrest & Hp).
    rewrite Hp, Hrest.
    destruct (after_open rest) as [[[ws cap] cl]|] eqn:Ea.
    + destruct (after_open_find _ _ _ _ Ea) as (ws' & r & -> & Hws & Hws' & Hr & Hf).
      rewrite Hf. f_equal. f_equal.
      * rewrite Hs, Hr.
        replace (7 + length (ws ++ cap ++ ws') + 3)
          with (length (o ++ (ws ++ cap ++ ws') ++ "```"))
          by (rewrite !length_app, Hlen; cbn [length]; lia).
        replace (o ++ ws ++ cap ++ ws' ++ "```" ++ r)
          with ((o ++ (ws ++ cap ++ ws') ++ "```") ++ r)
          by (now rewrite !append_assoc).
        rewrite substring_app. now rewrite !append_assoc.
      * f_equal. rewrite Hr.
        replace (ws ++ cap ++ ws' ++ "```" ++ r)
          with ((ws ++ cap ++ ws') ++ "```" ++ r)
          by (now rewrite !append_assoc).
        rewrite substring_app. symmetry. apply trim_padded; trivial.
        -- now apply (after_open_clean _ _ _ _ Ea).
        -- now apply (after_open_trimEnd _ _ _ _ Ea).
    + apply after_open_None in Ea. now rewrite Ea.
  - rewrite fence_open_spec in Eo.
    destruct (prefix "```json" (lowercase s)); [discriminate | reflexivity].
Qed.

(** A fenced block as the match of the first expression. *)
Definition block_match (b : string * string) : matched :=
  {| whole := fst b; group1 := Some (snd b) |}.

Lemma fenced_block_cons (c : ascii) (t : string) :
  prefix "```json" (lowercase (String c t)) = false ->
  fenced_block (String c t) = fenced_block t.
Proof.
  intros Hp. unfold fenced_block.
  change (lowercase (String c t)) with (String (lower c) (lowercase t)) in *.
  cbn [find]. rewrite Hp.
  destruct (find "```json" (lowercase t)) as [i|]; reflexivity.
Qed.

(** The first expression finds the first fenced block. *)
Lemma match_fenced_spec (text : string) :
  match_fenced text = option_map block_match (fenced_block text).
Proof.
  induction text as [|c t IH]; [reflexivity|].
  cbn [match_fenced]. rewrite fenced_at_spec.
  destruct (prefix "```json" (lowercase (String c t))) eqn:Hp.
  - unfold fenced_block. rewrite (find_here _ _ Hp). cbn [Nat.add].
    destruct (find "```" (from 7 (String c t))) as [j|] eqn:Hf; [reflexivity|].
    rewrite IH. unfold fenced_block.
    destruct (find "```json" (lowercase t)) as [i|]; [|reflexivity].
    rewrite from_S in Hf.
    rewrite (find_from_le "```" t 6 (i + 7)) by (trivial; lia).
    reflexivity.
  - rewrite IH. now rewrite fenced_block_cons.
Qed.

Lemma fenced_block_iff (text : string) :
  has_fenced_block text <-> fenced_block text <> None.
Proof.
  rewrite <- match_fenced_iff, match_fenced_spec.
  destruct (fenced_block text) as [b|]; cbn [option_map]; split.
  - discriminate.
  - intros _. eauto.
  - intros [m H]. discriminate H.
  - intros H. now elim H.
Qed.

Lemma jsonMatch_spec (text : string) :
  jsonMatch text =
  match fenced_block text with
  | Some b => Some (block_match b)
  | None => first_to_last_brace text
  end.
Proof.
  unfold jsonMatch. rewrite match_fenced_spec, match_braces_spec.
  destruct (fenced_block text); reflexivity.
Qed.

Lemma jsonText_spec (text : string) :
  option_map jsonText (jsonMatch text) = payload text.
Proof.
  rewrite jsonMatch_spec. unfold payload.
  destruct (fenced_block text) as [[block content]|].
  - cbn [option_map]. unfold jsonText, block_match. cbn [group1 whole fst snd].
    destruct content; reflexivity.
  - unfold first_to_last_brace.
    destruct (indexOf "{" text), (lastIndexOf "}" text); try reflexivity.
    destruct (_ <? _); reflexivity.
Qed.

(** What the caller and the console get when no payload is found. *)
Definition not_found (text : string) : M AnalysisResult :=
  ([host_call "generateContent";
    console_error "Gemini response did not contain JSON. Full response:" text;
    console_error_exn "Error analyzing resume with Gemini:"
      (Error "No valid JSON found in response from Gemini. Try again.")],
   Throw (Error "Failed to parse analysis results from Gemini. Try again.")).

Section WithHost.
Context `{host : Host}.

(** What they get when the payload [p] is found: it is [p] that is
    decoded, and the decoded value that is mapped. *)
Definition found (p : string) : M AnalysisResult :=
  match JSON_parse p with
  | None =>
      ([host_call "generateContent";
        console_error "Failed to JSON.parse extracted text. Extracted text:" p;
        console_error_exn "Error analyzing resume with Gemini:"
          (Error "Failed to parse JSON from Gemini response")],
       Throw (Error "Failed to parse analysis results from Gemini. Try again."))
  | Some raw =>
      match fromRaw raw with
      | Ok r => ([host_call "generateContent"], Ok r)
      | Throw e =>
          ([host_call "generateContent";
            console_error_exn "Error analyzing resume with Gemini:" e],
           Throw (rethrown e))
      end
  end.

(** C5.  The payload is looked for in a fenced block first.  A reply
    that holds one, an opening [```json] in any letter case with a
    closing fence somewhere after it, is matched at its first block: from
    the first opening to the first closing fence after it, the text
    between the two, trimmed, being the content.  Only a reply that holds
    none is matched between its braces, from the first opening brace to
    the last closing one.  The text that is decoded is the content of
    the block, or what is between the braces; nothing else of the reply
    is.  When neither is found the reply is written to the console, with
    the error that says so, and the caller gets the parse error; a reply
    with no fenced block and without an opening or without a closing
    brace is such a reply. *)
Theorem payload_located_or_reported (resumeText text : string) :
  generateContent (ATS_ANALYSIS_PROMPT ++ resumeText) = Ok text ->
  (has_fenced_block text <-> fenced_block text <> None)
  /\ (forall block content, fenced_block text = Some (block, content) ->
      jsonMatch text = Some {| whole := block; group1 := Some content |})
  /\ (fenced_block text = None -> jsonMatch text = first_to_last_brace text)
  /\ option_map jsonText (jsonMatch text) = payload text
  /\ analyzeResumeWithGemini resumeText =
       match payload text with
       | Some p => found p
       | None => not_found text
       end
  /\ (~ has_fenced_block text ->
      indexOf "{" text = None \/ lastIndexOf "}" text = None ->
      payload text = None /\
      analyzeResumeWithGemini resumeText = not_found text).
Proof.
  intros Hreply.
  assert (Hrun : analyzeResumeWithGemini resumeText =
                 match payload text with
                 | Some p => found p
                 | None => not_found text
                 end).
  { rewrite (analyze_reply _ _ Hreply). unfold normalize.
    rewrite <- jsonText_spec.
    destruct (jsonMatch text) as [m|]; cbn [option_map]; [|reflexivity].
    unfold found. destruct (JSON_parse (jsonText m)) as [raw|]; [|reflexivity].
    unfold lift. destruct (fromRaw raw); reflexivity. }
  split; [apply fenced_block_iff|].
  split; [intros block content H; now rewrite jsonMatch_spec, H|].
  split; [intros H; now rewrite jsonMatch_spec, H|].
  split; [apply jsonText_spec|].
  split; [exact Hrun|].
  intros Hf Hb.
  assert (Hp : payload text = None).
  { unfold payload.
    destruct (fenced_block text) as [b|] eqn:E.
    - elim Hf. apply fenced_block_iff. rewrite E. discriminate.
    - unfold first_to_last_brace.
      destruct Hb as [-> | ->]; [reflexivity|].
      destruct (indexOf "{" text); reflexivity. }
  split; [exact Hp|]. now rewrite Hrun, Hp.
Qed.

End WithHost.

(** A reply with braces in its prose, before and after a fenced block. *)
Definition wordy : string :=
  "Here {as asked}:" ++ nl ++ "```JSON" ++ nl
  ++ "  {" ++ q "score" ++ ": 85}  " ++ nl ++ "```" ++ nl ++ "Good {luck}!".

Definition answering : Host :=
  Scripted.host (Ok wordy)
    [("{" ++ q "score" ++ ": 85}", JObj [("score", JNum (Fin 85))])] [].

Definition refusal : string := "I cannot help with that.".

(** The content of the block is what is decoded, not the text between
    the first and the last brace of the reply; and a reply with neither a
    block nor braces is reported. *)
Lemma payload_located_or_reported_witness :
  payload wordy = Some ("{" ++ q "score" ++ ": 85}")
  /\ (exists r, @analyzeResumeWithGemini answering "resume"
                = ([host_call "generateContent"], Ok r)
                /\ overall (scores r) = Num.of_Z 85)
  /\ @analyzeResumeWithGemini (Scripted.host (Ok refusal) [] []) "resume"
     = not_found refusal.
Proof.
  split; [vm_compute; reflexivity|]. split.
  - destruct (@payload_located_or_reported answering "resume" wordy eq_refl)
      as (_ & _ & _ & _ & H & _).
    rewrite H. eexists. split; vm_compute; reflexivity.
  - destruct (@payload_located_or_reported
                (Scripted.host (Ok refusal) [] []) "resume" refusal eq_refl)
      as (_ & _ & _ & _ & _ & H).
    apply H; [|left; reflexivity].
    intros Hf. apply fenced_block_iff in Hf. apply Hf. vm_compute. reflexivity.
Defined.

End PayloadSpec.

(* ================================================================== *)
(** ** Further properties of the text extraction *)

Module ExtractMore.
Import Str MNotation Extract ExtractSpec TrimFacts.
Local Open Scope nat_scope.

(** The text of one page: the [str] of its items, a space between two,
    and a line feed after the last. *)
Definition pageText (items : list string) : string :=
  join " " items ++ Gemini.nl.

Fixpoint flatten (l : list string) : string :=
  match l with
  | [] => EmptyString
  | x :: rest => x ++ flatten rest
  end.

Lemma append_nil_r (s : string) : s ++ "" = s.
Proof. induction s as [|c s IH]; simpl; [reflexivity | now rewrite IH]. Qed.

(** The loop over the pages reads them in order, one request a page, and
    puts their texts one after the other.  At the first page that rejects
    it stops: the pages after it are not requested, and the text gathered
    so far is lost. *)
Theorem pages_in_order (before : list (list string)) (acc : string) :
  pages (map Some before) acc =
    (repeat (host_call "getPage") (List.length before),
     Ok (acc ++ flatten (map pageText before)))
  /\ (forall rest,
      pages (map Some before ++ None :: rest)%list acc =
        (repeat (host_call "getPage") (S (List.length before)),
         Throw (Thrown "page rejected"))).
Proof.
  revert acc. induction before as [|p before IH]; intros acc.
  - split; [cbn; now rewrite append_nil_r | reflexivity].
  - destruct (IH (acc ++ join " " p ++ Gemini.nl)) as [IH1 IH2]. split.
    + cbn [map pages List.length repeat]. unfold bind, emit. rewrite IH1.
      cbn [app flatten]. unfold pageText.
      now rewrite !LocateSpec.append_assoc.
    + intros rest. cbn [map pages List.length repeat app].
      unfold bind, emit. rewrite IH2. reflexivity.
Qed.

Section WithHost.
Context `{host : Host}.

(** The messages an extraction can fail with. *)
Definition failures : list string :=
  ["Failed to read text file"; "Failed to read PDF file"; "Failed to read file";
   pdf_unreadable_message; pdf_parse_message; file_unreadable_message;
   unsupported_message; word_message].

(** Every extraction ends in one of two ways.  Either it gives a text: for
    a plain-text file the bytes as decoded, whatever they are, also none
    at all; for any other file a text of more than 50 characters that
    neither starts nor ends with white space.  Or it fails with an [Error]
    whose message is one of eight fixed ones; an error of the PDF library
    never reaches the caller. *)
Theorem extraction_ends_in_two_ways (file : File) :
  match snd (extractTextFromFile file) with
  | Ok t =>
      (type file = text_plain /\
       exists data, bytes file = Some data /\ t = decodeText data)
      \/ (type file <> text_plain /\ 50 < String.length t /\ trim t = t)
  | Throw e => exists m, e = Error m /\ In m failures
  end.
Proof.
  assert (Hg : forall text message, In message failures ->
             match gated text message with
             | Ok t => 50 < String.length t /\ trim t = t
             | Throw e => exists m, e = Error m /\ In m failures
             end).
  { intros text message Hin. unfold gated.
    destruct (50 <? String.length (trim text)) eqn:E.
    - split; [now apply Nat.ltb_lt | apply trim_idem].
    - now exists message. }
  destruct (String.eqb_spec (type file) text_plain) as [Ht|Ht].
  { unfold extractTextFromFile. rewrite Ht.
    change (String.eqb text_plain text_plain) with true. cbv iota.
    destruct (bytes file) as [data|]; cbn [snd bind emit ret throw].
    - left. split; [reflexivity|]. now exists data.
    - eexists; split; [reflexivity|]. simpl; tauto. }
  destruct (String.eqb_spec (type file) application_pdf) as [Hp|Hp].
  { destruct (bytes file) as [data|] eqn:Hb.
    - rewrite (pdf_branch _ _ Hp Hb).
      destruct (documentText data) as [l [text|err]]; cbn [snd].
      + specialize (Hg text pdf_unreadable_message ltac:(simpl; tauto)).
        destruct (gated text pdf_unreadable_message); [|exact Hg].
        right. now split.
      + eexists; split; [reflexivity|]. simpl; tauto.
    - unfold extractTextFromFile. rewrite Hp, Hb. cbn.
      eexists; split; [reflexivity|]. simpl; tauto. }
  destruct (String.eqb_spec (type file) application_msword) as [Hw|Hw].
  { unfold extractTextFromFile. rewrite Hw. cbn.
    eexists; split; [reflexivity|]. simpl; tauto. }
  destruct (String.eqb_spec (type file) application_docx) as [Hx|Hx].
  { unfold extractTextFromFile. rewrite Hx. cbn.
    eexists; split; [reflexivity|]. simpl; tauto. }
  destruct (bytes file) as [data|] eqn:Hb.
  - rewrite (fallback_branch _ _ Ht Hp Hw Hx Hb).
    destruct (documentText data) as [l [text|err]]; cbn [snd].
    + specialize (Hg text file_unreadable_message ltac:(simpl; tauto)).
      destruct (gated text file_unreadable_message); [|exact Hg].
      right. now split.
    + eexists; split; [reflexivity|]. simpl; tauto.
  - rewrite (fallback_unreadable _ Ht Hp Hw Hx Hb). cbn [snd].
    eexists; split; [reflexivity|]. simpl; tauto.
Qed.

(** A PDF all of whose pages can be read: the parser is called once and
    each page once, in order, and the outcome is that of the gate on the
    texts of the pages put one after the other. *)
Theorem readable_pdf_is_gated
    (file : File) (data : string) (pdfPages : list (list string)) :
  type file = application_pdf ->
  bytes file = Some data ->
  getDocument data = Some (map Some pdfPages) ->
  extractTextFromFile file =
    (host_call "readAsArrayBuffer" :: host_call "getDocument"
       :: repeat (host_call "getPage") (List.length pdfPages),
     gated (flatten (map pageText pdfPages)) pdf_unreadable_message).
Proof.
  intros Ht Hb Hd. rewrite (pdf_branch _ _ Ht Hb).
  unfold documentText. rewrite Hd. unfold bind, emit.
  destruct (pages_in_order pdfPages "") as [-> _]. reflexivity.
Qed.

(** A PDF with a page that cannot be read, after some that can: the
    pages after it are not requested, the error is written to the
    console, and the caller is told that the PDF failed to parse. *)
Theorem unreadable_page_stops_extraction
    (file : File) (data : string) (before : list (list string))
    (rest : PDFDocument) :
  type file = application_pdf ->
  bytes file = Some data ->
  getDocument data = Some (map Some before ++ None :: rest)%list ->
  extractTextFromFile file =
    ((host_call "readAsArrayBuffer" :: host_call "getDocument"
        :: repeat (host_call "getPage") (S (List.length before)))
       ++ [console_error_exn "PDF parsing error:" (Thrown "page rejected")],
     Throw (Error pdf_parse_message))%list.
Proof.
  intros Ht Hb Hd. rewrite (pdf_branch _ _ Ht Hb).
  unfold documentText. rewrite Hd. unfold bind, emit.
  destruct (pages_in_order before "") as [_ H]. rewrite H. reflexivity.
Qed.

End WithHost.

Definition two_pages : list (list string) :=
  [["Jane Doe"; "Software Engineer"]; ["Lisbon, Portugal"; "jane@doe.pt, since 2015"]].

Definition library : Host :=
  Scripted.host (Throw (Thrown "offline")) []
    [("%PDF-2", map Some two_pages);
     ("%PDF-broken", [Some ["Jane Doe"]; None; Some ["never read"]])].

Definition pdf_of (data : string) : File :=
  {| name := "cv.pdf"; type := application_pdf; bytes := Some data |}.

Lemma readable_pdf_is_gated_witness :
  snd (@extractTextFromFile library (pdf_of "%PDF-2")) =
  Ok ("Jane Doe Software Engineer" ++ Gemini.nl
      ++ "Lisbon, Portugal jane@doe.pt, since 2015").
Proof.
  rewrite (@readable_pdf_is_gated library (pdf_of "%PDF-2") "%PDF-2" two_pages
             eq_refl eq_refl eq_refl).
  vm_compute. reflexivity.
Defined.

Lemma unreadable_page_stops_extraction_witness :
  @extractTextFromFile library (pdf_of "%PDF-broken") =
  ([host_call "readAsArrayBuffer"; host_call "getDocument";
    host_call "getPage"; host_call "getPage";
    console_error_exn "PDF parsing error:" (Thrown "page rejected")],
   Throw (Error pdf_parse_message)).
Proof.
  apply (@unreadable_page_stops_extraction library (pdf_of "%PDF-broken")
           "%PDF-broken" [["Jane Doe"]] [Some ["never read"]]);
    reflexivity.
Defined.

End ExtractMore.

(* ================================================================== *)
(** * The rest of the storage service *)

(** A row of [resume_analyses] as the history reads it. *)
Record ResumeAnalysis : Type := {
  row_id : string;
  file_name : string;
  file_url : string;
  analysis_results : value;
  created_at : string
}.

(** What else the code calls: the URL parser, the removal of stored
    objects, the selection and the deletion of rows, and the two dialogs
    of the window. *)
Class Desk : Type := {
  (** [new URL(s).pathname]; [None] when the constructor throws. *)
  URL_pathname : string -> option string;
  (** [storage.from(bucket).remove(paths)]: the error it reports, if any *)
  storage_remove : string -> list string -> res (option exn);
  (** [from("resume_analyses").select("*").eq("user_id", id).order(...)] *)
  select_analyses : string -> res (list ResumeAnalysis + exn);
  (** [from("resume_analyses").delete().eq("id", id)] *)
  delete_analysis : string -> res (option exn);
  (** [window.confirm(message)] *)
  confirm : string -> bool
}.

Module Lists.
Import Str.

(** [s.split(sep)] for a separator of one character. *)
Fixpoint split (sep : ascii) (s : string) : list string :=
  match s with
  | EmptyString => [EmptyString]
  | String c s' =>
      if Ascii.eqb c sep then EmptyString :: split sep s'
      else
        match split sep s' with
        | x :: rest => String c x :: rest
        | [] => [String c EmptyString]
        end
  end.

(** [xs.indexOf(x)]; [None] is -1. *)
Fixpoint indexOf (x : string) (xs : list string) : option nat :=
  match xs with
  | [] => None
  | y :: rest =>
      if String.eqb y x then Some 0%nat else option_map S (indexOf x rest)
  end.

(** [xs.slice(n)] *)
Definition slice {A} (n : nat) (xs : list A) : list A := skipn n xs.

End Lists.

Module Storage2.
Import Str MNotation Storage Lists.
Local Open Scope js_scope.

Record GetResult : Type := {
  data : option (list ResumeAnalysis);
  get_error : option exn
}.

Record DeleteResult : Type := { delete_error : option exn }.

Section WithDesk.
Context `{desk : Desk}.

Definition getUserAnalyses (userId : string) : M GetResult :=
  try_catch
    (emit (host_call "resume_analyses.select") ;;;
     r <- lift (select_analyses userId) ;;
     match r with
     | inr error => throw error
     | inl rows => ret {| data := Some rows; get_error := None |}
     end)
    (fun error =>
       emit (console_error_exn "Error fetching user analyses:" error) ;;;
       ret {| data := None; get_error := Some error |}).

Definition deleteResume (fileUrl : string) : M DeleteResult :=
  try_catch
    (pathname <- lift (match URL_pathname fileUrl with
                       | Some p => Ok p
                       | None => Throw (TypeError "Invalid URL")
                       end) ;;
     let pathParts := split "/" pathname in
     match indexOf RESUME_BUCKET pathParts with
     | None => throw (Error "Invalid file URL")
     | Some bucketIndex =>
         let filePath := join "/" (slice (bucketIndex + 1) pathParts) in
         emit (host_call "storage.remove") ;;;
         r <- lift (storage_remove RESUME_BUCKET [filePath]) ;;
         match r with
         | Some error => throw error
         | None => ret {| delete_error := None |}
         end
     end)
    (fun error =>
       emit (console_error_exn "Error deleting resume:" error) ;;;
       ret {| delete_error := Some error |}).

End WithDesk.

End Storage2.

Module ListsFacts.
Import Str Lists.
Local Open Scope nat_scope.

Lemma split_nonempty (sep : ascii) (s : string) : split sep s <> [].
Proof.
  destruct s as [|c s]; cbn [split]; [discriminate|].
  destruct (Ascii.eqb c sep); [discriminate|].
  destruct (split sep s); discriminate.
Qed.

Lemma join_cons (sep x : string) (xs : list string) :
  xs <> [] -> join sep (x :: xs) = x ++ sep ++ join sep xs.
Proof. destruct xs; [now intros H; elim H | reflexivity]. Qed.

(** [s.split(sep).join(sep)] is [s]. *)
Lemma join_split (sep : ascii) (s : string) :
  join (String sep EmptyString) (split sep s) = s.
Proof.
  induction s as [|c s IH]; [reflexivity|].
  cbn [split]. pose proof (split_nonempty sep s) as Hne.
  destruct (Ascii.eqb c sep) eqn:E.
  - apply Ascii.eqb_eq in E; subst c.
    rewrite join_cons by assumption. rewrite IH. reflexivity.
  - destruct (split sep s) as [|x rest]; [now elim Hne|].
    destruct rest as [|y rest'].
    + cbn [join] in *. now rewrite IH.
    + rewrite join_cons by discriminate.
      rewrite join_cons in IH by discriminate.
      change (String c (x ++ String sep "" ++ join (String sep "") (y :: rest'))
              = String c s).
      now rewrite IH.
Qed.

Lemma split_app (sep : ascii) (a b : string) :
  split sep (a ++ String sep b) = (split sep a ++ split sep b)%list.
Proof.
  induction a as [|c a IH]; cbn [append split].
  - now rewrite Ascii.eqb_refl.
  - destruct (Ascii.eqb c sep); [now rewrite IH|].
    rewrite IH. pose proof (split_nonempty sep a) as Hne.
    destruct (split sep a) as [|x rest]; [now elim Hne | reflexivity].
Qed.

Lemma split_whole (sep : ascii) (s : string) :
  mem sep s = false -> split sep s = [s].
Proof.
  unfold mem. induction s as [|c s IH]; [reflexivity|].
  cbn [list_ascii_of_string existsb split]. intros H.
  apply orb_false_iff in H. destruct H as [Hc Hs].
  rewrite Ascii.eqb_sym in Hc. rewrite Hc, (IH Hs). reflexivity.
Qed.

Lemma split_two (sep : ascii) (s : string) :
  mem sep s = true -> exists x y rest, split sep s = x :: y :: rest.
Proof.
  unfold mem. induction s as [|c s IH]; [discriminate|].
  cbn [list_ascii_of_string existsb split]. intros H.
  pose proof (split_nonempty sep s) as Hne.
  destruct (Ascii.eqb c sep) eqn:E.
  - destruct (split sep s) as [|x rest]; [now elim Hne|]. eauto.
  - rewrite Ascii.eqb_sym, E in H. cbn [orb] in H.
    destruct (IH H) as (x & y & rest & ->). eauto.
Qed.

Lemma indexOf_app (x : string) (before rest : list string) :
  ~ In x before ->
  indexOf x (before ++ x :: rest) = Some (List.length before).
Proof.
  induction before as [|y before IH]; intros Hn; cbn [app indexOf List.length].
  - now rewrite String.eqb_refl.
  - destruct (String.eqb_spec y x) as [->|_]; [elim Hn; now left|].
    rewrite IH; [reflexivity|]. intros H; apply Hn; now right.
Qed.

Lemma indexOf_None (x : string) (xs : list string) :
  indexOf x xs = None <-> ~ In x xs.
Proof.
  induction xs as [|y xs IH]; cbn [indexOf In]; [tauto|].
  destruct (String.eqb_spec y x) as [->|Hne].
  - split; [discriminate | intros H; elim H; now left].
  - destruct (indexOf x xs); cbn [option_map].
    + split; [discriminate|]. intros H. exfalso.
      assert (Some n = None) by (apply IH; tauto). discriminate.
    + split; [|reflexivity]. intros _ [H|H]; [now elim Hne | now apply IH].
Qed.

Lemma slice_app {A} (before : list A) (x : A) (rest : list A) :
  slice (List.length before + 1) (before ++ x :: rest) = rest.
Proof.
  unfold slice. induction before as [|y before IH]; [reflexivity|].
  exact IH.
Qed.

End ListsFacts.

(* ================================================================== *)
(** ** Properties of the storage service *)

Module StorageSpec.
Import Str MNotation Storage Storage2 Lists ListsFacts.
Local Open Scope nat_scope.

(** [file.name.split(".").pop()] is what follows the last dot of the
    name, so it holds no dot; a name without a dot is its own extension. *)
Theorem extension_is_after_last_dot (name : string) :
  after_last_dot name = last (split "." name) EmptyString
  /\ mem "." (after_last_dot name) = false
  /\ (mem "." name = false -> after_last_dot name = name)
  /\ (forall stem ext, mem "." ext = false ->
      after_last_dot (stem ++ String "." ext) = ext).
Proof.
  assert (Hlast : forall s, after_last_dot s = last (split "." s) EmptyString).
  { induction s as [|c s IH]; [reflexivity|].
    cbn [after_last_dot split].
    destruct (mem "." s) eqn:Hm.
    - rewrite IH. destruct (split_two _ _ Hm) as (x & y & rest & ->).
      destruct (Ascii.eqb c "."); reflexivity.
    - rewrite (split_whole _ _ Hm). destruct (Ascii.eqb c "."); reflexivity. }
  assert (Hnodot : forall s, mem "." s = false -> after_last_dot s = s).
  { intros s Hs. rewrite Hlast.
    now rewrite (split_whole _ _ Hs). }
  assert (Hext : forall stem ext, mem "." ext = false ->
                 after_last_dot (stem ++ String "." ext) = ext).
  { intros stem ext He. rewrite Hlast, split_app, (split_whole _ _ He).
    now rewrite last_last. }
  split; [apply Hlast|]. split; [|split; [apply Hnodot | apply Hext]].
  induction name as [|c s IH]; [reflexivity|].
  cbn [after_last_dot]. destruct (mem "." s) eqn:Hm; [exact IH|].
  destruct (Ascii.eqb c ".") eqn:Ec; [exact Hm|].
  unfold mem in *. cbn [list_ascii_of_string existsb].
  rewrite Ascii.eqb_sym, Ec. exact Hm.
Qed.

Section WithBackend.
Context `{backend : Backend}.

(** The object key an upload is stored under: the folder of the user,
    then the time and the random part, then the extension. *)
Definition objectKey (userId : string) (file : File) : string :=
  userId ++ "/" ++ now ++ "-" ++ random ++ "." ++ after_last_dot (name file).

(** [uploadResume] never throws.  It answers with a URL and no error,
    the public URL of the path the storage gave for the object key,
    exactly when the storage reported no error; otherwise with the error
    and no URL, after writing the error to the console. *)
Theorem upload_answers_url_or_error (userId : string) (file : File) :
  exists l r, uploadResume userId file = (l, Ok r) /\
    ((exists path,
        storage_upload RESUME_BUCKET (objectKey userId file) file = Ok (inl path) /\
        r = {| url := Some (getPublicUrl RESUME_BUCKET path); upload_error := None |} /\
        l = [host_call "storage.upload"])
     \/ (exists e,
        (storage_upload RESUME_BUCKET (objectKey userId file) file = Ok (inr e) \/
         storage_upload RESUME_BUCKET (objectKey userId file) file = Throw e) /\
        r = {| url := None; upload_error := Some e |} /\
        l = [host_call "storage.upload";
             console_error_exn "Error uploading resume:" e])).
Proof.
  unfold uploadResume. fold (objectKey userId file).
  destruct (storage_upload RESUME_BUCKET (objectKey userId file) file)
    as [[path|e]|e] eqn:E; cbn.
  - do 2 eexists. split; [reflexivity|]. left. now exists path.
  - do 2 eexists. split; [reflexivity|]. right. exists e. tauto.
  - do 2 eexists. split; [reflexivity|]. right. exists e. tauto.
Qed.

End WithBackend.

Section WithDesk.
Context `{desk : Desk}.

(** [deleteResume] never throws either, and what it removes is read off
    the URL: the path after the first segment named as the bucket.  A URL
    that does not parse, or whose path has no such segment, is answered
    with an error without the storage being called. *)
Theorem delete_answers_error_or_none (fileUrl : string) :
  exists l r, deleteResume fileUrl = (l, Ok r) /\
    (forall e, delete_error r = Some e ->
       In (console_error_exn "Error deleting resume:" e) l) /\
    (delete_error r = None -> l = [host_call "storage.remove"]) /\
    (URL_pathname fileUrl = None \/
     (exists pathname, URL_pathname fileUrl = Some pathname /\
                       ~ In RESUME_BUCKET (split "/" pathname)) ->
     ~ In (host_call "storage.remove") l /\
     (delete_error r = Some (TypeError "Invalid URL") \/
      delete_error r = Some (Error "Invalid file URL"))).
Proof.
  unfold deleteResume.
  destruct (URL_pathname fileUrl) as [pathname|] eqn:Hu; cbn [lift bind try_catch].
  - destruct (indexOf RESUME_BUCKET (split "/" pathname)) as [i|] eqn:Hi.
    + assert (Hin : In RESUME_BUCKET (split "/" pathname)).
      { destruct (in_dec string_dec RESUME_BUCKET (split "/" pathname)) as [H|H];
          [exact H|]. apply indexOf_None in H. rewrite H in Hi. discriminate. }
      assert (Hno : URL_pathname fileUrl = None \/
                (exists p, Some pathname = Some p /\
                           ~ In RESUME_BUCKET (split "/" p)) -> False).
      { rewrite Hu. intros [H|(p & Hp & Hn)]; [discriminate|].
        inversion Hp; subst. contradiction. }
      rewrite Hu in Hno.
      cbn [bind emit].
      destruct (storage_remove RESUME_BUCKET
                  [join "/" (slice (i + 1) (split "/" pathname))])
        as [[e|]|e]; cbn; do 2 eexists; (split; [reflexivity|]);
        cbn [delete_error]; (split; [|split]);
        try (intros e' H; inversion H; subst; simpl; tauto);
        try discriminate; try reflexivity;
        try (intros H; exfalso; apply Hno; exact H).
    + cbn. do 2 eexists. split; [reflexivity|]. cbn [delete_error].
      split; [|split].
      * intros e' H; inversion H; subst. simpl; tauto.
      * discriminate.
      * intros _. split; [|now right]. intros [H|[]]. discriminate H.
  - cbn. do 2 eexists. split; [reflexivity|]. cbn [delete_error].
    split; [|split].
    + intros e' H; inversion H; subst. simpl; tauto.
    + discriminate.
    + intros _. split; [|now left]. intros [H|[]]. discriminate H.
Qed.

(** For a URL whose path is some prefix, the bucket, and an object key,
    the prefix having no segment named as the bucket, the storage is asked
    to remove exactly that key, slashes included, and its answer is the
    answer: splitting the path and joining what follows the bucket loses
    nothing. *)
Theorem delete_removes_the_key (fileUrl before key : string) :
  URL_pathname fileUrl = Some (before ++ "/resumes/" ++ key) ->
  ~ In RESUME_BUCKET (split "/" before) ->
  deleteResume fileUrl =
    match storage_remove RESUME_BUCKET [key] with
    | Ok None => ([host_call "storage.remove"], Ok {| delete_error := None |})
    | Ok (Some e) | Throw e =>
        ([host_call "storage.remove";
          console_error_exn "Error deleting resume:" e],
         Ok {| delete_error := Some e |})
    end.
Proof.
  intros Hu Hn. unfold deleteResume. rewrite Hu. cbn [lift bind try_catch].
  assert (Hs : split "/" (before ++ "/resumes/" ++ key)
               = (split "/" before ++ RESUME_BUCKET :: split "/" key)%list).
  { change (before ++ "/resumes/" ++ key)
      with (before ++ String "/" ("resumes" ++ String "/" key)).
    rewrite split_app, split_app. reflexivity. }
  rewrite Hs, (indexOf_app _ _ _ Hn), slice_app, join_split.
  cbn [bind emit].
  destruct (storage_remove RESUME_BUCKET [key]) as [[e|]|e]; reflexivity.
Qed.

(** [getUserAnalyses] answers with the rows and no error, or with the
    error, written to the console, and no rows; it never throws. *)
Theorem analyses_or_error (userId : string) :
  exists l r, getUserAnalyses userId = (l, Ok r) /\
    ((exists rows, select_analyses userId = Ok (inl rows) /\
        r = {| data := Some rows; get_error := None |} /\
        l = [host_call "resume_analyses.select"])
     \/ (exists e,
        (select_analyses userId = Ok (inr e) \/ select_analyses userId = Throw e) /\
        r = {| data := None; get_error := Some e |} /\
        In (console_error_exn "Error fetching user analyses:" e) l)).
Proof.
  unfold getUserAnalyses.
  destruct (select_analyses userId) as [[rows|e]|e]; cbn.
  - do 2 eexists. split; [reflexivity|]. left. now exists rows.
  - do 2 eexists. split; [reflexivity|]. right. exists e. simpl; tauto.
  - do 2 eexists. split; [reflexivity|]. right. exists e. simpl; tauto.
Qed.

End WithDesk.

(** A desk whose storage and table answer as told, and that knows the
    URLs of one origin. *)
Definition desk_of (removed deleted : res (option exn))
    (rows : res (list ResumeAnalysis + exn)) (confirmed : bool) : Desk :=
  {| URL_pathname := fun s =>
       match strip_prefix "https://storage.example" s with
       | Some p => Some p
       | None => None
       end;
     storage_remove := fun _ _ => removed;
     delete_analysis := fun _ => deleted;
     select_analyses := fun _ => rows;
     confirm := fun _ => confirmed |}.

Lemma delete_removes_the_key_witness :
  @deleteResume (desk_of (Ok None) (Ok None) (Ok (inl [])) true)
    "https://storage.example/storage/v1/object/public/resumes/u1/17-k3.pdf"
  = ([host_call "storage.remove"], Ok {| delete_error := None |}).
Proof.
  apply (@delete_removes_the_key (desk_of (Ok None) (Ok None) (Ok (inl [])) true)
           _ "/storage/v1/object/public" "u1/17-k3.pdf").
  - reflexivity.
  - vm_compute. intuition discriminate.
Defined.

End StorageSpec.

(* ================================================================== *)
(** * The rest of [App] *)

Module App2.
Import Str MNotation App.

Definition setFile (f : option File) (st : AppState) : AppState :=
  {| file := f; analyzing := analyzing st; results := results st;
     dragActive := dragActive st; error := error st;
     uploadingToStorage := uploadingToStorage st |}.
Definition setDragActive (b : bool) (st : AppState) : AppState :=
  {| file := file st; analyzing := analyzing st; results := results st;
     dragActive := b; error := error st;
     uploadingToStorage := uploadingToStorage st |}.

(** The types a drop is accepted for. *)
Definition droppable (f : File) : bool :=
  (String.eqb (type f) "text/plain"
   || String.eqb (type f) "application/pdf"
   || String.eqb (type f) "application/msword"
   || String.eqb (type f)
        "application/vnd.openxmlformats-officedocument.wordprocessingml.document")%bool.

(** [handleDrag], by the type of the event. *)
Definition handleDrag (eventType : string) (st : AppState)
    : list event * AppState :=
  ([host_call "preventDefault"; host_call "stopPropagation"],
   if (String.eqb eventType "dragenter" || String.eqb eventType "dragover")%bool
   then setDragActive true st
   else if String.eqb eventType "dragleave" then setDragActive false st
   else st).

Definition resetAnalysis (st : AppState) : AppState :=
  setError None (setAnalyzing false (setResults None (setFile None st))).

Definition handleViewHistoricalAnalysis
    (analysis : AnalysisResult) (st : AppState) : AppState :=
  setError None (setFile None (setResults (Some analysis) st)).

Section WithServices.
Context `{host : Host} `{backend : Backend}.

(** [handleDrop], given [e.dataTransfer.files]. *)
Definition handleDrop (user : option User) (files : list File) (st : AppState)
    : list event * AppState :=
  let st := setDragActive false st in
  let pre := [host_call "preventDefault"; host_call "stopPropagation"] in
  match files with
  | uploadedFile :: _ =>
      if droppable uploadedFile then
        let (evs, st') := analyzeResume user uploadedFile
                            (setFile (Some uploadedFile) st) in
        ((pre ++ evs)%list, st')
      else (pre, st)
  | [] => (pre, st)
  end.

(** [handleFileInput], given [e.target.files]. *)
Definition handleFileInput (user : option User) (files : list File)
    (st : AppState) : list event * AppState :=
  match files with
  | uploadedFile :: _ =>
      analyzeResume user uploadedFile (setFile (Some uploadedFile) st)
  | [] => ([], st)
  end.

End WithServices.

End App2.

Module AppMore.
Import Str MNotation Storage App App2.

Section WithServices.
Context `{host : Host} `{backend : Backend}.

(** The state a failed run ends in: the message shown, both flags down,
    and everything else as it was before, the earlier results too. *)
Definition failed_with (message : string) (st : AppState) : AppState :=
  {| file := file st; analyzing := false; results := results st;
     dragActive := dragActive st; error := Some message;
     uploadingToStorage := false |}.

Lemma analyzeResume_of_attempt (user : User) (uploadedFile : File)
    (st : AppState) (l : list event) (outcome : res AnalysisResult) :
  attempt user uploadedFile = (l, outcome) ->
  analyzeResume (Some user) uploadedFile st =
    (l, match outcome with
        | Ok r =>
            {| file := file st; analyzing := false; results := Some r;
               dragActive := dragActive st; error := None;
               uploadingToStorage := false |}
        | Throw err =>
            failed_with (match Gemini.message_of err with
                         | Some m => m
                         | None => "An unexpected error occurred"
                         end) st
        end).
Proof.
  intros H. unfold analyzeResume. rewrite H. destruct outcome; reflexivity.
Qed.

(** A failed upload stops the run at once.  Whether the storage reported
    an error, or gave no URL, or an empty one, nothing is read, the model
    is not called and nothing is inserted: the only events are those of
    the upload, and the user is told that the upload failed. *)
Theorem failed_upload_stops_the_run
    (user : User) (uploadedFile : File) (st : AppState)
    (l : list event) (up : UploadResult) :
  uploadResume (user_id user) uploadedFile = (l, Ok up) ->
  upload_error up <> None \/ url up = None \/ url up = Some EmptyString ->
  analyzeResume (Some user) uploadedFile st =
    (l, failed_with "Failed to upload resume to storage" st).
Proof.
  intros Hup Hbad.
  apply (analyzeResume_of_attempt user uploadedFile st l
           (Throw (Error "Failed to upload resume to storage"))).
  unfold attempt. rewrite Hup.
  cbn [bind]. destruct up as [u e]; cbn [upload_error url] in *.
  destruct e as [e|].
  - cbn. now rewrite app_nil_r.
  - destruct u as [[|c u]|]; cbn; try now rewrite app_nil_r.
    exfalso. destruct Hbad as [H|[H|H]]; [now apply H | discriminate | discriminate].
Qed.

(** Once the file is stored, an extraction that fails ends the run with
    the message of the extraction, as it is: the model is not called and
    nothing is inserted. *)
Theorem failed_extraction_is_shown
    (user : User) (uploadedFile : File) (st : AppState)
    (l1 l2 : list event) (fileUrl message : string) :
  uploadResume (user_id user) uploadedFile =
    (l1, Ok {| url := Some fileUrl; upload_error := None |}) ->
  nonempty fileUrl = true ->
  Extract.extractTextFromFile uploadedFile = (l2, Throw (Error message)) ->
  analyzeResume (Some user) uploadedFile st =
    ((l1 ++ l2)%list, failed_with message st).
Proof.
  intros Hup Hurl Hex.
  apply (analyzeResume_of_attempt user uploadedFile st _ (Throw (Error message))).
  unfold attempt. rewrite Hup.
  cbn [bind upload_error url]. rewrite Hurl, Hex. reflexivity.
Qed.

(** Once the text is extracted, an analysis that fails ends the run with
    the message of the analysis: nothing is inserted, and the results
    shown before stay. *)
Theorem failed_analysis_is_shown
    (user : User) (uploadedFile : File) (st : AppState)
    (l1 l2 l3 : list event) (fileUrl resumeText message : string) :
  uploadResume (user_id user) uploadedFile =
    (l1, Ok {| url := Some fileUrl; upload_error := None |}) ->
  nonempty fileUrl = true ->
  Extract.extractTextFromFile uploadedFile = (l2, Ok resumeText) ->
  Gemini.analyzeResumeWithGemini resumeText = (l3, Throw (Error message)) ->
  analyzeResume (Some user) uploadedFile st =
    ((l1 ++ l2 ++ console_log "Extracted resume text:" resumeText :: l3)%list,
     failed_with message st).
Proof.
  intros Hup Hurl Hex Han.
  apply (analyzeResume_of_attempt user uploadedFile st _ (Throw (Error message))).
  unfold attempt. rewrite Hup.
  cbn [bind upload_error url]. rewrite Hurl, Hex. cbn [bind emit].
  rewrite Han. reflexivity.
Qed.

(** A run in which everything succeeds: the record is inserted once,
    after the analysis, with the name of the file and the URL the upload
    gave, and the state ends with the result and no error. *)
Theorem successful_run_is_saved
    (user : User) (uploadedFile : File) (st : AppState)
    (l1 l2 l3 : list event) (fileUrl resumeText rowId : string)
    (r : AnalysisResult) :
  uploadResume (user_id user) uploadedFile =
    (l1, Ok {| url := Some fileUrl; upload_error := None |}) ->
  nonempty fileUrl = true ->
  Extract.extractTextFromFile uploadedFile = (l2, Ok resumeText) ->
  Gemini.analyzeResumeWithGemini resumeText = (l3, Ok r) ->
  insert_analysis (user_id user) (name uploadedFile) fileUrl r = Ok (inl rowId) ->
  analyzeResume (Some user) uploadedFile st =
    ((l1 ++ l2 ++ console_log "Extracted resume text:" resumeText
        :: l3 ++ [host_call "resume_analyses.insert"])%list,
     {| file := file st; analyzing := false; results := Some r;
        dragActive := dragActive st; error := None;
        uploadingToStorage := false |}).
Proof.
  intros Hup Hurl Hex Han Hins.
  apply (analyzeResume_of_attempt user uploadedFile st _ (Ok r)).
  unfold attempt. rewrite Hup.
  cbn [bind upload_error url]. rewrite Hurl, Hex. cbn [bind emit].
  rewrite Han. cbn [bind]. unfold saveAnalysisResults. rewrite Hins.
  reflexivity.
Qed.

(** A Word document is accepted by the drop zone, stored, and only then
    refused: for a signed-in user whose upload succeeds, the file is in
    the storage and the run ends with the message about Word documents. *)
Theorem word_is_stored_then_refused
    (user : User) (uploadedFile : File) (st : AppState)
    (l1 : list event) (fileUrl : string) :
  type uploadedFile = Extract.application_msword \/
  type uploadedFile = Extract.application_docx ->
  uploadResume (user_id user) uploadedFile =
    (l1, Ok {| url := Some fileUrl; upload_error := None |}) ->
  nonempty fileUrl = true ->
  droppable uploadedFile = true
  /\ handleDrop (Some user) [uploadedFile] st =
       ((host_call "preventDefault" :: host_call "stopPropagation" :: l1)%list,
        failed_with Extract.word_message
          (setFile (Some uploadedFile) (setDragActive false st))).
Proof.
  intros Ht Hup Hurl.
  assert (Hd : droppable uploadedFile = true).
  { unfold droppable. destruct Ht as [-> | ->]; reflexivity. }
  split; [exact Hd|].
  unfold handleDrop. rewrite Hd.
  rewrite (failed_extraction_is_shown user uploadedFile _ l1 [] fileUrl
             Extract.word_message Hup Hurl).
  - now rewrite app_nil_r.
  - unfold Extract.extractTextFromFile. destruct Ht as [-> | ->]; reflexivity.
Qed.

(** A file of any other type that is dropped is ignored: nothing is
    stored or read, and the state only loses the mark of the drag.  The
    same file chosen through the file input is analysed. *)
Theorem other_types_only_through_input
    (user : option User) (uploadedFile : File) (rest : list File)
    (st : AppState) :
  droppable uploadedFile = false ->
  handleDrop user (uploadedFile :: rest) st =
    ([host_call "preventDefault"; host_call "stopPropagation"],
     setDragActive false st)
  /\ handleFileInput user (uploadedFile :: rest) st =
       analyzeResume user uploadedFile (setFile (Some uploadedFile) st).
Proof.
  intros Hd. unfold handleDrop, handleFileInput. rewrite Hd. now split.
Qed.

End WithServices.

Definition jane : User := {| user_id := "u1" |}.

Definition start : AppState :=
  {| file := None; analyzing := false; results := Some ServiceSpec.blank;
     dragActive := true; error := None; uploadingToStorage := false |}.

Definition store (inserted : res (string + exn)) : Backend :=
  Scripted.backend (Ok (inl "u1/1700000000000-k3x9a.txt")) inserted.

Definition no_store : Backend :=
  Scripted.backend (Ok (inr (Error "Bucket not found"))) (Ok (inl "row-1")).

Definition replying (reply : res string) : Host :=
  Scripted.host reply [("{}", JObj [])] [].

Definition text_file : File :=
  {| name := "cv.txt"; type := "text/plain"; bytes := Some "Jane Doe" |}.
Definition lost_pdf : File :=
  {| name := "cv.pdf"; type := "application/pdf"; bytes := None |}.
Definition word_file : File :=
  {| name := "cv.docx"; type := Extract.application_docx; bytes := Some "PK" |}.
Definition picture : File :=
  {| name := "cv.png"; type := "image/png"; bytes := Some "PNG" |}.

Lemma failed_upload_stops_the_run_witness :
  @analyzeResume (replying (Ok "{}")) no_store (Some jane) text_file start =
  ([host_call "storage.upload";
    console_error_exn "Error uploading resume:" (Error "Bucket not found")],
   failed_with "Failed to upload resume to storage" start).
Proof.
  apply (@failed_upload_stops_the_run (replying (Ok "{}")) no_store jane
           text_file start _
           {| url := None; upload_error := Some (Error "Bucket not found") |}).
  - reflexivity.
  - left. discriminate.
Defined.

Lemma failed_extraction_is_shown_witness :
  snd (@analyzeResume (replying (Ok "{}")) (store (Ok (inl "row-1")))
         (Some jane) lost_pdf start)
  = failed_with "Failed to read PDF file" start.
Proof.
  rewrite (@failed_extraction_is_shown (replying (Ok "{}"))
             (store (Ok (inl "row-1"))) jane lost_pdf start _ _ _
             "Failed to read PDF file"
             ltac:(vm_compute; reflexivity) ltac:(vm_compute; reflexivity)
             ltac:(vm_compute; reflexivity)).
  reflexivity.
Defined.

Lemma failed_analysis_is_shown_witness :
  snd (@analyzeResume (replying (Throw (Error "quota exceeded")))
         (store (Ok (inl "row-1"))) (Some jane) text_file start)
  = failed_with "Failed to analyze resume. Please try again." start.
Proof.
  rewrite (@failed_analysis_is_shown (replying (Throw (Error "quota exceeded")))
             (store (Ok (inl "row-1"))) jane text_file start _ _ _ _ _
             "Failed to analyze resume. Please try again."
             ltac:(vm_compute; reflexivity) ltac:(vm_compute; reflexivity)
             ltac:(vm_compute; reflexivity) ltac:(vm_compute; reflexivity)).
  reflexivity.
Defined.

Lemma successful_run_is_saved_witness :
  results (snd (@analyzeResume (replying (Ok "{}")) (store (Ok (inl "row-1")))
                  (Some jane) text_file start))
  = Some ServiceSpec.blank.
Proof.
  rewrite (@successful_run_is_saved (replying (Ok "{}"))
             (store (Ok (inl "row-1"))) jane text_file start _ _ _ _ _
             "row-1" ServiceSpec.blank
             ltac:(vm_compute; reflexivity) ltac:(vm_compute; reflexivity)
             ltac:(vm_compute; reflexivity) ltac:(vm_compute; reflexivity)
             ltac:(vm_compute; reflexivity)).
  reflexivity.
Defined.

Lemma word_is_stored_then_refused_witness :
  error (snd (@handleDrop (replying (Ok "{}")) (store (Ok (inl "row-1")))
                (Some jane) [word_file] start))
  = Some Extract.word_message.
Proof.
  destruct (@word_is_stored_then_refused (replying (Ok "{}"))
              (store (Ok (inl "row-1"))) jane word_file start _ _
              ltac:(right; reflexivity)
              ltac:(vm_compute; reflexivity) ltac:(vm_compute; reflexivity))
    as [_ H].
  rewrite H. reflexivity.
Defined.

Lemma other_types_only_through_input_witness :
  @handleDrop (replying (Ok "{}")) (store (Ok (inl "row-1")))
    (Some jane) [picture] start
  = ([host_call "preventDefault"; host_call "stopPropagation"],
     setDragActive false start).
Proof.
  apply (@other_types_only_through_input (replying (Ok "{}"))
           (store (Ok (inl "row-1"))) (Some jane) picture [] start).
  reflexivity.
Defined.

End AppMore.

(* ================================================================== *)
(** * The rest of [ResumeHistory] *)

Module History.
Import Str MNotation Storage2.
Local Open Scope js_scope.

Record HistoryState : Type := {
  analyses : list ResumeAnalysis;
  loading : bool;
  deletingId : option string
}.

Definition setAnalyses (rows : list ResumeAnalysis) (st : HistoryState) :=
  {| analyses := rows; loading := loading st; deletingId := deletingId st |}.
Definition setLoading (b : bool) (st : HistoryState) :=
  {| analyses := analyses st; loading := b; deletingId := deletingId st |}.
Definition setDeletingId (i : option string) (st : HistoryState) :=
  {| analyses := analyses st; loading := loading st; deletingId := i |}.

Section WithDesk.
Context `{desk : Desk}.

(** [loadAnalyses] *)
Definition loadAnalyses (user : option App.User) (st : HistoryState)
    : list event * HistoryState :=
  match user with
  | None => ([], st)
  | Some u =>
      let st := setLoading true st in
      match getUserAnalyses (App.user_id u) with
      | (l, Ok {| data := Some rows; get_error := None |}) =>
          (l, setLoading false (setAnalyses rows st))
      | (l, _) => (l, setLoading false st)
      end
  end.

(** The [try] block of [handleDelete]: the removal of the stored file,
    whose answer is not looked at, then the deletion of the row. *)
Definition deletion (analysis : ResumeAnalysis) : M unit :=
  _ <- deleteResume (file_url analysis) ;;
  emit (host_call "resume_analyses.delete") ;;;
  r <- lift (delete_analysis (row_id analysis)) ;;
  match r with
  | Some error => throw error
  | None => ret tt
  end.

(** [handleDelete]; [notify] tells whether [onAnalysisDeleted] was given. *)
Definition handleDelete (notify : bool) (analysis : ResumeAnalysis)
    (st : HistoryState) : list event * HistoryState :=
  if confirm "Are you sure you want to delete this analysis?" then
    let st := setDeletingId (Some (row_id analysis)) st in
    match deletion analysis with
    | (l, Ok _) =>
        ((l ++ if notify then [host_call "onAnalysisDeleted"] else [])%list,
         setDeletingId None
           (setAnalyses
              (filter (fun a => negb (String.eqb (row_id a) (row_id analysis)))
                      (analyses st))
              st))
    | (l, Throw error) =>
        ((l ++ [console_error_exn "Error deleting analysis:" error;
                host_call "alert"])%list,
         setDeletingId None st)
    end
  else ([], st).

End WithDesk.

(** The value an [AnalysisResult] is stored as: JSON has no NaN and no
    infinity, which are written as [null]. *)
Definition encode_num (n : num) : json :=
  match n with
  | Fin _ => JNum n
  | _ => JNull
  end.

Definition encode (r : AnalysisResult) : json :=
  JObj [("scores",
         JObj [("overall", encode_num (overall (scores r)));
               ("atsCompatibility", encode_num (atsCompatibility (scores r)));
               ("keywordOptimization", encode_num (keywordOptimization (scores r)));
               ("formatting", encode_num (formatting (scores r)));
               ("impact", encode_num (impact (scores r)))]);
        ("summary", JStr (summary r));
        ("strengths", JArr (map JStr (strengths r)));
        ("improvements", JArr (map JStr (improvements r)));
        ("criticalIssues", JArr (map JStr (criticalIssues r)));
        ("suggestions", JArr (map JStr (suggestions r)))].

End History.

Module HistorySpec.
Import Str Num Js MNotation NumFacts ClampFacts MapFacts Gemini
       Storage2 History ResumeHistory.

(** What is shown for a number: the nearest integer brought into
    0..100, an infinity included; NaN stays NaN. *)
Lemma shown_number (n : num) :
  is_score (Num.max (Fin 0) (Num.min (Fin 100) (round n))) \/
  (n = NaN /\ Num.max (Fin 0) (Num.min (Fin 100) (round n)) = NaN).
Proof.
  destruct n as [q| | |].
  - left. cbn [round]. rewrite max_min_of_Z.
    eexists; split; [reflexivity | lia].
  - left. exists 100%Z. split; [reflexivity | lia].
  - left. exists 0%Z. split; [reflexivity | lia].
  - right. now split.
Qed.

Section WithHost.
Context `{host : Host}.

(** The figure the history shows as score is a dash, or an integer from
    0 to 100, or NaN; and NaN only for a stored [scores.overall] that does
    not convert to a number (or for a flat score that is NaN itself, which
    no decoded JSON holds).  The history has no pass that turns NaN into 0
    as the normaliser has. *)
Theorem history_score_is_shown (ar : json) (shown : option num) :
  (raw <~ overallRaw ar ;; display raw) = Ok shown ->
  shown = None
  \/ (exists n, shown = Some n /\ is_score n)
  \/ (shown = Some NaN /\
      ((exists v, at2 ar "scores" "overall" = Some v /\
                  ToNumber Number_toString (Some v) = Ok NaN)
       \/ at1 ar "score" = Some (JNum NaN))).
Proof.
  intros H. apply rbind_Ok in H. destruct H as (raw & Hraw & Hd).
  unfold overallRaw in Hraw. fold (at2 ar "scores" "overall") in Hraw.
  destruct (nullish (at2 ar "scores" "overall") None) as [v|] eqn:Hn.
  - inversion Hraw; subst raw; clear Hraw. cbn [display] in Hd.
    apply rbind_Ok in Hd. destruct Hd as (n & Hv & Hd).
    inversion Hd; subst shown; clear Hd.
    assert (Hat : at2 ar "scores" "overall" = Some v).
    { destruct (at2 ar "scores" "overall") as [[| | | | |]|];
        cbn [nullish] in Hn; inversion Hn; reflexivity. }
    destruct (shown_number n) as [Hs|[-> Hs]].
    + right; left. eauto.
    + right; right. rewrite Hs. split; [reflexivity|]. left. eauto.
  - apply rbind_Ok in Hraw. destruct Hraw as (score & Hscore & Hraw).
    apply get_Ok in Hscore. destruct Hscore as [_ ->].
    assert (Hcase : forall n, raw = inr (Some n) ->
              (n = NaN -> at1 ar "score" = Some (JNum NaN)) ->
              shown = None
              \/ (exists n, shown = Some n /\ is_score n)
              \/ (shown = Some NaN /\
                  ((exists v, at2 ar "scores" "overall" = Some v /\
                              ToNumber Number_toString (Some v) = Ok NaN)
                   \/ at1 ar "score" = Some (JNum NaN)))).
    { intros n -> Hnan. cbn [display] in Hd. inversion Hd; subst shown.
      destruct (shown_number n) as [Hs|[-> Hs]].
      - right; left. eauto.
      - right; right. rewrite Hs. split; [reflexivity|]. right. now apply Hnan. }
    destruct (at1 ar "score") as [[| |n| | |]|] eqn:Hsc;
      try (apply rbind_Ok in Hraw; destruct Hraw as (on & Hon & Hraw);
           inversion Hraw; subst raw; clear Hraw;
           unfold number_or_null in Hon;
           apply rbind_Ok in Hon; destruct Hon as (n & Hn' & Hon);
           inversion Hon; subst on; clear Hon;
           destruct (Num.truthy n) eqn:Ht;
           [ apply (Hcase n eq_refl); intros ->; discriminate Ht
           | cbn [display] in Hd; inversion Hd; now left ]).
    inversion Hraw; subst raw. apply (Hcase n eq_refl). now intros ->.
Qed.

(** What the normaliser returns and the storage keeps is shown by the
    history as it is: both figures of the history are the overall and the
    ATS score of the result, a score of 0 included. *)
Theorem stored_result_shows_its_scores (raw : json) (r : AnalysisResult) :
  fromRaw raw = Ok r ->
  (x <~ overallRaw (ar_of (Some (encode r))) ;; display x)
    = Ok (Some (overall (scores r)))
  /\ (x <~ atsRaw (ar_of (Some (encode r))) ;; display x)
    = Ok (Some (atsCompatibility (scores r))).
Proof.
  intros H. apply fromRaw_Ok in H.
  destruct H as (_ & kw & fm & ex & sk & ed & _ & _ & _ & _ & _ & Hs & _).
  assert (Hshow : forall n, is_score n ->
            encode_num n = JNum n /\
            Num.max (Fin 0) (Num.min (Fin 100) (round n)) = n).
  { intros n (z & -> & Hz). split; [reflexivity|].
    rewrite round_of_Z, max_min_of_Z. f_equal. lia. }
  destruct (Hshow (overall (scores r))) as [Ho1 Ho2];
    [rewrite Hs; apply clamp_is_score|].
  destruct (Hshow (atsCompatibility (scores r))) as [Ha1 Ha2];
    [rewrite Hs; apply clamp_is_score|].
  unfold overallRaw, atsRaw, ar_of, encode.
  cbn [get_opt assoc String.eqb Ascii.eqb Bool.eqb].
  rewrite Ho1, Ha1. cbn [nullish rbind display ToNumber].
  now rewrite Ho2, Ha2.
Qed.

End WithHost.

(** A flat payload with both values of the ATS figure. *)
Definition flat_pair (a b : Z) : json :=
  JObj [("breakdown", JObj [("experience", JNum (of_Z a));
                            ("education", JNum (of_Z b))])].

Lemma half_round (q : Q) :
  Qden q = 1%positive -> (1 <= Qnum q <= 1000)%Z ->
  round (div (to_double q) (Fin 2)) = of_Z ((Qnum q + 1) / 2).
Proof.
  destruct q as [n d]; cbn [Qnum Qden]; intros -> Hn.
  rewrite to_double_mid by (cbn [Qnum Qden]; lia).
  cbn [div]. change (Qeq_bool 2 0) with false. cbv iota.
  rewrite to_double_mid by (cbn; lia).
  cbn [round]. f_equal.
  unfold Qfloor, Qplus, Qdiv, Qmult, Qinv; cbn.
  replace (n * 1 * 2 + 2)%Z with ((n + 1) * 2)%Z by lia.
  change 4%Z with (2 * 2)%Z. apply Z.div_mul_cancel_r; lia.
Qed.

Section Agreement.
Context `{host : Host}.

(** Where both the experience and the education are there, the two
    computations of the ATS figure agree: the normaliser and the history
    both give the mean of the two, a half rounded up. *)
Theorem both_present_agree (a b : Z) :
  (1 <= a <= 100)%Z -> (1 <= b <= 100)%Z ->
  exists r, fromRaw (flat_pair a b) = Ok r /\
    atsCompatibility (scores r) = of_Z ((a + b + 1) / 2) /\
    (x <~ atsRaw (flat_pair a b) ;; display x)
      = Ok (Some (of_Z ((a + b + 1) / 2))).
Proof.
  intros Ha Hb.
  assert (Hta : Num.truthy (of_Z a) = true).
  { rewrite truthy_of_Z. destruct (Z.eqb_spec a 0); [lia|reflexivity]. }
  assert (Htb : Num.truthy (of_Z b) = true).
  { rewrite truthy_of_Z. destruct (Z.eqb_spec b 0); [lia|reflexivity]. }
  assert (Hm : (1 <= (a + b + 1) / 2 <= 100)%Z).
  { assert ((a + b + 1) / 2 < 101)%Z by (apply Z.div_lt_upper_bound; lia).
    assert (1 <= (a + b + 1) / 2)%Z by (apply Z.div_le_lower_bound; lia).
    lia. }
  assert (Hhalf : round (div (add (of_Z a) (of_Z b)) (Fin 2))
                  = of_Z ((a + b + 1) / 2)).
  { cbn [add of_Z]. rewrite half_round by (cbn; lia).
    cbn. do 2 f_equal. lia. }
  assert (Hnum : forall z, number_or_zero (Some (JNum (of_Z z))) = Ok (of_Z z)).
  { intros z. unfold number_or_zero. cbn [nullish ToNumber rbind].
    now rewrite or_zero_of_Z. }
  destruct (TotalitySpec.fromRaw_returns (flat_pair a b)) as [r Hr].
  { discriminate. }
  { intros k _ j Hj. unfold at2, flat_pair in Hj. cbn in Hj.
    destruct (String.eqb k "experience"); [now inversion Hj|].
    destruct (String.eqb k "education"); [now inversion Hj | discriminate]. }
  { intros k [<-|[<-|[]]] j Hj; discriminate Hj. }
  exists r. split; [exact Hr|].
  apply fromRaw_Ok in Hr.
  destruct Hr as (_ & kw & fm & ex & sk & ed & _ & _ & Hex & _ & Hed & Hs & _).
  change (at2 (flat_pair a b) "breakdown" "experience")
    with (Some (JNum (of_Z a))) in Hex.
  change (at2 (flat_pair a b) "breakdown" "education")
    with (Some (JNum (of_Z b))) in Hed.
  rewrite Hnum in Hex, Hed. inversion Hex; subst ex. inversion Hed; subst ed.
  split.
  - rewrite Hs; cbn [atsCompatibility]. unfold average.
    rewrite Hta. cbn [orb]. rewrite Hhalf, or_zero_of_Z, clamp_of_Z.
    f_equal. lia.
  - unfold atsRaw, flat_pair.
    cbn [get_opt assoc String.eqb Ascii.eqb Bool.eqb nullish get rbind Js.truthy].
    unfold derived, ResumeHistory.number_or_zero.
    cbn [get assoc String.eqb Ascii.eqb Bool.eqb rbind nullish ToNumber].
    rewrite !or_zero_of_Z, Hta, Htb. cbn [orb andb rbind display].
    rewrite Hhalf, round_of_Z, max_min_of_Z. do 3 f_equal. lia.
Qed.

End Agreement.

Lemma both_present_agree_witness :
  exists r, @fromRaw Scripted.idle (flat_pair 85 95) = Ok r /\
            atsCompatibility (scores r) = of_Z 90.
Proof.
  destruct (@both_present_agree Scripted.idle 85 95 ltac:(lia) ltac:(lia))
    as (r & Hr & Ha & _).
  exists r. split; [exact Hr | exact Ha].
Defined.

Lemma stored_result_shows_its_scores_witness :
  (x <~ @overallRaw Scripted.idle (ar_of (Some (encode ServiceSpec.blank))) ;;
   @display Scripted.idle x) = Ok (Some (of_Z 0)).
Proof.
  destruct (@stored_result_shows_its_scores Scripted.idle (JObj [])
              ServiceSpec.blank ltac:(vm_compute; reflexivity)) as [H _].
  exact H.
Defined.

Definition unrated : json :=
  JObj [("scores", JObj [("overall", JStr "n/a")])].

Lemma history_score_is_shown_witness :
  (x <~ @overallRaw Scripted.idle unrated ;; @display Scripted.idle x)
    = Ok (Some NaN)
  /\ exists v, at2 unrated "scores" "overall" = Some v.
Proof.
  assert (H : (x <~ @overallRaw Scripted.idle unrated ;; @display Scripted.idle x)
              = Ok (Some NaN)) by (vm_compute; reflexivity).
  split; [exact H|].
  destruct (@history_score_is_shown Scripted.idle unrated _ H)
    as [Hn|[(n & Hn & Hs)|(_ & [(v & Hv & _)|Hv])]].
  - discriminate Hn.
  - inversion Hn; subst n. destruct Hs as (z & Hz & _). discriminate Hz.
  - now exists v.
  - discriminate Hv.
Defined.

Section WithDesk.
Context `{desk : Desk}.

Lemma deleteResume_quiet (fileUrl : string) :
  exists l r, deleteResume fileUrl = (l, Ok r) /\
              ~ In (host_call "alert") l /\
              ~ In (host_call "resume_analyses.delete") l.
Proof.
  unfold deleteResume.
  destruct (URL_pathname fileUrl) as [pathname|]; cbn [lift bind try_catch].
  - destruct (Lists.indexOf Storage.RESUME_BUCKET (Lists.split "/" pathname))
      as [i|].
    + cbn [bind emit].
      destruct (storage_remove Storage.RESUME_BUCKET
                  [join "/" (Lists.slice (i + 1) (Lists.split "/" pathname))])
        as [[e|]|e]; cbn; do 2 eexists; (split; [reflexivity|]);
        split; simpl; intuition discriminate.
    + cbn. do 2 eexists. split; [reflexivity|].
      split; simpl; intuition discriminate.
  - cbn. do 2 eexists. split; [reflexivity|].
    split; simpl; intuition discriminate.
Qed.

Lemma handleDelete_confirmed
    (notify : bool) (analysis : ResumeAnalysis) (st : HistoryState)
    (l : list event) (r : DeleteResult) :
  confirm "Are you sure you want to delete this analysis?" = true ->
  deleteResume (file_url analysis) = (l, Ok r) ->
  handleDelete notify analysis st =
    match delete_analysis (row_id analysis) with
    | Ok None =>
        ((l ++ host_call "resume_analyses.delete"
            :: (if notify then [host_call "onAnalysisDeleted"] else []))%list,
         {| analyses :=
              filter (fun a => negb (String.eqb (row_id a) (row_id analysis)))
                     (analyses st);
            loading := loading st;
            deletingId := None |})
    | Ok (Some e) | Throw e =>
        ((l ++ [host_call "resume_analyses.delete";
                console_error_exn "Error deleting analysis:" e;
                host_call "alert"])%list,
         {| analyses := analyses st; loading := loading st;
            deletingId := None |})
    end.
Proof.
  intros Hc Hdr. unfold handleDelete, deletion. rewrite Hc, Hdr.
  unfold bind, emit, lift, ret, throw.
  destruct (delete_analysis (row_id analysis)) as [[e|]|e];
    cbn [app]; rewrite ?app_nil_r, <- ?app_assoc; reflexivity.
Qed.

(** The row goes even if the file stays.  Once the user has confirmed
    and the deletion of the row succeeds, the analysis leaves the list,
    whatever became of the removal of the stored file, whose answer is
    not looked at: no row with its id remains, the others stay in order,
    and no alert is shown. *)
Theorem row_goes_even_if_file_stays
    (notify : bool) (analysis : ResumeAnalysis) (st : HistoryState) :
  confirm "Are you sure you want to delete this analysis?" = true ->
  delete_analysis (row_id analysis) = Ok None ->
  snd (handleDelete notify analysis st) =
    {| analyses :=
         filter (fun a => negb (String.eqb (row_id a) (row_id analysis)))
                (analyses st);
       loading := loading st;
       deletingId := None |}
  /\ (forall a, In a (analyses (snd (handleDelete notify analysis st))) ->
      row_id a <> row_id analysis /\ In a (analyses st))
  /\ ~ In (host_call "alert") (fst (handleDelete notify analysis st)).
Proof.
  intros Hc Hd.
  destruct (deleteResume_quiet (file_url analysis)) as (l & r & Hdr & Hq & _).
  rewrite (handleDelete_confirmed notify analysis st l r Hc Hdr), Hd.
  cbn [fst snd analyses].
  split; [reflexivity|]. split.
  - intros a Ha.
    apply filter_In in Ha. destruct Ha as [Hin Hne]. split; [|exact Hin].
    apply negb_true_iff, String.eqb_neq in Hne. exact Hne.
  - intros Hin. apply in_app_or in Hin. destruct Hin as [Hin|[Hin|Hin]].
    + now apply Hq.
    + discriminate Hin.
    + destruct notify; [destruct Hin as [Hin|[]]; discriminate Hin | exact Hin].
Qed.

(** When the deletion of the row fails, by an error reported or thrown,
    the list is left as it was, the error is written to the console and
    an alert is shown; the stored file may be gone by then, since its
    removal comes first. *)
Theorem failed_row_deletion_keeps_the_list
    (notify : bool) (analysis : ResumeAnalysis) (st : HistoryState) (e : exn) :
  confirm "Are you sure you want to delete this analysis?" = true ->
  delete_analysis (row_id analysis) = Ok (Some e) \/
  delete_analysis (row_id analysis) = Throw e ->
  snd (handleDelete notify analysis st) =
    {| analyses := analyses st; loading := loading st; deletingId := None |}
  /\ exists l r,
       deleteResume (file_url analysis) = (l, Ok r) /\
       fst (handleDelete notify analysis st) =
         (l ++ [host_call "resume_analyses.delete";
                console_error_exn "Error deleting analysis:" e;
                host_call "alert"])%list.
Proof.
  intros Hc Hd.
  destruct (deleteResume_quiet (file_url analysis)) as (l & r & Hdr & _).
  rewrite (handleDelete_confirmed notify analysis st l r Hc Hdr).
  destruct Hd as [-> | ->]; cbn [fst snd]; (split; [reflexivity|]);
    now exists l, r.
Qed.

(** Loading the list never fails: for a signed-in user it ends with the
    loading mark down, the rows of the table as the list when the
    selection succeeds, and the list as it was, with the error on the
    console, when it does not. *)
Theorem loading_keeps_the_list_on_error (u : App.User) (st : HistoryState) :
  loading (snd (loadAnalyses (Some u) st)) = false
  /\ deletingId (snd (loadAnalyses (Some u) st)) = deletingId st
  /\ (forall rows, select_analyses (App.user_id u) = Ok (inl rows) ->
      analyses (snd (loadAnalyses (Some u) st)) = rows)
  /\ (forall e, select_analyses (App.user_id u) = Ok (inr e) \/
                select_analyses (App.user_id u) = Throw e ->
      analyses (snd (loadAnalyses (Some u) st)) = analyses st /\
      In (console_error_exn "Error fetching user analyses:" e)
         (fst (loadAnalyses (Some u) st))).
Proof.
  unfold loadAnalyses, getUserAnalyses.
  destruct (select_analyses (App.user_id u)) as [[rows|e]|e]; cbn.
  - repeat split; try reflexivity.
    + intros rows' H; now inversion H.
    + destruct H as [H|H]; discriminate H.
    + destruct H as [H|H]; discriminate H.
  - repeat split; try reflexivity; try discriminate.
    destruct H as [H|H]; inversion H; subst; tauto.
  - repeat split; try reflexivity; try discriminate.
    destruct H as [H|H]; inversion H; subst; tauto.
Qed.

End WithDesk.

Definition kept : ResumeAnalysis :=
  {| row_id := "a1"; file_name := "cv.pdf";
     file_url := "https://elsewhere.example/cv.pdf";
     analysis_results := Some (encode ServiceSpec.blank);
     created_at := "2024-05-01T10:00:00Z" |}.
Definition gone : ResumeAnalysis :=
  {| row_id := "a2"; file_name := "old.pdf";
     file_url := "not a url";
     analysis_results := None;
     created_at := "2024-04-01T10:00:00Z" |}.

Definition listed : HistoryState :=
  {| analyses := [kept; gone; kept]; loading := false; deletingId := None |}.

Lemma row_goes_even_if_file_stays_witness :
  analyses (snd (@handleDelete
                   (StorageSpec.desk_of (Ok (Some (Error "denied"))) (Ok None)
                      (Ok (inl [])) true)
                   true gone listed)) = [kept; kept].
Proof.
  destruct (@row_goes_even_if_file_stays
              (StorageSpec.desk_of (Ok (Some (Error "denied"))) (Ok None)
                 (Ok (inl [])) true)
              true gone listed eq_refl eq_refl) as (H & _).
  rewrite H. reflexivity.
Defined.

Lemma failed_row_deletion_keeps_the_list_witness :
  analyses (snd (@handleDelete
                   (StorageSpec.desk_of (Ok None) (Ok (Some (Error "denied")))
                      (Ok (inl [])) true)
                   false gone listed)) = [kept; gone; kept].
Proof.
  destruct (@failed_row_deletion_keeps_the_list
              (StorageSpec.desk_of (Ok None) (Ok (Some (Error "denied")))
                 (Ok (inl [])) true)
              false gone listed (Error "denied") eq_refl
              ltac:(left; reflexivity)) as (H & _).
  rewrite H. reflexivity.
Defined.

End HistorySpec.

(* ================================================================== *)
(** * Further properties of the mapping *)

Module MappingMore.
Import Str Num Js MNotation NumFacts ClampFacts MapFacts Gemini History.

Lemma clamp_idem (n : num) : clamp (clamp n) = clamp n.
Proof.
  destruct (clamp_is_score n) as (z & -> & Hz).
  rewrite clamp_of_Z. f_equal. lia.
Qed.

Lemma strings_map_JStr (l : list string) : strings (map JStr l) = l.
Proof. induction l as [|s l IH]; [reflexivity|]. cbn. now rewrite IH. Qed.

Section WithHost.
Context `{host : Host}.

(** The final pass changes nothing the second time: the scores of a
    returned result are their own clamped values. *)
Theorem final_pass_is_idempotent (raw : json) (r : AnalysisResult) :
  fromRaw raw = Ok r ->
  clampScores r = r /\ forall r', clampScores (clampScores r') = clampScores r'.
Proof.
  assert (Hidem : forall r', clampScores (clampScores r') = clampScores r').
  { intros r'. unfold clampScores.
    cbn [scores overall atsCompatibility keywordOptimization formatting impact
         summary strengths improvements criticalIssues suggestions].
    now rewrite !clamp_idem. }
  intros H. split; [|exact Hidem].
  unfold fromRaw in H. apply rbind_Ok in H. destruct H as (m & _ & H).
  inversion H; subst r. apply Hidem.
Qed.

Lemma fromRaw_summary (raw : json) (r : AnalysisResult) :
  fromRaw raw = Ok r -> summary_of raw = Ok (summary r).
Proof.
  unfold fromRaw. intros H.
  step H as m Hm. inversion H; subst r; clear H.
  unfold mapped in Hm.
  step Hm as score Hscore. step Hm as b Hb.
  step Hm as keywords Hk. step Hm as formatting_ Hf.
  step Hm as experience Hx. step Hm as skills Hs.
  step Hm as education He. step Hm as imp Himp.
  step Hm as flat Hflat. step Hm as str Hstr. step Hm as summ Hsumm.
  inversion Hm; subst m. exact Hsumm.
Qed.

(** The summary of a result is the payload's [summary] when that is a
    text that is not empty; failing a truthy [summary], it is the
    [analysisSummary] when that is a text; and with neither it is empty,
    never the print of [null] or of [undefined]. *)
Theorem summary_is_first_text (raw : json) (r : AnalysisResult) :
  fromRaw raw = Ok r ->
  (forall s, at1 raw "summary" = Some (JStr s) -> s <> EmptyString ->
     summary r = s)
  /\ (truthy (at1 raw "summary") = false ->
      forall s, at1 raw "analysisSummary" = Some (JStr s) -> summary r = s)
  /\ (truthy (at1 raw "summary") = false ->
      truthy (at1 raw "analysisSummary") = false -> summary r = EmptyString).
Proof.
  intros H. pose proof (fromRaw_summary _ _ H) as Hs.
  apply fromRaw_Ok in H. destruct H as [Hnn _].
  unfold summary_of in Hs. rewrite !(get_nonnull raw) in Hs by assumption.
  cbn [rbind] in Hs. unfold and_String in Hs.
  split; [|split].
  - intros s E Hne. rewrite E in Hs. destruct s as [|c s]; [now elim Hne|].
    cbn in Hs. now inversion Hs.
  - intros Hf s E. rewrite Hf, E in Hs. cbn [rbind nonempty] in Hs.
    destruct s as [|c s]; cbn in Hs; now inversion Hs.
  - intros Hf1 Hf2. rewrite Hf1, Hf2 in Hs. cbn in Hs. now inversion Hs.
Qed.

(** The normaliser does not read the shape it writes.  Given a result as
    it is stored, it keeps the summary, the strengths and the flat list
    of improvements, and loses the rest: the five scores come out as 0
    and the critical issues and the suggestions as empty. *)
Theorem stored_shape_loses_its_scores (r : AnalysisResult) :
  fromRaw (encode r) =
    Ok {| scores := {| overall := of_Z 0; atsCompatibility := of_Z 0;
                       keywordOptimization := of_Z 0; formatting := of_Z 0;
                       impact := of_Z 0 |};
          summary := summary r;
          strengths := strengths r;
          improvements := improvements r;
          criticalIssues := [];
          suggestions := [] |}.
Proof.
  unfold fromRaw, mapped, encode, keywords_of, field, summary_of, and_String.
  cbn [get assoc String.eqb Ascii.eqb Bool.eqb rbind breakdown_of].
  unfold number_or_zero.
  cbn [nullish ToNumber rbind improvementsFlat string_array get_opt assoc
       String.eqb Ascii.eqb Bool.eqb truthy String_ ToString].
  rewrite !strings_map_JStr.
  destruct (summary r) as [|c s]; reflexivity.
Qed.

End WithHost.

Definition with_both_summaries : json :=
  JObj [("summary", JNum zero); ("analysisSummary", JStr "Solid profile.")].

Lemma summary_is_first_text_witness :
  exists r, @fromRaw Scripted.idle with_both_summaries = Ok r /\
            summary r = "Solid profile.".
Proof.
  eexists. split; [vm_compute; reflexivity|].
  destruct (@summary_is_first_text Scripted.idle with_both_summaries _
              ltac:(vm_compute; reflexivity)) as (_ & H & _).
  apply H; reflexivity.
Defined.

Lemma final_pass_is_idempotent_witness :
  clampScores ServiceSpec.blank = ServiceSpec.blank.
Proof.
  apply (@final_pass_is_idempotent Scripted.idle (JObj []) ServiceSpec.blank).
  vm_compute. reflexivity.
Defined.

End MappingMore.
